(** * Exchange-rate ingestion and read-through pipeline

    A shallow embedding of the data collector, the data processor and the
    rate reader of the currency services
    ([data-ingestor/app/services/data_collector.py],
    [data-ingestor/app/services/data_processor.py],
    [currency-service/app/services/currency_provider.py],
    [data-ingestor/main.py]) and of the message producer
    ([shared/messaging.py]), followed by the properties established about
    them.

    Conventions of the embedding:
    - Python [Decimal] and [float] values are exact rationals ([Q]); the
      conversions [float(...)] and [str(...)] between them are the identity,
      and the store compares and subtracts rates as exact decimals.  Rates
      accepted by validation have at most 9 significant digits, so the
      28-digit [Decimal] context never rounds a product by 1.02 or 0.98.
    - Timestamps are seconds ([Z]); [DateTimeUtils.utc_now()] reads the clock
      of the world, [to_iso_string] is the identity on timestamps.
    - [async] functions are computations in a state-and-exception monad over
      an explicit world: the cache, the historical store, the messaging sink,
      an operation counter and the clock.
    - Every call that leaves the process (cache, store, sink) consults a fault
      oracle, indexed by the operation counter and by the operation, which
      decides whether the call raises.
    - Log calls of the structured logger ([shared.logging]) accept arbitrary
      keywords and have no effect on the world; they are left out, and so is
      the timing decorator [PerformanceUtils.measure_time].  The reader uses
      the standard library logger, whose [warning] rejects the keyword
      [error=]; that call is modelled. *)

From Stdlib Require Import ZArith QArith Qabs Qround Lqa Lia List String Bool.
From stdpp Require Import base option list gmap strings.

Local Open Scope Z_scope.

(** ** Python exceptions and outcomes *)

Inductive exn_class : Type :=
| ValueError
| TypeError
| IndexError
| ExternalAPIError
| DataValidationError
| DatabaseError
| CacheError
| MessagingError
| DataProcessingError.

Record exn : Type := mk_exn { exn_cls : exn_class; exn_msg : string }.

Inductive outcome (A : Type) : Type :=
| Returned (a : A)
| Raised (e : exn).
Arguments Returned {A} a.
Arguments Raised {A} e.

Definition is_returned {A} (o : outcome A) : bool :=
  match o with Returned _ => true | Raised _ => false end.

(** ** Decimal arithmetic *)

Definition Qltb (x y : Q) : bool := negb (Qle_bool y x).

(** Modelled from the spec: [DataUtils.safe_decimal] ([shared/utils]) is not
    among the sources.  Section 3 of the specification fixes [base_rate] to a
    decimal with 4 fractional digits; the model quantizes to [places]
    fractional digits, ties to even, which is [Decimal.quantize]'s default. *)
Definition safe_decimal (value : Q) (places : nat) : Q :=
  let scale := Z.pow 10 (Z.of_nat places) in
  let scaled := Qmult value (inject_Z scale) in
  let lo := Qfloor scaled in
  let rest := Qminus scaled (inject_Z lo) in
  let n :=
    match Qcompare rest (1 # 2) with
    | Lt => lo
    | Gt => lo + 1
    | Eq => if Z.even lo then lo else lo + 1
    end in
  Qmake n (Z.to_pos scale).

(** ** Records of [shared.models]

    The class declarations are not among the sources; the fields are those
    the constructor calls in the collector and the processor pass, with the
    meaning section 3 of the specification gives them. *)

Record RawExchangeRateData : Type := mk_raw {
  raw_currency_code : string;
  raw_rate : Q;
  raw_source : string;
  raw_timestamp : option Z;
  raw_metadata : list (string * string)
}.

Record CollectionResult : Type := mk_collection_result {
  cr_source : string;
  cr_success : bool;
  cr_currency_count : nat;
  cr_error_message : option string;
  cr_collection_time : Z;
  cr_processing_time_ms : Z;
  cr_raw_data : list RawExchangeRateData
}.

Record ExchangeRate : Type := mk_exchange_rate {
  er_currency_code : string;
  er_currency_name : string;
  er_deal_base_rate : Q;
  er_tts : Q;
  er_ttb : Q;
  er_source : string;
  er_recorded_at : Z
}.

(** ** The world: cache, historical store, messaging sink *)

(** A row of [exchange_rate_history]. *)
Record HistoryRow : Type := mk_row {
  row_currency_code : string;
  row_currency_name : string;
  row_deal_base_rate : Q;
  row_tts : option Q;
  row_ttb : option Q;
  row_source : string;
  row_recorded_at : Z;
  row_created_at : Z
}.

(** A value of a field of a cached hash or of a rate dictionary: the text of
    a number, any other text, or Python's [None]. *)
Inductive hval : Type :=
| HNum (q : Q)
| HStr (s : string)
| HNone.

(** The hash stored under [rate:<code>]; a field that is [None] here is a
    key the hash does not have. *)
Record RateHash : Type := mk_hash {
  h_currency_name : option string;
  h_deal_base_rate : option hval;
  h_tts : option hval;
  h_ttb : option hval;
  h_source : option string;
  h_last_updated_at : option Z
}.

Definition empty_hash : RateHash := mk_hash None None None None None None.

Record CacheSlot : Type := mk_slot {
  slot_hash : RateHash;
  slot_ttl : Z;
  slot_expires_at : Z
}.

(** The event handed to [send_exchange_rate_update]. *)
Record RateEvent : Type := mk_event {
  ev_currency_code : string;
  ev_currency_name : string;
  ev_deal_base_rate : Q;
  ev_tts : option Q;
  ev_ttb : option Q;
  ev_source : string;
  ev_recorded_at : Z;
  ev_updated_at : Z
}.

Record World : Type := mk_world {
  cache : gmap string CacheSlot;
  history : list HistoryRow;
  sink : list RateEvent;
  tick : nat;
  clock : Z
}.

Definition with_cache (c : gmap string CacheSlot) (w : World) : World :=
  mk_world c (history w) (sink w) (tick w) (clock w).
Definition with_history (h : list HistoryRow) (w : World) : World :=
  mk_world (cache w) h (sink w) (tick w) (clock w).
Definition with_sink (s : list RateEvent) (w : World) : World :=
  mk_world (cache w) (history w) s (tick w) (clock w).
Definition with_clock (t : Z) (w : World) : World :=
  mk_world (cache w) (history w) (sink w) (tick w) t.
Definition next_tick (w : World) : World :=
  mk_world (cache w) (history w) (sink w) (S (tick w)) (clock w).

(** Operations that leave the process. *)
Inductive op : Type :=
| OpCacheGet (key : string)
| OpCacheSet (key : string)
| OpQueryLatest (currency_code : string)
| OpQueryDuplicates (currency_code source : string)
| OpInsert (currency_code : string)
| OpPublish (currency_code : string).

(** What an external rate provider answers. *)
Inductive adapter_reply : Type :=
| Delivered (records : list RawExchangeRateData)
| Failed (message : string).

(** The environment of a run: which external calls fail, what the providers
    answer and how long they take, the currency reference table, and whether
    the standard library logger is enabled for warnings. *)
Record Env : Type := mk_env {
  fault : nat -> op -> bool;
  provider : Z -> string -> adapter_reply;
  provider_elapsed_ms : Z -> string -> Z;
  known_currency : string -> bool;
  stdlib_warning_enabled : bool
}.

(** ** The monad of [async] code *)

Definition M (A : Type) : Type := World -> outcome A * World.

Definition ret {A} (a : A) : M A := fun w => (Returned a, w).

Definition raise {A} (e : exn) : M A := fun w => (Raised e, w).

Definition bind {A B} (m : M A) (k : A -> M B) : M B :=
  fun w =>
    match m w with
    | (Returned a, w') => k a w'
    | (Raised e, w') => (Raised e, w')
    end.

(** [try: body except Exception as e: handler e]. *)
Definition try_except {A} (body : M A) (handler : exn -> M A) : M A :=
  fun w =>
    match body w with
    | (Returned a, w') => (Returned a, w')
    | (Raised e, w') => handler e w'
    end.

Declare Scope py_scope.
Delimit Scope py_scope with py.
Notation "x <- m ;; k" := (bind m (fun x => k))
  (at level 100, m at next level, right associativity) : py_scope.
Notation "m ;; k" := (bind m (fun _ => k))
  (at level 100, right associativity) : py_scope.
Local Open Scope py_scope.

Definition utc_now : M Z := fun w => (Returned (clock w), w).

(** ** External collaborators *)

Section Model.

Context (env : Env).

(** A call that leaves the process: it takes one step of the operation
    counter and raises when the fault oracle says so. *)
Definition external {A} (o : op) (failure : exn) (effect : World -> A * World)
  : M A :=
  fun w =>
    let w1 := next_tick w in
    if fault env (tick w) o then (Raised failure, w1)
    else let '(a, w2) := effect w1 in (Returned a, w2).

Definition cache_failure : exn := mk_exn CacheError "cache unavailable".
Definition store_failure : exn := mk_exn DatabaseError "store unavailable".
Definition sink_failure : exn :=
  mk_exn MessagingError "Failed to send message to topic exchange-rates".

(** The hash a key holds at the current time: the stored hash while the
    entry has not expired, the empty hash otherwise. *)
Definition live_hash (w : World) (key : string) : RateHash :=
  match cache w !! key with
  | Some slot => if clock w <? slot_expires_at slot then slot_hash slot
                 else empty_hash
  | None => empty_hash
  end.

(** Modelled from the spec: [RedisHelper] ([shared/database]) is not among
    the sources.  Section 6: a key-value store with per-key TTL that
    supports get and set on a currency-keyed hash; section 3: an entry
    expires [ttl_seconds] after it was last written. *)
Definition get_hash (key : string) : M RateHash :=
  external (OpCacheGet key) cache_failure (fun w => (live_hash w key, w)).

Definition set_hash (key : string) (data : RateHash) (ttl : Z) : M unit :=
  external (OpCacheSet key) cache_failure
    (fun w =>
       (tt, with_cache
              (<[key := mk_slot data ttl (clock w + ttl)]> (cache w)) w)).

(** [ORDER BY recorded_at DESC LIMIT 1] over the rows given. *)
Fixpoint most_recent (rows : list HistoryRow) : option HistoryRow :=
  match rows with
  | [] => None
  | r :: rest =>
      match most_recent rest with
      | Some best =>
          if row_recorded_at r <? row_recorded_at best then Some best
          else Some r
      | None => Some r
      end
  end.

Definition rows_of_currency (rows : list HistoryRow) (currency_code : string)
  : list HistoryRow :=
  List.filter (fun r => String.eqb (row_currency_code r) currency_code) rows.

Definition select_latest (rows : list HistoryRow) (currency_code : string)
  : list HistoryRow :=
  match most_recent (rows_of_currency rows currency_code) with
  | Some r => [r]
  | None => []
  end.

(** The [WHERE] clause of the duplicate check:
    [currency_code = %s AND source = %s AND recorded_at > %s
     AND ABS(deal_base_rate - %s) < 0.01]. *)
Definition matches_duplicate (currency_code source : string) (since : Z)
    (rate : Q) (r : HistoryRow) : bool :=
  String.eqb (row_currency_code r) currency_code
  && String.eqb (row_source r) source
  && (since <? row_recorded_at r)
  && Qltb (Qabs (row_deal_base_rate r - rate)) (1 # 100).

Definition count_duplicates (rows : list HistoryRow)
    (currency_code source : string) (since : Z) (rate : Q) : nat :=
  length (List.filter (matches_duplicate currency_code source since rate) rows).

(** Modelled from the spec: [MySQLHelper] ([shared/database]) is not among
    the sources.  Section 6: the historical store supports insert, the
    most-recent-by-currency query and the recent-by-currency-and-source query
    of the duplicate check; the three queries the code sends are modelled on
    the list of rows, [SELECT COUNT( * )] answering with one row. *)
Definition execute_query_latest (currency_code : string)
  : M (list HistoryRow) :=
  external (OpQueryLatest currency_code) store_failure
    (fun w => (select_latest (history w) currency_code, w)).

Definition execute_query_count (currency_code source : string) (since : Z)
    (rate : Q) : M (list nat) :=
  external (OpQueryDuplicates currency_code source) store_failure
    (fun w =>
       ([count_duplicates (history w) currency_code source since rate], w)).

Definition execute_insert (r : HistoryRow) : M unit :=
  external (OpInsert (row_currency_code r)) store_failure
    (fun w => (tt, with_history (history w ++ [r]) w)).

(** [shared/messaging.py], [send_exchange_rate_update]: the producer tries
    Kafka, then SQS; it returns [True] once one of them took the message and
    raises [MessagingError] when none did, which is the fault of this
    operation. *)
Definition send_exchange_rate_update (event : RateEvent) : M bool :=
  external (OpPublish (ev_currency_code event)) sink_failure
    (fun w => (true, with_sink (sink w ++ [event]) w)).

(** ** The rate reader ([currency_provider.py]) *)

(** The dictionary [_get_cached_rate] and [_get_rate_from_db] return. *)
Record RateDict : Type := mk_rate_dict {
  rd_currency_code : string;
  rd_currency_name : string;
  rd_deal_base_rate : hval;
  rd_tts : hval;
  rd_ttb : hval;
  rd_source : string;
  rd_last_updated_at : option Z
}.

Record RatesSnapshot : Type := mk_snapshot {
  snap_base : string;
  snap_timestamp : Z;
  snap_rates : gmap string Q;
  snap_source : string;
  snap_cache_hit : bool;
  snap_cache_hit_ratio : Q
}.

(** [self.cache_ttl = 600] in [CurrencyProvider.__init__]. *)
Definition cache_ttl : Z := 600.

Definition rate_key (currency_code : string) : string :=
  String.append "rate:" currency_code.

(** [float(x)] on a field value. *)
Definition py_float (v : hval) : M Q :=
  match v with
  | HNum q => ret q
  | HStr s => raise (mk_exn ValueError "could not convert string to float")
  | HNone => raise (mk_exn TypeError "float() argument must be a string or a number")
  end.

(** [logger.warning(f"...", error=e)] on the standard library logger: when
    the logger is enabled for warnings the call reaches [Logger._log], which
    has no parameter [error] and raises [TypeError]; when it is not, the call
    returns before looking at its keywords. *)
Definition stdlib_warning_with_error_keyword : M unit :=
  if stdlib_warning_enabled env
  then raise (mk_exn TypeError "_log() got an unexpected keyword argument 'error'")
  else ret tt.

Definition hval_or_none (o : option hval) : hval :=
  match o with Some v => v | None => HNone end.

Definition _get_cached_rate (currency_code : string) : M (option RateDict) :=
  try_except
    (cached_data <- get_hash (rate_key currency_code) ;;
     match h_deal_base_rate cached_data with
     | Some rate =>
         ret (Some (mk_rate_dict
                      currency_code
                      (default EmptyString (h_currency_name cached_data))
                      rate
                      (hval_or_none (h_tts cached_data))
                      (hval_or_none (h_ttb cached_data))
                      (default "cache"%string (h_source cached_data))
                      (h_last_updated_at cached_data)))
     | None => ret None
     end)
    (fun e => stdlib_warning_with_error_keyword ;; ret None).

(** [str(x) if x else None] on a nullable decimal column. *)
Definition str_if_truthy (o : option Q) : hval :=
  match o with
  | Some q => if Qeq_bool q 0 then HNone else HNum q
  | None => HNone
  end.

(** [handle_database_exception] ([shared/exceptions], not among the sources)
    is only used to build the exception that is raised. *)
Definition handle_database_exception (e : exn) (operation : string) : exn :=
  mk_exn DatabaseError operation.

Definition _get_rate_from_db (currency_code : string) : M (option RateDict) :=
  try_except
    (result <- execute_query_latest currency_code ;;
     match result with
     | rate_data :: _ =>
         ret (Some (mk_rate_dict
                      (row_currency_code rate_data)
                      (row_currency_name rate_data)
                      (HNum (row_deal_base_rate rate_data))
                      (str_if_truthy (row_tts rate_data))
                      (str_if_truthy (row_ttb rate_data))
                      (row_source rate_data)
                      (Some (row_recorded_at rate_data))))
     | [] => ret None
     end)
    (fun e => raise (handle_database_exception e "get_rate_from_db")).

Definition _cache_rate (currency_code : string) (rate_data : RateDict)
  : M unit :=
  try_except
    (let cache_data :=
       mk_hash (Some (rd_currency_name rate_data))
               (Some (rd_deal_base_rate rate_data))
               (Some (rd_tts rate_data))
               (Some (rd_ttb rate_data))
               (Some (rd_source rate_data))
               (rd_last_updated_at rate_data) in
     set_hash (rate_key currency_code) cache_data cache_ttl)
    (fun e => stdlib_warning_with_error_keyword).

(** The body of the loop of [get_latest_rates], on the local variables
    [rates] and [cache_hits].  In the source one [try] covers the whole body
    and the assignment [rates[currency_code] = ...] precedes the call of
    [_cache_rate]: an exception of [_cache_rate] leaves the assignment in
    place.  Here the inner [try_except] keeps the assigned map and the outer
    one, in [lookup_loop], restores the locals the iteration started with. *)
Definition lookup_body (currency_code : string) (locals : gmap string Q * nat)
  : M (gmap string Q * nat) :=
  let '(rates, cache_hits) := locals in
  cached_rate <- _get_cached_rate currency_code ;;
  match cached_rate with
  | Some cached =>
      rate <- py_float (rd_deal_base_rate cached) ;;
      ret (<[currency_code := rate]> rates, S cache_hits)
  | None =>
      db_rate <- _get_rate_from_db currency_code ;;
      match db_rate with
      | Some found =>
          rate <- py_float (rd_deal_base_rate found) ;;
          let locals' := (<[currency_code := rate]> rates, cache_hits) in
          try_except (_cache_rate currency_code found ;; ret locals')
                     (fun e => ret locals')
      | None => ret locals
      end
  end.

Fixpoint lookup_loop (currency_codes : list string)
    (locals : gmap string Q * nat) : M (gmap string Q * nat) :=
  match currency_codes with
  | [] => ret locals
  | currency_code :: rest =>
      locals' <- try_except (lookup_body currency_code locals)
                            (fun e => ret locals) ;;
      lookup_loop rest locals'
  end.

Definition default_currency_codes : list string :=
  ["USD"; "JPY"; "EUR"; "GBP"; "CNY"]%string.

(** [currency_codes] is a list; Python's [None] default is the empty list
    here, both are replaced by the default codes. *)
Definition get_latest_rates (currency_codes : list string)
    (base_currency : string) : M RatesSnapshot :=
  try_except
    (let currency_codes :=
       match currency_codes with
       | [] => default_currency_codes
       | _ => currency_codes
       end in
     locals <- lookup_loop currency_codes (∅, 0%nat) ;;
     let '(rates, cache_hits) := locals in
     timestamp <- utc_now ;;
     ret (mk_snapshot
            base_currency
            timestamp
            rates
            (if (0 <? cache_hits)%nat then "redis_cache" else "database")
            (0 <? cache_hits)%nat
            (match currency_codes with
             | [] => 0%Q
             | _ => (Z.of_nat cache_hits # 1)
                    / (Z.of_nat (length currency_codes) # 1)
             end)))
    (fun e => raise (handle_database_exception e "get_latest_rates")).

(** ** The data collector ([data_collector.py]) *)

Record SourceConfig : Type := mk_source_config {
  src_name : string;
  src_base_url : string;
  src_api_key : string;
  src_currencies : list string;
  src_timeout : Z;
  src_priority : Z;
  src_active : bool
}.

(** [self.api_sources]: a dictionary, in insertion order. *)
Definition _initialize_api_sources (bok_api_key backup_api_key : string)
  : list (string * SourceConfig) :=
  [ ("bok",
     mk_source_config "Bank of Korea"
       "https://ecos.bok.or.kr/api/StatisticSearch" bok_api_key
       ["USD"; "JPY"; "EUR"; "GBP"; "CNY"] 15 1
       (negb (String.eqb bok_api_key EmptyString)));
    ("exchangerate_api",
     mk_source_config "ExchangeRate-API"
       "https://api.exchangerate-api.com/v4/latest/KRW" backup_api_key
       ["USD"; "JPY"; "EUR"; "GBP"; "CNY"; "AUD"; "CAD"; "CHF"] 10 2 true);
    ("fixer",
     mk_source_config "Fixer.io" "http://data.fixer.io/api/latest" EmptyString
       ["USD"; "JPY"; "EUR"; "GBP"] 10 3 true) ]%string.

(** The HTTP exchange with a provider and the parsing of its answer are not
    modelled: [provider] gives the records the adapter builds from the
    answer, or the failure of the request or of the parsing, which every
    adapter wraps in [ExternalAPIError]. *)
Definition fetch_from_provider (source_id prefix : string)
  : M (list RawExchangeRateData) :=
  fun w =>
    match provider env (clock w) source_id with
    | Delivered records => (Returned records, w)
    | Failed message =>
        (Raised (mk_exn ExternalAPIError (String.append prefix message)), w)
    end.

Definition _collect_from_bok (config : SourceConfig)
  : M (list RawExchangeRateData) :=
  if String.eqb (src_api_key config) EmptyString
  then raise (mk_exn ExternalAPIError "BOK API key not configured")
  else fetch_from_provider "bok" "BOK API request failed: ".

Definition _collect_from_exchangerate_api (config : SourceConfig)
  : M (list RawExchangeRateData) :=
  fetch_from_provider "exchangerate_api" "ExchangeRate-API request failed: ".

Definition _collect_from_fixer (config : SourceConfig)
  : M (list RawExchangeRateData) :=
  fetch_from_provider "fixer" "Fixer.io API request failed: ".

(** Modelled from the spec: [ValidationUtils.validate_currency_code]
    ([shared/utils]) is not among the sources.  Section 4.3: a record is
    rejected if its currency code is not in the known-currency set, the
    membership column of the currency reference table of section 6. *)
Definition validate_currency_code (currency_code : string) : M string :=
  if known_currency env currency_code then ret currency_code
  else raise (mk_exn DataValidationError "invalid currency code").

Definition with_timestamp (t : Z) (item : RawExchangeRateData)
  : RawExchangeRateData :=
  mk_raw (raw_currency_code item) (raw_rate item) (raw_source item) (Some t)
         (raw_metadata item).

(** The loop of [_validate_collected_data]; [continue] leaves
    [validated_data] as it is. *)
Fixpoint validate_loop (raw_data validated_data : list RawExchangeRateData)
  : M (list RawExchangeRateData) :=
  match raw_data with
  | [] => ret validated_data
  | item :: rest =>
      validated_data' <-
        try_except
          (validate_currency_code (raw_currency_code item) ;;
           let rate_value := raw_rate item in
           if Qle_bool rate_value 0 || Qltb 10000 rate_value
           then ret validated_data
           else
             item' <- match raw_timestamp item with
                      | Some _ => ret item
                      | None => now <- utc_now ;; ret (with_timestamp now item)
                      end ;;
             ret (validated_data ++ [item']))
          (fun e => ret validated_data) ;;
      validate_loop rest validated_data'
  end.

Definition _validate_collected_data (raw_data : list RawExchangeRateData)
    (source : string) : M (list RawExchangeRateData) :=
  validate_loop raw_data [].

(** The dispatch on [source_id] at the head of the [try] of
    [_collect_from_source]. *)
Definition call_adapter (source_id : string) (source_config : SourceConfig)
  : M (list RawExchangeRateData) :=
  if String.eqb source_id "bok" then _collect_from_bok source_config
  else if String.eqb source_id "exchangerate_api"
       then _collect_from_exchangerate_api source_config
  else if String.eqb source_id "fixer"
       then _collect_from_fixer source_config
  else raise (mk_exn ValueError (String.append "Unknown source: " source_id)).

(** The provider's answer takes [provider_elapsed_ms]; the clock of the world
    does not move during a run, so [end_time] is computed from it. *)
Definition _collect_from_source (source_id : string) (source_config : SourceConfig)
  : M CollectionResult :=
  start_time <- utc_now ;;
  let processing_time := provider_elapsed_ms env start_time source_id in
  let end_time := start_time + processing_time / 1000 in
  try_except
    (raw_data <- call_adapter source_id source_config ;;
     validated_data <- _validate_collected_data raw_data source_id ;;
     ret (mk_collection_result source_id true (length validated_data) None
            end_time processing_time validated_data))
    (fun e =>
       ret (mk_collection_result source_id false 0 (Some (exn_msg e))
              end_time processing_time [])).

(** [asyncio.gather( *tasks, return_exceptions=True)]: every task runs to its
    end and its outcome, result or exception, is kept at the position of the
    task.  The tasks share no state, so they are run in order. *)
Fixpoint gather {A} (tasks : list (M A)) : M (list (outcome A)) :=
  match tasks with
  | [] => ret []
  | task :: rest =>
      fun w =>
        let '(o, w1) := task w in
        match gather rest w1 with
        | (Returned os, w2) => (Returned (o :: os), w2)
        | (Raised e, w2) => (Raised e, w2)
        end
  end.

(** The loop over [enumerate(results)] of [collect_all_data]. *)
Fixpoint label_results (source_ids : list string) (i : nat)
    (results : list (outcome CollectionResult))
    (collection_results : list CollectionResult) : M (list CollectionResult) :=
  match results with
  | [] => ret collection_results
  | result :: rest =>
      source_id <- match source_ids !! i with
                   | Some s => ret s
                   | None => raise (mk_exn IndexError "list index out of range")
                   end ;;
      collection_results' <-
        match result with
        | Raised e =>
            now <- utc_now ;;
            ret (collection_results ++
                 [mk_collection_result source_id false 0 (Some (exn_msg e))
                    now 0 []])
        | Returned r => ret (collection_results ++ [r])
        end ;;
      label_results source_ids (S i) rest collection_results'
  end.

Definition active_sources (api_sources : list (string * SourceConfig))
  : list (string * SourceConfig) :=
  List.filter (fun s => src_active (snd s)) api_sources.

Definition collect_all_data (api_sources : list (string * SourceConfig))
  : M (list CollectionResult) :=
  let collection_tasks :=
    map (fun s => _collect_from_source (fst s) (snd s))
        (active_sources api_sources) in
  results <- gather collection_tasks ;;
  label_results (map fst api_sources) 0 results [].

(** ** The data processor ([data_processor.py]) *)

(** [self.batch_size = 100], [self.duplicate_check_enabled = True]. *)
Definition batch_size : nat := 100.
Definition duplicate_check_enabled : bool := true.

Definition _get_currency_name (currency_code : string) : string :=
  let currency_names : list (string * string) :=
    [ ("USD", "미국 달러"); ("JPY", "일본 엔"); ("EUR", "유럽연합 유로");
      ("GBP", "영국 파운드"); ("CNY", "중국 위안"); ("AUD", "호주 달러");
      ("CAD", "캐나다 달러"); ("CHF", "스위스 프랑"); ("HKD", "홍콩 달러");
      ("SGD", "싱가포르 달러") ]%string in
  match List.find (fun p => String.eqb (fst p) currency_code) currency_names with
  | Some p => snd p
  | None => currency_code
  end.

(** Modelled from the spec: the class [ExchangeRate] ([shared/models]) is not
    among the sources.  Section 3: [recorded_at] of a canonical rate is the
    timestamp of the origin; the constructor rejects a record without one. *)
Definition new_exchange_rate (currency_code currency_name : string)
    (deal_base_rate tts ttb : Q) (source : string) (recorded_at : option Z)
  : M ExchangeRate :=
  match recorded_at with
  | Some t =>
      ret (mk_exchange_rate currency_code currency_name deal_base_rate tts ttb
             source t)
  | None => raise (mk_exn ValueError "recorded_at: none is not an allowed value")
  end.

(** The loop of [_clean_and_transform_data]. *)
Fixpoint clean_loop (raw_data : list RawExchangeRateData) (source : string)
    (processed_data : list ExchangeRate) : M (list ExchangeRate) :=
  match raw_data with
  | [] => ret processed_data
  | raw_item :: rest =>
      processed_data' <-
        try_except
          (let base_rate := safe_decimal (raw_rate raw_item) 4 in
           let tts := (base_rate * (102 # 100))%Q in
           let ttb := (base_rate * (98 # 100))%Q in
           let currency_name := _get_currency_name (raw_currency_code raw_item) in
           exchange_rate <-
             new_exchange_rate (raw_currency_code raw_item) currency_name
               base_rate tts ttb source (raw_timestamp raw_item) ;;
           ret (processed_data ++ [exchange_rate]))
          (fun e => ret processed_data) ;;
      clean_loop rest source processed_data'
  end.

Definition _clean_and_transform_data (raw_data : list RawExchangeRateData)
    (source : string) : M (list ExchangeRate) :=
  clean_loop raw_data source [].

(** The loop of [_filter_duplicates]: an item is kept when the answer has a
    first row and its count is 0. *)
Fixpoint filter_loop (processed_data : list ExchangeRate) (one_hour_ago : Z)
    (filtered_data : list ExchangeRate) : M (list ExchangeRate) :=
  match processed_data with
  | [] => ret filtered_data
  | item :: rest =>
      result <- execute_query_count (er_currency_code item) (er_source item)
                  one_hour_ago (er_deal_base_rate item) ;;
      let filtered_data' :=
        match result with
        | count :: _ => if (count =? 0)%nat then filtered_data ++ [item]
                        else filtered_data
        | [] => filtered_data
        end in
      filter_loop rest one_hour_ago filtered_data'
  end.

Definition _filter_duplicates (processed_data : list ExchangeRate)
  : M (list ExchangeRate) :=
  match processed_data with
  | [] => ret []
  | _ =>
      try_except
        (now <- utc_now ;;
         let one_hour_ago := now - 3600 in
         filter_loop processed_data one_hour_ago [])
        (fun e => ret processed_data)
  end.

(** [float(x) if x else None]. *)
Definition float_if_truthy (q : Q) : option Q :=
  if Qeq_bool q 0 then None else Some q.

Definition row_of (item : ExchangeRate) (created_at : Z) : HistoryRow :=
  mk_row (er_currency_code item) (er_currency_name item)
         (er_deal_base_rate item) (float_if_truthy (er_tts item))
         (float_if_truthy (er_ttb item)) (er_source item)
         (er_recorded_at item) created_at.

(** [range(0, stop, step)] and [l[i:j]]. *)
Definition py_range (stop step : nat) : list nat :=
  map (fun k => k * step)%nat (seq 0 ((stop + step - 1) / step)%nat).

Definition py_slice {A} (l : list A) (i j : nat) : list A :=
  take (j - i) (drop i l).

(** The inner loop of [_save_to_database], over the items of one batch. *)
Fixpoint save_batch (batch : list ExchangeRate) (saved_count : nat) : M nat :=
  match batch with
  | [] => ret saved_count
  | item :: rest =>
      saved_count' <-
        try_except
          (now <- utc_now ;;
           execute_insert (row_of item now) ;;
           ret (S saved_count))
          (fun e => ret saved_count) ;;
      save_batch rest saved_count'
  end.

(** The outer loop, over the offsets of the batches; the pause between two
    batches ([asyncio.sleep(0.1)]) has no effect on the world. *)
Fixpoint save_batches (offsets : list nat) (processed_data : list ExchangeRate)
    (saved_count : nat) : M nat :=
  match offsets with
  | [] => ret saved_count
  | i :: rest =>
      let batch := py_slice processed_data i (i + batch_size) in
      saved_count' <- save_batch batch saved_count ;;
      save_batches rest processed_data saved_count'
  end.

Definition _save_to_database (processed_data : list ExchangeRate) : M nat :=
  match processed_data with
  | [] => ret 0%nat
  | _ =>
      try_except
        (save_batches (py_range (length processed_data) batch_size)
           processed_data 0%nat)
        (fun e => raise (mk_exn DatabaseError "Failed to save exchange rate data"))
  end.

(** [str(x) if x else ''], the text of the number or the empty text. *)
Definition str_or_empty (q : Q) : hval :=
  if Qeq_bool q 0 then HStr EmptyString else HNum q.

Definition cache_data_of (item : ExchangeRate) : RateHash :=
  mk_hash (Some (er_currency_name item))
          (Some (HNum (er_deal_base_rate item)))
          (Some (str_or_empty (er_tts item)))
          (Some (str_or_empty (er_ttb item)))
          (Some (er_source item))
          (Some (er_recorded_at item)).

Fixpoint update_cache_loop (processed_data : list ExchangeRate)
    (cache_updates : nat) : M nat :=
  match processed_data with
  | [] => ret cache_updates
  | item :: rest =>
      cache_updates' <-
        try_except
          (let cache_key := rate_key (er_currency_code item) in
           set_hash cache_key (cache_data_of item) 3600 ;;
           ret (S cache_updates))
          (fun e => ret cache_updates) ;;
      update_cache_loop rest cache_updates'
  end.

Definition _update_cache (processed_data : list ExchangeRate) : M unit :=
  try_except (update_cache_loop processed_data 0%nat ;; ret tt)
             (fun e => ret tt).

Definition event_of (item : ExchangeRate) (updated_at : Z) : RateEvent :=
  mk_event (er_currency_code item) (er_currency_name item)
           (er_deal_base_rate item) (float_if_truthy (er_tts item))
           (float_if_truthy (er_ttb item)) (er_source item)
           (er_recorded_at item) updated_at.

Fixpoint send_events_loop (processed_data : list ExchangeRate)
    (events_sent : nat) : M nat :=
  match processed_data with
  | [] => ret events_sent
  | item :: rest =>
      events_sent' <-
        try_except
          (now <- utc_now ;;
           success <- send_exchange_rate_update (event_of item now) ;;
           ret (if success : bool then S events_sent else events_sent))
          (fun e => ret events_sent) ;;
      send_events_loop rest events_sent'
  end.

Definition _send_update_events (processed_data : list ExchangeRate) : M unit :=
  try_except (send_events_loop processed_data 0%nat ;; ret tt)
             (fun e => ret tt).

Definition is_empty {A} (l : list A) : bool :=
  match l with [] => true | _ => false end.

Definition process_exchange_rate_data (collection_result : CollectionResult)
  : M unit :=
  if negb (cr_success collection_result)
     || is_empty (cr_raw_data collection_result)
  then ret tt
  else
    try_except
      (processed_data <- _clean_and_transform_data
                           (cr_raw_data collection_result)
                           (cr_source collection_result) ;;
       if is_empty processed_data then ret tt
       else
         processed_data <- (if duplicate_check_enabled
                            then _filter_duplicates processed_data
                            else ret processed_data) ;;
         saved_count <- _save_to_database processed_data ;;
         _update_cache processed_data ;;
         _send_update_events processed_data ;;
         ret tt)
      (fun e =>
         raise (mk_exn DataProcessingError
                  (String.append "Failed to process data from "
                                 (cr_source collection_result)))).

(** ** The batch driver ([data-ingestor/main.py], [run_single_collection]) *)

Fixpoint process_results (collection_results : list CollectionResult) : M unit :=
  match collection_results with
  | [] => ret tt
  | result :: rest =>
      (if cr_success result then process_exchange_rate_data result
       else ret tt) ;;
      process_results rest
  end.

Definition run_single_collection (api_sources : list (string * SourceConfig))
  : M unit :=
  collection_results <- collect_all_data api_sources ;;
  process_results collection_results.

End Model.

(** ** Functions the properties are stated with *)

(** The checks of [_validate_collected_data] on one record. *)
Definition passes_validation (env : Env) (item : RawExchangeRateData) : bool :=
  known_currency env (raw_currency_code item)
  && negb (Qle_bool (raw_rate item) 0 || Qltb 10000 (raw_rate item)).

(** The timestamp check of [_validate_collected_data]. *)
Definition backfill (now : Z) (item : RawExchangeRateData) : RawExchangeRateData :=
  match raw_timestamp item with
  | Some _ => item
  | None => with_timestamp now item
  end.

(** The canonical rate the cleaning builds from a raw record and its
    timestamp. *)
Definition canonical (source : string) (item : RawExchangeRateData)
    (recorded_at : Z) : ExchangeRate :=
  let base_rate := safe_decimal (raw_rate item) 4 in
  mk_exchange_rate (raw_currency_code item)
    (_get_currency_name (raw_currency_code item))
    base_rate (base_rate * (102 # 100))%Q (base_rate * (98 # 100))%Q
    source recorded_at.

Definition canonical_of (source : string) (item : RawExchangeRateData)
  : option ExchangeRate :=
  match raw_timestamp item with
  | Some t => Some (canonical source item t)
  | None => None
  end.

(** A run used to exercise the properties: no external call fails, the
    provider [exchangerate_api] delivers one USD quote of 1350.25, [fixer]
    one EUR quote, the Bank of Korea does not answer, and the reference table
    knows the ten currencies of [_get_currency_name]. *)
Definition sample_known (currency_code : string) : bool :=
  existsb (String.eqb currency_code)
    ["USD"; "JPY"; "EUR"; "GBP"; "CNY"; "AUD"; "CAD"; "CHF"; "HKD"; "SGD"]%string.

Definition sample_quote (rate : Q) : RawExchangeRateData :=
  mk_raw "USD" rate "exchangerate_api" None [].

Definition sample_provider (now : Z) (source_id : string) : adapter_reply :=
  if String.eqb source_id "exchangerate_api"
  then Delivered [sample_quote (135025 # 100)]
  else if String.eqb source_id "fixer"
  then Delivered [mk_raw "EUR" (14505 # 10) "fixer" (Some now) []]
  else Failed "connection refused".

Definition sample_env : Env :=
  mk_env (fun _ _ => false) sample_provider (fun _ _ => 120) sample_known true.

Definition sample_world : World := mk_world ∅ [] [] 0 1700000000.

(** The rows a sequence of inserts leaves in the store when the first of
    them is operation [t]: the rows of the items whose insert does not
    fail. *)
Fixpoint written_rows (env : Env) (t : nat) (now : Z)
    (items : list ExchangeRate) : list HistoryRow :=
  match items with
  | [] => []
  | item :: rest =>
      if fault env t (OpInsert (er_currency_code item))
      then written_rows env (S t) now rest
      else row_of item now :: written_rows env (S t) now rest
  end.

(** The batches [_save_to_database] cuts its input into. *)
Definition batches_of (records : list ExchangeRate) : list (list ExchangeRate) :=
  map (fun i => py_slice records i (i + batch_size))
      (py_range (length records) batch_size).

(** The world after the inserts of [items], [rows] of which were written. *)
Definition after_inserts (w : World) (items : list ExchangeRate)
    (rows : list HistoryRow) : World :=
  mk_world (cache w) (history w ++ rows) (sink w)
           (tick w + length items) (clock w).

(** The sample run, except that exactly the external call number [k]
    fails. *)
Definition failing_at (k : nat) : Env :=
  mk_env (fun t _ => (t =? k)%nat) (provider sample_env)
         (provider_elapsed_ms sample_env) sample_known true.

(** The decision of [_filter_duplicates] on one candidate: the duplicate
    check counts at least one row. *)
Definition has_recent_duplicate (rows : list HistoryRow) (now : Z)
    (item : ExchangeRate) : bool :=
  negb (count_duplicates rows (er_currency_code item) (er_source item)
          (now - 3600) (er_deal_base_rate item) =? 0)%nat.


(** The sample world after one USD rate of 1350.25 was stored. *)
Definition sample_usd_rate : ExchangeRate :=
  canonical "exchangerate_api" (sample_quote (135025 # 100)) 1700000000.

Definition sample_world_with_usd : World :=
  mk_world ∅ [row_of sample_usd_rate 1700000000] [] 0 1700000300.

(** What [_collect_from_source] makes of the outcome of the adapter call. *)
Definition source_outcome (env : Env) (w : World) (source_id : string)
    (source_config : SourceConfig) : CollectionResult :=
  let processing_time := provider_elapsed_ms env (clock w) source_id in
  let end_time := clock w + processing_time / 1000 in
  match fst (call_adapter env source_id source_config w) with
  | Returned raw_data =>
      let validated :=
        map (backfill (clock w)) (List.filter (passes_validation env) raw_data) in
      mk_collection_result source_id true (length validated) None end_time
        processing_time validated
  | Raised e =>
      mk_collection_result source_id false 0 (Some (exn_msg e)) end_time
        processing_time []
  end.


Definition same_store (w w' : World) : Prop :=
  history w' = history w /\ sink w' = sink w /\ clock w' = clock w.

(** A slot written by the synchronizer at time [now] for [item]. *)
Definition synchronized_slot (now : Z) (item : ExchangeRate) : CacheSlot :=
  mk_slot (cache_data_of item) 3600 (now + 3600).

(** The world after [n] external calls that changed nothing. *)
Definition after_queries (w : World) (n : nat) : World :=
  mk_world (cache w) (history w) (sink w) (tick w + n) (clock w).

(** The rate the cache holds for a currency at the current time, when the
    entry is live and its [deal_base_rate] is the text of a number. *)
Definition cached_rate (w : World) (currency_code : string) : option Q :=
  match h_deal_base_rate (live_hash w (rate_key currency_code)) with
  | Some (HNum q) => Some q
  | _ => None
  end.

(** The cache has no live entry with a [deal_base_rate] for the currency. *)
Definition cache_misses (w : World) (currency_code : string) : Prop :=
  h_deal_base_rate (live_hash w (rate_key currency_code)) = None.

(** The most recent row of a currency in the historical store. *)
Definition latest_row (w : World) (currency_code : string) : option HistoryRow :=
  most_recent (rows_of_currency (history w) currency_code).

(** What one currency resolves to in a world: the live cached rate if the
    cache has one, the rate of the most recent row of the store if the cache
    has no [deal_base_rate] for it, nothing otherwise. *)
Definition resolves_to (w : World) (currency_code : string) : option Q :=
  match h_deal_base_rate (live_hash w (rate_key currency_code)) with
  | Some (HNum q) => Some q
  | Some _ => None
  | None =>
      match latest_row w currency_code with
      | Some row => Some (row_deal_base_rate row)
      | None => None
      end
  end.

(** No cache read and no store query for this currency ever fails. *)
Definition lookups_succeed (env : Env) (currency_code : string) : Prop :=
  forall t,
    fault env t (OpCacheGet (rate_key currency_code)) = false
    /\ fault env t (OpQueryLatest currency_code) = false.

(** The dictionary [_get_rate_from_db] builds from a row, and the hash
    [_cache_rate] stores for it. *)
Definition dict_of_row (rate_data : HistoryRow) : RateDict :=
  mk_rate_dict (row_currency_code rate_data) (row_currency_name rate_data)
    (HNum (row_deal_base_rate rate_data)) (str_if_truthy (row_tts rate_data))
    (str_if_truthy (row_ttb rate_data)) (row_source rate_data)
    (Some (row_recorded_at rate_data)).

Definition hash_of_dict (rate_data : RateDict) : RateHash :=
  mk_hash (Some (rd_currency_name rate_data))
          (Some (rd_deal_base_rate rate_data))
          (Some (rd_tts rate_data)) (Some (rd_ttb rate_data))
          (Some (rd_source rate_data)) (rd_last_updated_at rate_data).

(** One iteration of the loop of [get_latest_rates]. *)
Definition lookup_step (env : Env) (currency_code : string)
    (locals : gmap string Q * nat) : M (gmap string Q * nat) :=
  try_except (lookup_body env currency_code locals) (fun e => ret locals).

(** The world after the reader filled the cache for [currency_code] from
    [row], [w0] being the world just before the write. *)
Definition filled (w0 : World) (currency_code : string) (row : HistoryRow)
  : World :=
  with_cache
    (<[rate_key currency_code
       := mk_slot (hash_of_dict (dict_of_row row)) cache_ttl
            (clock w0 + cache_ttl)]> (cache w0))
    (next_tick w0).

(** [v] is a rate the world holds for the currency: the live cached rate,
    or the rate of the most recent row of the store. *)
Definition known_rate (w : World) (currency_code : string) (v : Q) : Prop :=
  cached_rate w currency_code = Some v
  \/ exists row, latest_row w currency_code = Some row
                 /\ row_deal_base_rate row = v.

(** What one iteration of the loop of [get_latest_rates] for [c] does to the
    locals and to the world. *)
Definition step_relates (env : Env) (c : string) (rates : gmap string Q)
    (hits : nat) (w : World) (rates' : gmap string Q) (hits' : nat)
    (w' : World) : Prop :=
  same_store w w'
  /\ (forall k, k <> rate_key c -> cache w' !! k = cache w !! k)
  /\ (forall c', c' <> c \/ lookups_succeed env c ->
                 resolves_to w' c' = resolves_to w c')
  /\ (forall c' v, known_rate w' c' v -> known_rate w c' v)
  /\ (forall c' q, cached_rate w c' = Some q ->
                   exists q', cached_rate w' c' = Some q')
  /\ (rates' = rates
      \/ exists v, known_rate w c v /\ rates' = <[c := v]> rates)
  /\ (lookups_succeed env c ->
      forall v, resolves_to w c = Some v -> rates' = <[c := v]> rates)
  /\ ((hits' = hits /\ (cached_rate w c = None
                        \/ exists t, fault env t (OpCacheGet (rate_key c)) = true))
      \/ (hits' = S hits /\ exists q, cached_rate w c = Some q))
  /\ ((forall t o, fault env t o = false) ->
      cache_misses w c ->
      forall row, latest_row w c = Some row ->
        cache w' !! rate_key c
        = Some (mk_slot (hash_of_dict (dict_of_row row)) cache_ttl
                  (clock w + cache_ttl)))
  /\ ((forall t o, fault env t o = false) ->
      forall q, cached_rate w c = Some q -> cache w' = cache w).

(** What the whole loop of [get_latest_rates] over [codes] does. *)
Definition loop_relates (env : Env) (codes : list string)
    (rates : gmap string Q) (hits : nat) (w : World)
    (rates' : gmap string Q) (hits' : nat) (w' : World) : Prop :=
  same_store w w'
  /\ (forall d, lookups_succeed env d \/ ~ In d codes ->
                resolves_to w' d = resolves_to w d)
  /\ (forall d v, known_rate w' d v -> known_rate w d v)
  /\ (forall d q, cached_rate w d = Some q -> exists q', cached_rate w' d = Some q')
  /\ (forall d v, rates' !! d = Some v ->
                  rates !! d = Some v \/ (In d codes /\ known_rate w d v))
  /\ (forall d v, lookups_succeed env d -> resolves_to w d = Some v ->
                  In d codes \/ rates !! d = Some v -> rates' !! d = Some v)
  /\ (hits <= hits')%nat
  /\ (forall d, In d codes ->
                (forall t, fault env t (OpCacheGet (rate_key d)) = false) ->
                (exists q, cached_rate w d = Some q) -> (hits < hits')%nat)
  /\ (NoDup codes -> (forall d, In d codes -> cached_rate w d = None) ->
      hits' = hits)
  /\ ((forall t o, fault env t o = false) ->
      forall d q, cached_rate w d = Some q ->
                  cache w' !! rate_key d = cache w !! rate_key d)
  /\ ((forall t o, fault env t o = false) ->
      forall d row, In d codes -> cache_misses w d ->
                    latest_row w d = Some row ->
        cache w' !! rate_key d
        = Some (mk_slot (hash_of_dict (dict_of_row row)) cache_ttl
                  (clock w + cache_ttl))).

(** The currencies a request is about. *)
Definition requested (currency_codes : list string) : list string :=
  match currency_codes with
  | [] => default_currency_codes
  | _ => currency_codes
  end.

(** Two worlds that differ by the operation counter only. *)
Definition only_ticks (w w' : World) : Prop :=
  cache w' = cache w /\ history w' = history w /\ sink w' = sink w
  /\ clock w' = clock w.

(** The snapshot [get_latest_rates] builds from the locals its loop ends
    with. *)
Definition snapshot_of (base : string) (codes : list string)
    (rates : gmap string Q) (hits : nat) (w' : World) : RatesSnapshot :=
  mk_snapshot base (clock w') rates
    (if (0 <? hits)%nat then "redis_cache" else "database")
    (0 <? hits)%nat
    (match requested codes with
     | [] => 0%Q
     | _ => ((Z.of_nat hits # 1) / (Z.of_nat (length (requested codes)) # 1))%Q
     end).





(** ** Tactics *)

Ltac run_monad :=
  unfold bind, ret, raise, try_except, utc_now, external in *; simpl in *.

Ltac ticks_only := unfold only_ticks; cbn; repeat split.

(** * Further functions the properties below are stated with *)

(** ** The processing pipeline as a whole *)

(** The events a sequence of publications leaves in the sink when the first
    of them is operation [t]: the events of the items whose publication does
    not fail. *)
Fixpoint published_events (env : Env) (t : nat) (now : Z)
    (items : list ExchangeRate) : list RateEvent :=
  match items with
  | [] => []
  | item :: rest =>
      if fault env t (OpPublish (er_currency_code item))
      then published_events env (S t) now rest
      else event_of item now :: published_events env (S t) now rest
  end.

(** The cache after a sequence of writes of the synchronizer, the first of
    them being operation [t]. *)
Fixpoint synchronized_cache (env : Env) (t : nat) (now : Z)
    (items : list ExchangeRate) (c : gmap string CacheSlot)
  : gmap string CacheSlot :=
  match items with
  | [] => c
  | item :: rest =>
      synchronized_cache env (S t) now rest
        (if fault env t (OpCacheSet (rate_key (er_currency_code item)))
         then c
         else <[rate_key (er_currency_code item)
                := synchronized_slot now item]> c)
  end.

(** The position of the first duplicate look-up that fails, the first
    look-up being operation [t]. *)
Fixpoint first_failed_lookup (env : Env) (t : nat) (items : list ExchangeRate)
  : option nat :=
  match items with
  | [] => None
  | item :: rest =>
      if fault env t (OpQueryDuplicates (er_currency_code item) (er_source item))
      then Some 0%nat
      else option_map S (first_failed_lookup env (S t) rest)
  end.

(** The candidates without a recent near row in the store. *)
Definition without_duplicates (w : World) (items : list ExchangeRate)
  : list ExchangeRate :=
  List.filter (fun item => negb (has_recent_duplicate (history w) (clock w) item))
              items.

(** What [_filter_duplicates] returns, and the number of look-ups it makes. *)
Definition deduplicated (env : Env) (w : World) (items : list ExchangeRate)
  : list ExchangeRate :=
  match first_failed_lookup env (tick w) items with
  | Some _ => items
  | None => without_duplicates w items
  end.

Definition lookups_made (env : Env) (w : World) (items : list ExchangeRate)
  : nat :=
  match first_failed_lookup env (tick w) items with
  | Some k => S k
  | None => length items
  end.

(** The last item of a currency in a list. *)
Definition last_of_currency (currency_code : string) (items : list ExchangeRate)
  : option ExchangeRate :=
  List.find (fun item => String.eqb (er_currency_code item) currency_code)
            (rev items).

(** The duplicate look-up of the candidate at position [k] fails, the first
    look-up being operation [t]. *)
Definition lookup_fails_at (env : Env) (t : nat) (items : list ExchangeRate)
    (k : nat) : Prop :=
  exists item,
    items !! k = Some item
    /\ fault env (t + k)
         (OpQueryDuplicates (er_currency_code item) (er_source item)) = true.

(** The world [process_exchange_rate_data] leaves when it goes through all
    its stages on the cleaned records [cleaned]. *)
Definition processed_world (env : Env) (w : World) (cleaned : list ExchangeRate)
  : World :=
  let kept := deduplicated env w cleaned in
  let t1 := (tick w + lookups_made env w cleaned)%nat in
  let t2 := (t1 + length kept)%nat in
  let t3 := (t2 + length kept)%nat in
  mk_world (synchronized_cache env t2 (clock w) kept (cache w))
           (history w ++ written_rows env t1 (clock w) kept)
           (sink w ++ published_events env t3 (clock w) kept)
           (t3 + length kept)%nat
           (clock w).

(** No external call of the given kind ever fails. *)
Definition inserts_succeed (env : Env) : Prop :=
  forall t c, fault env t (OpInsert c) = false.
Definition cache_writes_succeed (env : Env) : Prop :=
  forall t k, fault env t (OpCacheSet k) = false.
Definition publications_succeed (env : Env) : Prop :=
  forall t c, fault env t (OpPublish c) = false.
Definition duplicate_lookups_succeed (env : Env) : Prop :=
  forall t c s, fault env t (OpQueryDuplicates c s) = false.

(** The sample run, except that every insert into the store fails. *)
Definition store_rejects_inserts : Env :=
  mk_env (fun _ o => match o with OpInsert _ => true | _ => false end)
         (provider sample_env) (provider_elapsed_ms sample_env) sample_known
         true.

(** The records of a collection result that go on to persistence when every
    external call succeeds: cleaned, then without a recent near row. *)
Definition accepted_rates (w : World) (cr : CollectionResult)
  : list ExchangeRate :=
  without_duplicates w (omap (canonical_of (cr_source cr)) (cr_raw_data cr)).

Definition no_fault (env : Env) : Prop := forall t o, fault env t o = false.

(** ** The reader under partial failure *)

(** Every read of the cache entry of a currency fails. *)
Definition cache_reads_fail (env : Env) (currency_code : string) : Prop :=
  forall t, fault env t (OpCacheGet (rate_key currency_code)) = true.

Definition cache_reads_succeed (env : Env) (currency_code : string) : Prop :=
  forall t, fault env t (OpCacheGet (rate_key currency_code)) = false.

Definition store_queries_succeed (env : Env) (currency_code : string) : Prop :=
  forall t, fault env t (OpQueryLatest currency_code) = false.

(** The sample run with the cache unreachable for reads, the standard
    library logger enabled for warnings or not. *)
Definition cache_down_env (warnings : bool) : Env :=
  mk_env (fun _ o => match o with OpCacheGet _ => true | _ => false end)
         (provider sample_env) (provider_elapsed_ms sample_env) sample_known
         warnings.

(** The sample run with the store unreachable for queries. *)
Definition store_down_env : Env :=
  mk_env (fun _ o => match o with OpQueryLatest _ => true | _ => false end)
         (provider sample_env) (provider_elapsed_ms sample_env) sample_known
         true.

(** The sample world with a live cache entry for USD and an empty store. *)
Definition sample_world_cached : World :=
  mk_world {[ rate_key "USD" := synchronized_slot 1700000000 sample_usd_rate ]}
           [] [] 0 1700000300.


(** ** The answers of the rate providers

    What the three adapters of [data_collector.py] do with the decoded answer
    of their provider.  [now] is the clock, which [DateTimeUtils.utc_now()]
    reads for each record.  A JSON object is the list of its members, in
    their order, with distinct names.  The values of the metadata of a record
    are kept as text, [None] for a member the answer does not have. *)

(** A member of the object [rates]: a JSON number, which Python decodes to
    an [int] or a [float], a truth value, or a value of another type, of
    which only the name of the Python type matters. *)
Inductive json_value : Type :=
| JInt (z : Z)
| JFloat (q : Q)
| JBool (b : bool)
| JOther (python_type : string).

Definition type_name (v : json_value) : string :=
  match v with
  | JInt _ => "int"
  | JFloat _ => "float"
  | JBool _ => "bool"
  | JOther python_type => python_type
  end.

(** The value Python's arithmetic and comparisons give to a member. *)
Definition number_of (v : json_value) : option Q :=
  match v with
  | JInt z => Some (inject_Z z)
  | JFloat q => Some q
  | JBool b => Some (if b then 1 else 0)%Q
  | JOther _ => None
  end.

(** The answer of ExchangeRate-API or of Fixer: [data["rates"]] when
    ["rates" in data], and the text of [data.get("base")] and of
    [data.get("date")]. *)
Record RatesAnswer : Type := mk_rates_answer {
  ans_rates : option (list (string * json_value));
  ans_base : option string;
  ans_date : option string
}.

(** An exchange with a provider: the decoded answer, or the text of the
    exception that [session.get], [raise_for_status] or [response.json]
    raised. *)
Inductive http_exchange (A : Type) : Type :=
| Answered (data : A)
| Refused (message : string).
Arguments Answered {A} data.
Arguments Refused {A} message.

(** The [try] of an adapter: [except Exception as e] turns every exception
    into [ExternalAPIError], whose message ends in [str(e)]. *)
Definition reply_of {A} (records : A -> outcome (list RawExchangeRateData))
    (exchange : http_exchange A) : adapter_reply :=
  match exchange with
  | Refused message => Failed message
  | Answered data =>
      match records data with
      | Returned raw_data => Delivered raw_data
      | Raised e => Failed (exn_msg e)
      end
  end.

Definition in_currencies (config : SourceConfig) (currency_code : string)
  : bool :=
  existsb (String.eqb currency_code) (src_currencies config).

Definition text_or_none (o : option string) : string :=
  match o with Some s => s | None => "None"%string end.

(** [rate > 0] on a member that is not a number. *)
Definition unorderable (v : json_value) : exn :=
  mk_exn TypeError
    (String.append "'>' not supported between instances of '"
       (String.append (type_name v) "' and 'int'")).

(** [krw_to_eur / eur_rate] on a [krw_to_eur] that is not a number. *)
Definition undividable (v by_value : json_value) : exn :=
  mk_exn TypeError
    (String.append "unsupported operand type(s) for /: '"
       (String.append (type_name v)
          (String.append "' and '" (String.append (type_name by_value) "'")))).

(** The loop over [data["rates"].items()] of
    [_collect_from_exchangerate_api]. *)
Fixpoint exchangerate_api_loop (config : SourceConfig) (now : Z)
    (data : RatesAnswer) (items : list (string * json_value))
    (raw_data : list RawExchangeRateData)
  : outcome (list RawExchangeRateData) :=
  match items with
  | [] => Returned raw_data
  | (currency_code, rate) :: rest =>
      if in_currencies config currency_code
      then
        match number_of rate with
        | None => Raised (unorderable rate)
        | Some r =>
            let krw_rate := (if Qltb 0 r then 1 / r else 0)%Q in
            exchangerate_api_loop config now data rest
              (raw_data ++
               [mk_raw currency_code krw_rate "exchangerate_api" (Some now)
                  [("base_currency",
                    match ans_base data with Some b => b | None => "KRW" end);
                   ("date", text_or_none (ans_date data))]%string])
        end
      else exchangerate_api_loop config now data rest raw_data
  end.

(** The body of the [with] of [_collect_from_exchangerate_api]. *)
Definition exchangerate_api_records (config : SourceConfig) (now : Z)
    (data : RatesAnswer) : outcome (list RawExchangeRateData) :=
  match ans_rates data with
  | Some items => exchangerate_api_loop config now data items []
  | None => Returned []
  end.

(** [data["rates"][name]] and [name in data["rates"]]. *)
Definition member (name : string) (items : list (string * json_value))
  : option json_value :=
  option_map snd (List.find (fun entry => String.eqb (fst entry) name) items).

(** [krw_to_eur / eur_rate if eur_rate > 0 else 0]. *)
Definition via_eur (krw_to_eur eur_rate : json_value) : outcome Q :=
  match number_of eur_rate with
  | None => Raised (unorderable eur_rate)
  | Some e =>
      if Qltb 0 e
      then match number_of krw_to_eur with
           | Some k => Returned (k / e)%Q
           | None => Raised (undividable krw_to_eur eur_rate)
           end
      else Returned 0%Q
  end.

(** The loop over [data["rates"].items()] of [_collect_from_fixer]. *)
Fixpoint fixer_loop (config : SourceConfig) (now : Z) (data : RatesAnswer)
    (krw_to_eur : json_value) (items : list (string * json_value))
    (raw_data : list RawExchangeRateData)
  : outcome (list RawExchangeRateData) :=
  match items with
  | [] => Returned raw_data
  | (currency_code, eur_rate) :: rest =>
      if in_currencies config currency_code
         && negb (String.eqb currency_code "KRW")
      then
        match via_eur krw_to_eur eur_rate with
        | Raised e => Raised e
        | Returned krw_rate =>
            fixer_loop config now data krw_to_eur rest
              (raw_data ++
               [mk_raw currency_code krw_rate "fixer" (Some now)
                  [("base_currency", "EUR");
                   ("date", text_or_none (ans_date data));
                   ("via_eur", "True")]%string])
        end
      else fixer_loop config now data krw_to_eur rest raw_data
  end.

(** The body of the [with] of [_collect_from_fixer]. *)
Definition fixer_records (config : SourceConfig) (now : Z) (data : RatesAnswer)
  : outcome (list RawExchangeRateData) :=
  match ans_rates data with
  | Some items =>
      match member "KRW" items with
      | Some krw_to_eur => fixer_loop config now data krw_to_eur items []
      | None => Returned []
      end
  | None => Returned []
  end.

(** [needle in haystack] on two texts. *)
Fixpoint contains (needle haystack : string) : bool :=
  String.prefix needle haystack
  || match haystack with
     | EmptyString => false
     | String _ rest => contains needle rest
     end.

(** [currency_mapping] of [_parse_bok_currency_code], in insertion order. *)
Definition currency_mapping : list (string * string) :=
  [ ("미국", "USD"); ("일본", "JPY"); ("유럽연합", "EUR"); ("영국", "GBP");
    ("중국", "CNY") ]%string.

Definition _parse_bok_currency_code (stat_name : string) : option string :=
  option_map snd
    (List.find (fun entry => contains (fst entry) stat_name) currency_mapping).

(** A row of [data["StatisticSearch"]["row"]].  [STAT_NAME] is absent, null
    or a text; [DATA_VALUE], which the Bank of Korea sends as text, is
    absent, or null, the text of a number or another text; the two other
    members are kept as text. *)
Record BokRow : Type := mk_bok_row {
  bok_stat_name : option (option string);
  bok_data_value : option hval;
  bok_stat_code : option string;
  bok_unit_name : option string
}.

(** The truth value of [rate_value]. *)
Definition truthy (v : option hval) : bool :=
  match v with
  | Some (HNum _) => true
  | Some (HStr s) => negb (String.eqb s EmptyString)
  | Some HNone | None => false
  end.

(** The loop over the rows of [_collect_from_bok].  A null [STAT_NAME] makes
    [country in stat_name] raise; [float] is applied only to a value that is
    true, hence a text. *)
Fixpoint bok_loop (now : Z) (rows : list BokRow)
    (raw_data : list RawExchangeRateData)
  : outcome (list RawExchangeRateData) :=
  match rows with
  | [] => Returned raw_data
  | item :: rest =>
      match bok_stat_name item with
      | Some None =>
          Raised (mk_exn TypeError "argument of type 'NoneType' is not iterable")
      | stat_name =>
          let currency_code :=
            _parse_bok_currency_code
              (match stat_name with Some (Some s) => s | _ => EmptyString end) in
          let rate_value := bok_data_value item in
          match currency_code with
          | Some code =>
              if truthy rate_value
              then
                match rate_value with
                | Some (HNum rate) =>
                    bok_loop now rest
                      (raw_data ++
                       [mk_raw code rate "bok" (Some now)
                          [("stat_code", text_or_none (bok_stat_code item));
                           ("unit", text_or_none (bok_unit_name item));
                           ("original_name",
                            match stat_name with
                            | Some (Some s) => s
                            | _ => "None"
                            end)]%string])
                | _ =>
                    Raised (mk_exn ValueError "could not convert string to float")
                end
              else bok_loop now rest raw_data
          | None => bok_loop now rest raw_data
          end
      end
  end.

(** The answer of the Bank of Korea: [data["StatisticSearch"]["row"]] when
    the answer has both members. *)
Definition bok_records (now : Z) (data : option (list BokRow))
  : outcome (list RawExchangeRateData) :=
  match data with
  | Some rows => bok_loop now rows []
  | None => Returned []
  end.

(** The configuration of a source in [self.api_sources]. *)
Definition configured (bok_api_key backup_api_key source_id : string)
  : option SourceConfig :=
  option_map snd
    (List.find (fun entry => String.eqb (fst entry) source_id)
       (_initialize_api_sources bok_api_key backup_api_key)).


(** [needle] occurs in [haystack]. *)
Definition occurs_in (needle haystack : string) : Prop :=
  exists before after,
    haystack = String.append before (String.append needle after).

(** A run in which the three providers answer as given; no external call
    fails and the reference table is that of the sample run. *)
Definition sample_rates_config : SourceConfig :=
  mk_source_config "ExchangeRate-API"
    "https://api.exchangerate-api.com/v4/latest/KRW" EmptyString
    ["USD"; "JPY"; "EUR"; "GBP"; "CNY"; "AUD"; "CAD"; "CHF"]%string 10 2 true.

Definition sample_fixer_config : SourceConfig :=
  mk_source_config "Fixer.io" "http://data.fixer.io/api/latest" EmptyString
    ["USD"; "JPY"; "EUR"; "GBP"]%string 10 3 true.


Definition answering_env (bok : http_exchange (option (list BokRow)))
    (rates fixer : http_exchange RatesAnswer) : Env :=
  mk_env (fun _ _ => false)
         (fun now source_id =>
            if String.eqb source_id "bok"
            then reply_of (bok_records now) bok
            else if String.eqb source_id "exchangerate_api"
            then reply_of (exchangerate_api_records sample_rates_config now) rates
            else reply_of (fixer_records sample_fixer_config now) fixer)
         (fun _ _ => 120) sample_known true.



(** An answer whose quote of the euro is a text. *)
Definition malformed_rates : list (string * json_value) :=
  [ ("USD", JFloat (74 # 100000)); ("EUR", JOther "str"); ("KRW", JInt 1) ]%string.

Definition malformed_answer : RatesAnswer :=
  mk_rates_answer (Some malformed_rates) (Some "KRW"%string)
                  (Some "2024-01-01"%string).





(** ** The batch driver as a CronJob ([data-ingestor/main.py],
    [run_kubernetes_cronjob])

    [sys.exit] raises [SystemExit], which [except Exception] does not
    catch: the computation returns the exit code of the process.
    [initialize_services], which opens the connections, is a parameter;
    [cleanup_services] swallows its exceptions and does not touch the store,
    the cache or the sink. *)

Section CronJob.
Context (env : Env) (initialize_services : M unit).



End CronJob.


(** The sample run with every call to the store, the cache and the sink
    failing. *)
Definition all_down_env : Env :=
  mk_env (fun _ _ => true) (provider sample_env)
         (provider_elapsed_ms sample_env) sample_known true.

(** ** Retention ([data_processor.py], [cleanup_old_data])

    [DELETE FROM exchange_rate_history WHERE recorded_at < %s] is one more
    call to the store; [delete_fails] tells, by the operation counter,
    whether it raises.  A statement that raises deletes nothing. *)

Section Retention.
Context (delete_fails : nat -> bool).

Definition retained (cutoff_date : Z) (r : HistoryRow) : bool :=
  negb (row_recorded_at r <? cutoff_date).

(** [execute_update] of the [DELETE]: the number of rows deleted. *)
Definition execute_delete (cutoff_date : Z) : M nat :=
  fun w =>
    let w1 := next_tick w in
    if delete_fails (tick w) then (Raised store_failure, w1)
    else
      (Returned
         (length (List.filter (fun r => negb (retained cutoff_date r))
                              (history w1))),
       with_history (List.filter (retained cutoff_date) (history w1)) w1).

(** [timedelta(days=retention_days)] in seconds. *)
Definition days (n : Z) : Z := n * 86400.

Definition cleanup_old_data (retention_days : Z) : M unit :=
  try_except
    (now <- utc_now ;;
     let cutoff_date := now - days retention_days in
     deleted_count <- execute_delete cutoff_date ;;
     ret tt)
    (fun e =>
       raise (mk_exn DatabaseError "Failed to cleanup old exchange rate data")).

End Retention.

(** ** The message producer ([shared/messaging.py], [MessageProducer])

    The refinement of the sink behind [send_exchange_rate_update]: the two
    brokers, each with the messages it took, and the producer with its two
    clients.  A dictionary is the list of its entries, values as text.  What
    the outside decides is the setup: whether the two client libraries were
    imported, what the configuration holds, whether the clients can be built
    and, by the number of the send, whether a broker refuses the message,
    and what the clock and [uuid.uuid4] give.  The partition, which
    [send_message] hands to Kafka as it is, is left out. *)

Record MessagingSetup : Type := mk_messaging_setup {
  KAFKA_AVAILABLE : bool;
  SQS_AVAILABLE : bool;
  config_loads : bool;
  kafka_bootstrap_servers : string;
  sqs_queue_url : string;
  environment_is_local : bool;
  service_name : string;
  kafka_starts : bool;
  sqs_client_builds : bool;
  kafka_send_fails : nat -> bool;
  sqs_send_fails : nat -> bool;
  utcnow_isoformat : nat -> string;
  uuid4 : nat -> string
}.

Record Message : Type := mk_message {
  msg_topic : string;
  msg_key : option string;
  msg_value : list (string * string)
}.

(** The attributes of a [MessageProducer], a client being present or [None],
    the messages the brokers hold, and the number of sends so far. *)
Record Messaging : Type := mk_messaging {
  kafka_producer : bool;
  sqs_client : bool;
  _initialized : bool;
  kafka_log : list Message;
  sqs_queue : list Message;
  sends : nat
}.

(** [MessageProducer.__init__] in front of empty brokers. *)
Definition new_producer : Messaging := mk_messaging false false false [] [] 0.

(** [{**d, key: value}]. *)
Fixpoint dict_set (key value : string) (d : list (string * string))
  : list (string * string) :=
  match d with
  | [] => [(key, value)]
  | (k, v) :: rest =>
      if String.eqb k key then (key, value) :: rest
      else (k, v) :: dict_set key value rest
  end.


Definition nonempty (s : string) : bool := negb (String.eqb s EmptyString).

Section Producer.
Context (setup : MessagingSetup).

(** [_init_kafka_producer] and [_init_sqs_client] keep their exceptions:
    the client is [None] afterwards. *)
Definition initialize (s : Messaging) : outcome unit * Messaging :=
  if _initialized s then (Returned tt, s)
  else if negb (config_loads setup)
  then (Raised (mk_exn MessagingError "Producer initialization failed"), s)
  else
    let kafka :=
      if KAFKA_AVAILABLE setup && nonempty (kafka_bootstrap_servers setup)
      then kafka_starts setup
      else kafka_producer s in
    let sqs :=
      if SQS_AVAILABLE setup && negb (environment_is_local setup)
      then sqs_client_builds setup
      else sqs_client s in
    (Returned tt,
     mk_messaging kafka sqs true (kafka_log s) (sqs_queue s) (sends s)).

Definition enriched_message (n : nat) (message : list (string * string))
  : list (string * string) :=
  dict_set "producer_service" (service_name setup)
    (dict_set "message_id" (uuid4 setup n)
       (dict_set "timestamp" (utcnow_isoformat setup n) message)).

Definition send_message (topic : string) (message : list (string * string))
    (key : option string) (s : Messaging) : outcome bool * Messaging :=
  match (if _initialized s then (Returned tt, s) else initialize s) with
  | (Raised e, s1) => (Raised e, s1)
  | (Returned _, s1) =>
      let n := sends s1 in
      let s2 := mk_messaging (kafka_producer s1) (sqs_client s1)
                  (_initialized s1) (kafka_log s1) (sqs_queue s1) (S n) in
      let sent := mk_message topic key (enriched_message n message) in
      if kafka_producer s2 && negb (kafka_send_fails setup n)
      then (Returned true,
            mk_messaging (kafka_producer s2) (sqs_client s2) (_initialized s2)
              (kafka_log s2 ++ [sent]) (sqs_queue s2) (sends s2))
      else if sqs_client s2 && nonempty (sqs_queue_url setup)
                && negb (sqs_send_fails setup n)
      then (Returned true,
            mk_messaging (kafka_producer s2) (sqs_client s2) (_initialized s2)
              (kafka_log s2) (sqs_queue s2 ++ [sent]) (sends s2))
      else (Raised (mk_exn MessagingError
                      (String.append "Failed to send message to topic " topic)),
            s2)
  end.

(** A sequence of sends on one producer; the outcomes in order. *)
Fixpoint send_all (messages : list (string * list (string * string)))
    (s : Messaging) : list (outcome bool) * Messaging :=
  match messages with
  | [] => ([], s)
  | (topic, message) :: rest =>
      let '(o, s1) := send_message topic message None s in
      let '(os, s2) := send_all rest s1 in
      (o :: os, s2)
  end.

End Producer.

(** The outcomes of a sequence of sends that returned. *)
Definition delivered (outcomes : list (outcome bool)) : nat :=
  length (List.filter is_returned outcomes).

(** A setup of the local environment: Kafka on the default address, the
    third send refused. *)
Definition local_setup : MessagingSetup :=
  mk_messaging_setup true true true "localhost:9092" EmptyString true
    "data-ingestor" true true (fun n => Nat.eqb n 2) (fun _ => false)
    (fun _ => "2024-01-01T00:00:00"%string) (fun _ => "id"%string).

(** Kafka can be used: the library was imported, servers are configured and
    the producer starts. *)
Definition kafka_usable (setup : MessagingSetup) : bool :=
  KAFKA_AVAILABLE setup && nonempty (kafka_bootstrap_servers setup)
  && kafka_starts setup.

(** * Properties *)

Local Open Scope py_scope.

(** ** Decimal comparisons *)




(** ** Skipping failed and empty collection results *)

(** C10: a collection result that failed, or that carries no record, is
    returned from at once: the world (historical store, cache, messaging
    sink, and the operation counter that every external call advances) is
    the one the call started with. *)
Theorem process_skips_failed_or_empty (env : Env) (cr : CollectionResult)
    (w : World) :
  cr_success cr = false \/ cr_raw_data cr = [] ->
  process_exchange_rate_data env cr w = (Returned tt, w).
Proof.
  intros H. unfold process_exchange_rate_data.
  destruct H as [H | H]; rewrite H; simpl.
  - reflexivity.
  - rewrite orb_true_r. reflexivity.
Qed.

Lemma process_skips_failed_or_empty_witness :
  let failed := mk_collection_result "fixer" false 0
                  (Some "Fixer.io API request failed: connection refused"%string)
                  1700000000 120 [] in
  cr_success failed = false
  /\ process_exchange_rate_data sample_env failed sample_world
     = (Returned tt, sample_world).
Proof.
  cbv zeta. split; [reflexivity|].
  apply process_skips_failed_or_empty. left. reflexivity.
Defined.

(** ** Validation and cleaning *)

Lemma validate_loop_spec (env : Env) (raw_data acc : list RawExchangeRateData)
    (w : World) :
  validate_loop env raw_data acc w
  = (Returned (acc ++ map (backfill (clock w))
                          (List.filter (passes_validation env) raw_data)), w).
Proof.
  revert acc. induction raw_data as [|item rest IH]; intros acc.
  - simpl. unfold ret. rewrite app_nil_r. reflexivity.
  - cbn [validate_loop List.filter].
    unfold bind at 1. unfold try_except, validate_currency_code.
    unfold passes_validation at 1. unfold bind at 1.
    destruct (known_currency env (raw_currency_code item)); cbn.
    + destruct (Qle_bool (raw_rate item) 0 || Qltb 10000 (raw_rate item)); cbn.
      * apply IH.
      * assert (Hb : backfill (clock w) item
                     = match raw_timestamp item with
                       | Some _ => item
                       | None => with_timestamp (clock w) item
                       end) by reflexivity.
        destruct (raw_timestamp item); unfold bind, ret, utc_now;
          rewrite IH, <- app_assoc, Hb; reflexivity.
    + apply IH.
Qed.


Lemma omap_cons {A B} (f : A -> option B) (x : A) (l : list A) :
  omap f (x :: l)
  = match f x with Some y => y :: omap f l | None => omap f l end.
Proof. reflexivity. Qed.

Lemma clean_loop_spec (raw_data : list RawExchangeRateData)
    (source : string) (acc : list ExchangeRate) (w : World) :
  clean_loop raw_data source acc w
  = (Returned (acc ++ omap (canonical_of source) raw_data), w).
Proof.
  revert acc. induction raw_data as [|item rest IH]; intros acc.
  - simpl. unfold ret. rewrite app_nil_r. reflexivity.
  - cbn [clean_loop]. rewrite omap_cons.
    unfold bind at 1. unfold try_except, new_exchange_rate, canonical_of.
    destruct (raw_timestamp item) as [t|]; unfold bind, ret, raise.
    + rewrite IH, <- app_assoc. reflexivity.
    + apply IH.
Qed.

Lemma backfill_has_timestamp (now : Z) (item : RawExchangeRateData) :
  raw_timestamp (backfill now item)
  = Some (default now (raw_timestamp item)).
Proof.
  unfold backfill. destruct (raw_timestamp item) eqn:E; [|reflexivity].
  rewrite E. reflexivity.
Qed.




(** ** The spread of a canonical rate *)

Lemma canonical_spread (source : string) (item : RawExchangeRateData) (t : Z) :
  let r := canonical source item t in
  er_tts r = (er_deal_base_rate r * (102 # 100))%Q
  /\ er_ttb r = (er_deal_base_rate r * (98 # 100))%Q.
Proof. split; reflexivity. Qed.

Lemma spread_order (base : Q) :
  (0 < base)%Q ->
  (base * (98 # 100) < base)%Q /\ (base < base * (102 # 100))%Q.
Proof. intros H. split; lra. Qed.

Lemma in_omap_canonical (source : string) (raw_data : list RawExchangeRateData)
    (r : ExchangeRate) :
  In r (omap (canonical_of source) raw_data) ->
  exists item t, In item raw_data /\ r = canonical source item t.
Proof.
  induction raw_data as [|item rest IH]; [intros []|].
  rewrite omap_cons. unfold canonical_of at 1.
  destruct (raw_timestamp item) as [t|].
  - intros [<- | H].
    + exists item, t. split; [left|]; reflexivity.
    + destruct (IH H) as (i & t' & Hin & ->). exists i, t'. split; [right|]; auto.
  - intros H. destruct (IH H) as (i & t' & Hin & ->).
    exists i, t'. split; [right|]; auto.
Qed.

(** C7: cleaning returns, and every canonical rate it returns has
    [tts = deal_base_rate * 1.02] and [ttb = deal_base_rate * 0.98]; hence
    [ttb < deal_base_rate < tts] whenever the base rate is positive. *)
Theorem cleaned_rates_carry_fixed_spread (raw_data : list RawExchangeRateData)
    (source : string) (w : World) :
  _clean_and_transform_data raw_data source w
  = (Returned (omap (canonical_of source) raw_data), w)
  /\ forall r,
       In r (omap (canonical_of source) raw_data) ->
       er_tts r = (er_deal_base_rate r * (102 # 100))%Q
       /\ er_ttb r = (er_deal_base_rate r * (98 # 100))%Q
       /\ ((0 < er_deal_base_rate r)%Q ->
           (er_ttb r < er_deal_base_rate r)%Q
           /\ (er_deal_base_rate r < er_tts r)%Q).
Proof.
  split.
  - unfold _clean_and_transform_data. apply clean_loop_spec.
  - intros r Hin. apply in_omap_canonical in Hin.
    destruct Hin as (item & t & _ & ->).
    destruct (canonical_spread source item t) as [Hs Hb].
    split; [exact Hs|]. split; [exact Hb|].
    intros Hpos. rewrite Hs, Hb. apply spread_order. exact Hpos.
Qed.

Lemma cleaned_rates_carry_fixed_spread_witness :
  let r := canonical "exchangerate_api"
             (backfill 1700000000 (sample_quote (135025 # 100))) 1700000000 in
  (0 < er_deal_base_rate r)%Q
  /\ (er_ttb r < er_deal_base_rate r)%Q
  /\ (er_deal_base_rate r < er_tts r)%Q.
Proof.
  cbv zeta. split; [reflexivity|].
  apply (cleaned_rates_carry_fixed_spread
           [backfill 1700000000 (sample_quote (135025 # 100))]
           "exchangerate_api" sample_world).
  - left. reflexivity.
  - reflexivity.
Defined.


(** ** The cache synchronizer *)

Lemma same_store_refl (w : World) : same_store w w.
Proof. repeat split. Qed.

Lemma same_store_trans (w1 w2 w3 : World) :
  same_store w1 w2 -> same_store w2 w3 -> same_store w1 w3.
Proof.
  intros (H1 & H2 & H3) (H4 & H5 & H6).
  repeat split; congruence.
Qed.

Lemma update_cache_step (env : Env) (item : ExchangeRate) (n : nat) (w : World) :
  try_except
    (set_hash env (rate_key (er_currency_code item)) (cache_data_of item) 3600 ;;
     ret (S n))
    (fun e => ret n) w
  = if fault env (tick w) (OpCacheSet (rate_key (er_currency_code item)))
    then (Returned n, next_tick w)
    else (Returned (S n),
          with_cache (<[rate_key (er_currency_code item)
                        := synchronized_slot (clock w) item]> (cache w))
                     (next_tick w)).
Proof.
  unfold try_except, bind, set_hash, external, ret.
  destruct (fault env (tick w) _); reflexivity.
Qed.

Lemma update_cache_loop_spec (env : Env) (items : list ExchangeRate) :
  forall (n : nat) (w : World),
  exists n' w',
    update_cache_loop env items n w = (Returned n', w')
    /\ same_store w w'
    /\ (forall key slot,
          cache w' !! key = Some slot ->
          cache w !! key = Some slot
          \/ exists item, In item items
                          /\ key = rate_key (er_currency_code item)
                          /\ slot = synchronized_slot (clock w) item)
    /\ (forall key slot,
          cache w !! key = Some slot ->
          exists slot', cache w' !! key = Some slot'
                        /\ (slot' = slot
                            \/ exists item, slot' = synchronized_slot (clock w) item))
    /\ ((forall t key, fault env t (OpCacheSet key) = false) ->
        forall item, In item items ->
          exists item',
            cache w' !! rate_key (er_currency_code item)
            = Some (synchronized_slot (clock w) item')).
Proof.
  induction items as [|item rest IH]; intros n w.
  - exists n, w. simpl. unfold ret. split; [reflexivity|].
    split; [apply same_store_refl|]. split; [auto|]. split; [eauto|].
    intros _ item [].
  - cbn [update_cache_loop]. unfold bind at 1.
    change (let cache_key := rate_key (er_currency_code item) in
            set_hash env cache_key (cache_data_of item) 3600 ;; ret (S n))
      with (set_hash env (rate_key (er_currency_code item))
              (cache_data_of item) 3600 ;; ret (S n)).
    rewrite update_cache_step.
    destruct (fault env (tick w) _) eqn:Hf.
    + destruct (IH n (next_tick w)) as (n' & w' & Hrun & Hst & Hnew & Hold & Hall).
      exists n', w'. split; [exact Hrun|]. split; [exact Hst|].
      split; [|split].
      * intros key slot Hk. destruct (Hnew key slot Hk) as [H | (i & Hi & Hkey & Hs)].
        -- left. exact H.
        -- right. exists i. split; [right; exact Hi|]. split; assumption.
      * exact Hold.
      * intros Hnf. rewrite Hnf in Hf. discriminate.
    + set (w1 := with_cache _ (next_tick w)).
      destruct (IH (S n) w1) as (n' & w' & Hrun & Hst & Hnew & Hold & Hall).
      exists n', w'. split; [exact Hrun|].
      split; [exact Hst|]. split; [|split].
      * intros key slot Hk. destruct (Hnew key slot Hk) as [H | (i & Hi & Hkey & Hs)].
        -- subst w1. cbn in H.
           destruct (decide (rate_key (er_currency_code item) = key)) as [<-|Hne].
           ++ rewrite lookup_insert_eq in H. inversion H.
              right. exists item. split; [left; reflexivity|]. split; reflexivity.
           ++ rewrite lookup_insert_ne in H by exact Hne. left. exact H.
        -- right. exists i. split; [right; exact Hi|]. split; assumption.
      * intros key slot Hk.
        destruct (decide (rate_key (er_currency_code item) = key)) as [<-|Hne].
        -- destruct (Hold (rate_key (er_currency_code item))
                       (synchronized_slot (clock w) item))
             as (slot' & Hs' & Hcase).
           { subst w1. cbn. apply lookup_insert_eq. }
           exists slot'. split; [exact Hs'|]. right.
           destruct Hcase as [-> | Hex]; [exists item; reflexivity|exact Hex].
        -- destruct (Hold key slot) as (slot' & Hs' & Hcase).
           { subst w1. cbn. rewrite lookup_insert_ne by exact Hne. exact Hk. }
           exists slot'. split; [exact Hs'|]. exact Hcase.
      * intros Hnf i [<- | Hi].
        -- destruct (Hold (rate_key (er_currency_code item))
                       (synchronized_slot (clock w) item))
             as (slot' & Hs' & Hcase).
           { subst w1. cbn. apply lookup_insert_eq. }
           destruct Hcase as [-> | [i' ->]]; eauto.
        -- apply (Hall Hnf i Hi).
Qed.

(** C6, as the code has it: the cache synchronizer always returns, leaves
    the store and the sink alone, and every entry it writes carries a TTL of
    3600 seconds (one hour) and expires 3600 seconds after the write; when no
    cache write fails, every record processed has such an entry under its
    currency.  The 600 seconds of [cache_ttl] are the TTL of the reader's
    cache fill, not of live ingestion. *)
Theorem cache_synchronizer_ttl_is_one_hour (env : Env)
    (items : list ExchangeRate) (w : World) :
  exists w',
    _update_cache env items w = (Returned tt, w')
    /\ same_store w w'
    /\ (forall key slot,
          cache w' !! key = Some slot ->
          cache w !! key = Some slot
          \/ (slot_ttl slot = 3600 /\ slot_expires_at slot = clock w + 3600))
    /\ ((forall t key, fault env t (OpCacheSet key) = false) ->
        forall item, In item items ->
          exists slot,
            cache w' !! rate_key (er_currency_code item) = Some slot
            /\ slot_ttl slot = 3600
            /\ slot_expires_at slot = clock w + 3600).
Proof.
  destruct (update_cache_loop_spec env items 0%nat w)
    as (n' & w' & Hrun & Hst & Hnew & _ & Hall).
  exists w'. split; [|split; [exact Hst|split]].
  - unfold _update_cache, try_except, bind. rewrite Hrun. reflexivity.
  - intros key slot Hk.
    destruct (Hnew key slot Hk) as [H | (i & _ & _ & ->)]; [left; exact H|].
    right. split; reflexivity.
  - intros Hnf item Hin. destruct (Hall Hnf item Hin) as [item' Hs].
    eexists. split; [exact Hs|]. split; reflexivity.
Qed.

Lemma cache_synchronizer_ttl_is_one_hour_witness :
  let item := canonical "exchangerate_api" (sample_quote (135025 # 100))
                1700000000 in
  exists slot,
    cache (snd (_update_cache sample_env [item] sample_world))
      !! rate_key "USD" = Some slot
    /\ slot_ttl slot = 3600
    /\ slot_expires_at slot = 1700003600.
Proof.
  cbv zeta.
  destruct (cache_synchronizer_ttl_is_one_hour sample_env
              [canonical "exchangerate_api" (sample_quote (135025 # 100))
                 1700000000]
              sample_world)
    as (w' & Hrun & _ & _ & Hall).
  rewrite Hrun.
  apply (Hall (fun _ _ => eq_refl) _ (or_introl eq_refl)).
Defined.

(** C6 as stated fails: after one run of the live-ingestion pipeline in which
    a provider delivers a USD quote, the entry of USD has a TTL of 3600
    seconds, not the 600 seconds of [cache_ttl]. *)
Lemma live_ingestion_ttl_is_not_600 :
  let w' := snd (run_single_collection sample_env
                   (_initialize_api_sources EmptyString EmptyString)
                   sample_world) in
  exists slot,
    cache w' !! rate_key "USD" = Some slot
    /\ slot_ttl slot = 3600
    /\ slot_ttl slot <> cache_ttl.
Proof.
  cbv zeta.
  eexists. split; [vm_compute; reflexivity|].
  split; [reflexivity|]. vm_compute. discriminate.
Qed.

(** ** The persistence writer *)

Lemma save_step (env : Env) (item : ExchangeRate) (n : nat) (w : World) :
  try_except
    (now <- utc_now ;; execute_insert env (row_of item now) ;; ret (S n))
    (fun e => ret n) w
  = if fault env (tick w) (OpInsert (er_currency_code item))
    then (Returned n, next_tick w)
    else (Returned (S n),
          with_history (history w ++ [row_of item (clock w)]) (next_tick w)).
Proof.
  unfold try_except, bind, utc_now, execute_insert, external, ret. cbn.
  destruct (fault env (tick w) _); reflexivity.
Qed.

Lemma save_batch_spec (env : Env) (batch : list ExchangeRate) :
  forall (n : nat) (w : World),
    save_batch env batch n w
    = (Returned (n + length (written_rows env (tick w) (clock w) batch))%nat,
       after_inserts w batch (written_rows env (tick w) (clock w) batch)).
Proof.
  induction batch as [|item rest IH]; intros n w.
  - cbn. unfold ret, after_inserts. cbn.
    rewrite app_nil_r, !Nat.add_0_r. destruct w; reflexivity.
  - cbn [save_batch written_rows]. unfold bind at 1. rewrite save_step.
    destruct (fault env (tick w) _).
    + rewrite IH. cbn. unfold after_inserts. cbn.
      do 2 f_equal. lia.
    + rewrite IH. cbn. unfold after_inserts. cbn.
      rewrite <- app_assoc. cbn.
      f_equal; [f_equal; lia | f_equal; lia].
Qed.

Lemma written_rows_app (env : Env) (now : Z) (a b : list ExchangeRate) :
  forall t : nat,
    written_rows env t now (a ++ b)
    = written_rows env t now a ++ written_rows env (t + length a) now b.
Proof.
  induction a as [|x a IH]; intros t; cbn.
  - rewrite Nat.add_0_r. reflexivity.
  - rewrite IH. replace (S t + length a)%nat with (t + S (length a))%nat by lia.
    destruct (fault env t _); reflexivity.
Qed.

Lemma written_rows_length (env : Env) (now : Z) (items : list ExchangeRate) :
  forall t : nat,
    (length (written_rows env t now items) <= length items)%nat.
Proof.
  induction items as [|x rest IH]; intros t; cbn; [lia|].
  specialize (IH (S t)). destruct (fault env t _); cbn; lia.
Qed.

Lemma save_batches_spec (env : Env) (records : list ExchangeRate)
    (offsets : list nat) :
  forall (n : nat) (w : World),
    let items := concat (map (fun i => py_slice records i (i + batch_size))
                             offsets) in
    save_batches env offsets records n w
    = (Returned (n + length (written_rows env (tick w) (clock w) items))%nat,
       after_inserts w items (written_rows env (tick w) (clock w) items)).
Proof.
  induction offsets as [|i rest IH]; intros n w; cbv zeta.
  - cbn. unfold ret, after_inserts. cbn.
    rewrite app_nil_r, !Nat.add_0_r. destruct w; reflexivity.
  - cbn [save_batches map concat]. unfold bind at 1.
    rewrite save_batch_spec. cbv zeta in IH. rewrite IH.
    rewrite written_rows_app. unfold after_inserts. cbn.
    rewrite !length_app, <- !app_assoc.
    f_equal; [f_equal; lia | f_equal; lia].
Qed.

Lemma concat_slices {A} (step : nat) (m : nat) :
  forall l : list A,
    (0 < step)%nat -> (length l <= m * step)%nat ->
    concat (map (fun i => py_slice l i (i + step))
                (map (fun k => k * step)%nat (seq 0 m))) = l.
Proof.
  induction m as [|m IH]; intros l Hstep Hlen.
  - cbn in *. destruct l; [reflexivity|cbn in Hlen; lia].
  - rewrite <- cons_seq, <- seq_shift, !map_cons, !map_map. cbn [concat].
    unfold py_slice at 1. cbn [Nat.mul Nat.add drop].
    replace (step - 0)%nat with step by lia.
    transitivity (take step l ++ drop step l); [|apply take_drop].
    f_equal.
    etransitivity; [|apply (IH (drop step l) Hstep)].
    + rewrite map_map. f_equal. apply map_ext. intros k. unfold py_slice.
      rewrite drop_drop. f_equal. lia.
    + rewrite length_drop. cbn in Hlen. lia.
Qed.

Lemma concat_batches (records : list ExchangeRate) :
  concat (batches_of records) = records.
Proof.
  unfold batches_of, py_range. apply concat_slices.
  - unfold batch_size. lia.
  - unfold batch_size.
    pose proof (Nat.div_mod_eq (length records + 100 - 1) 100) as H.
    pose proof (Nat.mod_upper_bound (length records + 100 - 1) 100) as Hm.
    lia.
Qed.

Lemma py_range_below (stop step i : nat) :
  (0 < step)%nat -> In i (py_range stop step) -> (i < stop)%nat.
Proof.
  intros Hstep Hin. unfold py_range in Hin.
  apply in_map_iff in Hin. destruct Hin as (k & <- & Hk).
  apply in_seq in Hk.
  pose proof (Nat.div_mod_eq (stop + step - 1) step) as H.
  pose proof (Nat.mod_upper_bound (stop + step - 1) step) as Hm.
  nia.
Qed.

Lemma batches_bounded (records : list ExchangeRate) :
  Forall (fun b => (0 < length b <= batch_size)%nat) (batches_of records).
Proof.
  apply List.Forall_forall. intros b Hb. unfold batches_of in Hb.
  apply in_map_iff in Hb. destruct Hb as (i & <- & Hi).
  apply py_range_below in Hi; [|unfold batch_size; lia].
  unfold py_slice. rewrite length_take, length_drop. unfold batch_size. lia.
Qed.

Lemma full_batches (records : list ExchangeRate) (i : nat) :
  (i + 1 < length (batches_of records))%nat ->
  length (nth i (batches_of records) []) = batch_size.
Proof.
  unfold batches_of, py_range. rewrite !length_map, length_seq.
  set (n := length records). set (m := ((n + batch_size - 1) / batch_size)%nat).
  intros Hi.
  assert (Hm : (m * 100 <= n + 99)%nat).
  { subst m. unfold batch_size.
    pose proof (Nat.div_mod_eq (n + 100 - 1) 100) as H.
    pose proof (Nat.mod_upper_bound (n + 100 - 1) 100) as Hu. lia. }
  rewrite (nth_indep _ []
             (py_slice records (0 * batch_size) (0 * batch_size + batch_size)))
    by (rewrite !length_map, length_seq; lia).
  rewrite (map_nth (fun i => py_slice records i (i + batch_size))).
  rewrite (map_nth (fun k => (k * batch_size)%nat)).
  rewrite seq_nth by lia. cbn [Nat.add].
  unfold py_slice. rewrite length_take, length_drop. fold n.
  unfold batch_size. nia.
Qed.

Lemma written_rows_one_fault (env : Env) (now : Z) (k : nat) :
  (forall t o, fault env t o = (t =? k)%nat) ->
  forall (items : list ExchangeRate) (t : nat),
    length (written_rows env t now items)
    = if (t <=? k)%nat && (k <? t + length items)%nat
      then (length items - 1)%nat else length items.
Proof.
  intros Hf. induction items as [|item rest IH]; intros t.
  - cbn [written_rows length].
    destruct ((t <=? k)%nat && (k <? t + 0)%nat); reflexivity.
  - cbn [written_rows length]. rewrite Hf. specialize (IH (S t)).
    destruct (Nat.eqb_spec t k) as [->|Hne].
    + rewrite IH.
      replace (S k <=? k)%nat with false by (symmetry; apply Nat.leb_gt; lia).
      replace (k <=? k)%nat with true by (symmetry; apply Nat.leb_le; lia).
      replace (k <? k + S (length rest))%nat with true
        by (symmetry; apply Nat.ltb_lt; lia).
      cbn. lia.
    + cbn [length]. rewrite IH.
      destruct (Nat.leb_spec (S t) k), (Nat.leb_spec t k),
               (Nat.ltb_spec k (S t + length rest)),
               (Nat.ltb_spec k (t + S (length rest))); cbn; lia.
Qed.

(** C8: the persistence writer cuts its input into batches of 100 (only the
    last one may be shorter), tries every record of every batch in order, and
    always returns: a record whose insert fails is skipped and the records
    after it are still tried.  The store gains the rows of the records whose
    insert succeeded and the value returned is their number, at most the
    length of the input; with 100 records of which only the 50th fails it
    is 99. *)
Theorem save_counts_written_records (env : Env) (records : list ExchangeRate)
    (w : World) :
  let written := written_rows env (tick w) (clock w) records in
  _save_to_database env records w
  = (Returned (length written), after_inserts w records written)
  /\ (length written <= length records)%nat
  /\ concat (batches_of records) = records
  /\ Forall (fun b => (0 < length b <= batch_size)%nat) (batches_of records)
  /\ (forall i, (i + 1 < length (batches_of records))%nat ->
                length (nth i (batches_of records) []) = 100%nat)
  /\ (length records = 100%nat ->
      (forall t o, fault env t o = (t =? tick w + 49)%nat) ->
      length written = 99%nat).
Proof.
  cbv zeta. split; [|split; [|split; [|split; [|split]]]].
  - unfold _save_to_database. destruct records as [|r rest] eqn:E.
    + cbn. unfold ret, after_inserts. cbn.
      rewrite app_nil_r, Nat.add_0_r. destruct w; reflexivity.
    + rewrite <- E. unfold try_except. rewrite save_batches_spec. cbv zeta.
      fold (batches_of records). rewrite concat_batches. reflexivity.
  - apply written_rows_length.
  - apply concat_batches.
  - apply batches_bounded.
  - apply full_batches.
  - intros Hlen Hf.
    rewrite (written_rows_one_fault env (clock w) (tick w + 49) Hf).
    rewrite Hlen.
    replace (tick w <=? tick w + 49)%nat with true
      by (symmetry; apply Nat.leb_le; lia).
    replace (tick w + 49 <? tick w + 100)%nat with true
      by (symmetry; apply Nat.ltb_lt; lia).
    reflexivity.
Qed.

Lemma save_counts_written_records_witness :
  let records := repeat (canonical "exchangerate_api"
                           (sample_quote (135025 # 100)) 1700000000) 100 in
  length records = 100%nat
  /\ fst (_save_to_database (failing_at 49) records sample_world)
     = Returned 99%nat.
Proof.
  cbv zeta. split; [reflexivity|].
  destruct (save_counts_written_records (failing_at 49)
              (repeat (canonical "exchangerate_api"
                         (sample_quote (135025 # 100)) 1700000000) 100)
              sample_world)
    as (Hrun & _ & _ & _ & _ & Hexample).
  rewrite Hrun. cbn [fst]. apply (f_equal Returned).
  apply Hexample; [reflexivity|]. intros t o. reflexivity.
Defined.

(** ** The deduplicator *)







(** ** The collector *)

Lemma fetch_from_provider_world (env : Env) (source_id prefix : string)
    (w : World) :
  snd (fetch_from_provider env source_id prefix w) = w.
Proof.
  unfold fetch_from_provider. destruct (provider env (clock w) source_id);
    reflexivity.
Qed.

Lemma call_adapter_world (env : Env) (source_id : string)
    (source_config : SourceConfig) (w : World) :
  snd (call_adapter env source_id source_config w) = w.
Proof.
  unfold call_adapter, _collect_from_bok, _collect_from_exchangerate_api,
    _collect_from_fixer.
  repeat match goal with |- context [if ?b then _ else _] => destruct b end;
    try apply fetch_from_provider_world; reflexivity.
Qed.

Lemma collect_from_source_spec (env : Env) (source_id : string)
    (source_config : SourceConfig) (w : World) :
  _collect_from_source env source_id source_config w
  = (Returned (source_outcome env w source_id source_config), w).
Proof.
  unfold _collect_from_source, source_outcome.
  unfold bind at 1. unfold utc_now at 1. cbv zeta.
  unfold try_except. unfold bind at 1.
  pose proof (call_adapter_world env source_id source_config w) as Hw.
  destruct (call_adapter env source_id source_config w) as [[raw|e] w1];
    cbn in Hw; subst w1; cbn [fst].
  - unfold bind. unfold _validate_collected_data.
    rewrite validate_loop_spec. reflexivity.
  - reflexivity.
Qed.

Lemma gather_collect_spec (env : Env) (sources : list (string * SourceConfig))
    (w : World) :
  gather (map (fun s => _collect_from_source env (fst s) (snd s)) sources) w
  = (Returned (map (fun s => Returned (source_outcome env w (fst s) (snd s)))
                   sources), w).
Proof.
  induction sources as [|s rest IH]; [reflexivity|].
  cbn [map gather]. rewrite collect_from_source_spec, IH. reflexivity.
Qed.

Lemma label_results_returned (source_ids : list string)
    (rs : list CollectionResult) (w : World) :
  forall (i : nat) (acc : list CollectionResult),
    (i + length rs <= length source_ids)%nat ->
    label_results source_ids i (map Returned rs) acc w
    = (Returned (acc ++ rs), w).
Proof.
  induction rs as [|r rest IH]; intros i acc Hlen.
  - cbn. unfold ret. rewrite app_nil_r. reflexivity.
  - cbn [map label_results]. cbn [length] in Hlen.
    destruct (lookup_lt_is_Some_2 source_ids i) as [sid Hsid]; [lia|].
    rewrite Hsid. unfold bind, ret.
    rewrite IH by lia. rewrite <- app_assoc. reflexivity.
Qed.

Lemma active_sources_length (api_sources : list (string * SourceConfig)) :
  (length (active_sources api_sources) <= length api_sources)%nat.
Proof.
  unfold active_sources. induction api_sources as [|s rest IH]; cbn; [lia|].
  destruct (src_active (snd s)); cbn; lia.
Qed.

Lemma collect_all_data_spec (env : Env)
    (api_sources : list (string * SourceConfig)) (w : World) :
  collect_all_data env api_sources w
  = (Returned (map (fun s => source_outcome env w (fst s) (snd s))
                   (active_sources api_sources)), w).
Proof.
  unfold collect_all_data. unfold bind. rewrite gather_collect_spec.
  rewrite <- (map_map (fun s => source_outcome env w (fst s) (snd s)) Returned).
  rewrite label_results_returned; [reflexivity|].
  rewrite !length_map. cbn. apply active_sources_length.
Qed.

Lemma source_outcome_source (env : Env) (w : World) (source_id : string)
    (source_config : SourceConfig) :
  cr_source (source_outcome env w source_id source_config) = source_id.
Proof.
  unfold source_outcome. destruct (fst (call_adapter _ _ _ _)); reflexivity.
Qed.







(** The branch of [collect_all_data] for a task whose outcome is an
    exception names the source by the position of the task among all
    sources, active or not.  No run reaches it, [_collect_from_source]
    catching every exception of the adapter; were it reached while the first
    source is inactive, the outcome would carry the name of that source. *)
Remark exception_branch_labels_by_position :
  let api_sources := _initialize_api_sources EmptyString EmptyString in
  let e := mk_exn TypeError "unexpected" in
  map fst (active_sources api_sources) = ["exchangerate_api"; "fixer"]%string
  /\ exists failed,
       fst (label_results (map fst api_sources) 0 [Raised e] [] sample_world)
       = Returned [failed]
       /\ cr_source failed = "bok"%string.
Proof.
  cbv zeta. split; [reflexivity|]. eexists. split; reflexivity.
Qed.

(** ** The rate reader *)

Lemma rate_key_inj (c c' : string) : rate_key c = rate_key c' -> c = c'.
Proof. unfold rate_key. cbn. intros H. injection H. auto. Qed.

Lemma get_cached_rate_spec (env : Env) (c : string) (w : World) :
  _get_cached_rate env c w
  = if fault env (tick w) (OpCacheGet (rate_key c))
    then (if stdlib_warning_enabled env
          then (Raised (mk_exn TypeError
                   "_log() got an unexpected keyword argument 'error'"),
                next_tick w)
          else (Returned None, next_tick w))
    else (Returned
            (match h_deal_base_rate (live_hash w (rate_key c)) with
             | Some rate =>
                 Some (mk_rate_dict c
                         (default EmptyString
                            (h_currency_name (live_hash w (rate_key c))))
                         rate
                         (hval_or_none (h_tts (live_hash w (rate_key c))))
                         (hval_or_none (h_ttb (live_hash w (rate_key c))))
                         (default "cache"%string
                            (h_source (live_hash w (rate_key c))))
                         (h_last_updated_at (live_hash w (rate_key c))))
             | None => None
             end), next_tick w).
Proof.
  unfold _get_cached_rate, try_except, bind, get_hash, external,
    stdlib_warning_with_error_keyword.
  destruct (fault env (tick w) _).
  - destruct (stdlib_warning_enabled env); reflexivity.
  - cbn. change (live_hash (next_tick w) (rate_key c))
      with (live_hash w (rate_key c)).
    destruct (h_deal_base_rate (live_hash w (rate_key c))); reflexivity.
Qed.

Lemma get_rate_from_db_spec (env : Env) (c : string) (w : World) :
  _get_rate_from_db env c w
  = if fault env (tick w) (OpQueryLatest c)
    then (Raised (mk_exn DatabaseError "get_rate_from_db"), next_tick w)
    else (Returned (option_map dict_of_row (latest_row w c)), next_tick w).
Proof.
  unfold _get_rate_from_db, try_except, bind, execute_query_latest, external.
  destruct (fault env (tick w) _); [reflexivity|].
  cbn. unfold select_latest, latest_row.
  destruct (most_recent (rows_of_currency (history w) c)); reflexivity.
Qed.

Lemma cache_rate_spec (env : Env) (c : string) (rate_data : RateDict)
    (w : World) :
  _cache_rate env c rate_data w
  = if fault env (tick w) (OpCacheSet (rate_key c))
    then (if stdlib_warning_enabled env
          then (Raised (mk_exn TypeError
                   "_log() got an unexpected keyword argument 'error'"),
                next_tick w)
          else (Returned tt, next_tick w))
    else (Returned tt,
          with_cache (<[rate_key c
                        := mk_slot (hash_of_dict rate_data) cache_ttl
                             (clock w + cache_ttl)]> (cache w))
                     (next_tick w)).
Proof.
  unfold _cache_rate, try_except, set_hash, external,
    stdlib_warning_with_error_keyword.
  destruct (fault env (tick w) _).
  - destruct (stdlib_warning_enabled env); reflexivity.
  - reflexivity.
Qed.

Lemma same_store_next_tick (w : World) : same_store w (next_tick w).
Proof. repeat split. Qed.

Lemma live_hash_filled_same (w0 : World) (c : string) (row : HistoryRow) :
  live_hash (filled w0 c row) (rate_key c) = hash_of_dict (dict_of_row row).
Proof.
  unfold live_hash, filled. cbn. rewrite lookup_insert_eq. cbn.
  replace (clock w0 <? clock w0 + cache_ttl) with true; [reflexivity|].
  symmetry. apply Z.ltb_lt. unfold cache_ttl. lia.
Qed.

Lemma live_hash_filled_other (w0 : World) (c : string) (row : HistoryRow)
    (k : string) :
  k <> rate_key c -> live_hash (filled w0 c row) k = live_hash w0 k.
Proof.
  intros Hne. unfold live_hash, filled. cbn.
  rewrite lookup_insert_ne by congruence. reflexivity.
Qed.

Lemma resolves_to_filled_other (w0 : World) (c : string) (row : HistoryRow)
    (c' : string) :
  c' <> c -> resolves_to (filled w0 c row) c' = resolves_to w0 c'.
Proof.
  intros Hne. unfold resolves_to.
  rewrite live_hash_filled_other; [reflexivity|].
  intros H. apply rate_key_inj in H. contradiction.
Qed.

Lemma resolves_to_filled (w0 : World) (c : string) (row : HistoryRow) :
  h_deal_base_rate (live_hash w0 (rate_key c)) = None ->
  latest_row w0 c = Some row ->
  forall c', resolves_to (filled w0 c row) c' = resolves_to w0 c'.
Proof.
  intros Hmiss Hrow c'.
  destruct (decide (c' = c)) as [->|Hne];
    [|apply resolves_to_filled_other; exact Hne].
  unfold resolves_to. rewrite live_hash_filled_same, Hmiss. cbn.
  unfold latest_row in *. rewrite Hrow. reflexivity.
Qed.

Lemma cached_rate_filled_same (w0 : World) (c : string) (row : HistoryRow) :
  cached_rate (filled w0 c row) c = Some (row_deal_base_rate row).
Proof. unfold cached_rate. rewrite live_hash_filled_same. reflexivity. Qed.

Lemma cached_rate_filled_other (w0 : World) (c : string) (row : HistoryRow)
    (c' : string) :
  c' <> c -> cached_rate (filled w0 c row) c' = cached_rate w0 c'.
Proof.
  intros Hne. unfold cached_rate.
  rewrite live_hash_filled_other; [reflexivity|].
  intros H. apply rate_key_inj in H. contradiction.
Qed.

Lemma known_rate_filled (w0 : World) (c : string) (row : HistoryRow) :
  latest_row w0 c = Some row ->
  forall c' v, known_rate (filled w0 c row) c' v -> known_rate w0 c' v.
Proof.
  intros Hrow c' v [Hc | Hl].
  - destruct (decide (c' = c)) as [->|Hne].
    + rewrite cached_rate_filled_same in Hc. inversion Hc.
      right. exists row. split; [exact Hrow|reflexivity].
    + rewrite cached_rate_filled_other in Hc by exact Hne. left. exact Hc.
  - right. exact Hl.
Qed.

Lemma cached_rate_filled_persists (w0 : World) (c : string) (row : HistoryRow) :
  forall c' q, cached_rate w0 c' = Some q ->
               exists q', cached_rate (filled w0 c row) c' = Some q'.
Proof.
  intros c' q Hq. destruct (decide (c' = c)) as [->|Hne].
  - eexists. apply cached_rate_filled_same.
  - exists q. rewrite cached_rate_filled_other by exact Hne. exact Hq.
Qed.

Lemma cache_filled_other (w0 : World) (c : string) (row : HistoryRow)
    (k : string) :
  k <> rate_key c -> cache (filled w0 c row) !! k = cache w0 !! k.
Proof.
  intros Hne. unfold filled. cbn. rewrite lookup_insert_ne by congruence.
  reflexivity.
Qed.

Lemma cache_filled_same (w0 : World) (c : string) (row : HistoryRow) :
  cache (filled w0 c row) !! rate_key c
  = Some (mk_slot (hash_of_dict (dict_of_row row)) cache_ttl
            (clock w0 + cache_ttl)).
Proof. unfold filled. cbn. apply lookup_insert_eq. Qed.

Lemma resolves_to_known (w : World) (c : string) (v : Q) :
  resolves_to w c = Some v -> known_rate w c v.
Proof.
  unfold resolves_to, known_rate, cached_rate.
  destruct (h_deal_base_rate (live_hash w (rate_key c))) as [[q|s|]|].
  - intros H. left. exact H.
  - discriminate.
  - discriminate.
  - destruct (latest_row w c) as [row|]; [|discriminate].
    intros H. inversion H. right. exists row. split; reflexivity.
Qed.
Lemma only_ticks_next (w w' : World) :
  only_ticks w w' -> only_ticks w (next_tick w').
Proof. intros H. exact H. Qed.

Lemma only_ticks_refl (w : World) : only_ticks w w.
Proof. repeat split. Qed.

Lemma only_ticks_live_hash (w w' : World) (k : string) :
  only_ticks w w' -> live_hash w' k = live_hash w k.
Proof.
  intros (Hc & _ & _ & Ht). unfold live_hash. rewrite Hc, Ht. reflexivity.
Qed.

Lemma only_ticks_resolves (w w' : World) (c : string) :
  only_ticks w w' -> resolves_to w' c = resolves_to w c.
Proof.
  intros H. unfold resolves_to, latest_row.
  rewrite (only_ticks_live_hash w w' _ H).
  destruct H as (_ & Hh & _). rewrite Hh. reflexivity.
Qed.

Lemma only_ticks_cached (w w' : World) (c : string) :
  only_ticks w w' -> cached_rate w' c = cached_rate w c.
Proof.
  intros H. unfold cached_rate. rewrite (only_ticks_live_hash w w' _ H).
  reflexivity.
Qed.

Lemma only_ticks_latest (w w' : World) (c : string) :
  only_ticks w w' -> latest_row w' c = latest_row w c.
Proof. intros (_ & Hh & _). unfold latest_row. rewrite Hh. reflexivity. Qed.

Lemma only_ticks_known (w w' : World) (c : string) (v : Q) :
  only_ticks w w' -> known_rate w' c v -> known_rate w c v.
Proof.
  intros H. unfold known_rate.
  rewrite (only_ticks_cached w w' c H), (only_ticks_latest w w' c H). auto.
Qed.

Lemma step_relates_ticks (env : Env) (c : string) (rates rates' : gmap string Q)
    (hits hits' : nat) (w w' : World) :
  only_ticks w w' ->
  (rates' = rates
   \/ exists v, known_rate w c v /\ rates' = <[c := v]> rates) ->
  (lookups_succeed env c ->
   forall v, resolves_to w c = Some v -> rates' = <[c := v]> rates) ->
  ((hits' = hits /\ (cached_rate w c = None
                     \/ exists t, fault env t (OpCacheGet (rate_key c)) = true))
   \/ (hits' = S hits /\ exists q, cached_rate w c = Some q)) ->
  ((forall t o, fault env t o = false) ->
   cache_misses w c -> latest_row w c = None) ->
  step_relates env c rates hits w rates' hits' w'.
Proof.
  intros Ht Hr Hs Hh Hfill. unfold step_relates.
  split. { destruct Ht as (_ & H1 & H2 & H3). repeat split; assumption. }
  split. { intros k _. destruct Ht as (Hc & _). rewrite Hc. reflexivity. }
  split. { intros c' _. apply only_ticks_resolves. exact Ht. }
  split. { intros c' v. apply only_ticks_known. exact Ht. }
  split. { intros c' q Hq. exists q. rewrite (only_ticks_cached w w' c' Ht).
           exact Hq. }
  split; [exact Hr|]. split; [exact Hs|]. split; [exact Hh|].
  split.
  { intros Hnf Hmiss row Hrow. rewrite (Hfill Hnf Hmiss) in Hrow.
    discriminate. }
  intros _ q _. destruct Ht as (Hc & _). exact Hc.
Qed.

Lemma step_relates_filled (env : Env) (c : string) (rates : gmap string Q)
    (hits : nat) (w w0 : World) (row : HistoryRow) :
  only_ticks w w0 ->
  latest_row w c = Some row ->
  (h_deal_base_rate (live_hash w (rate_key c)) = None
   /\ fault env (tick w) (OpCacheGet (rate_key c)) = false)
  \/ fault env (tick w) (OpCacheGet (rate_key c)) = true ->
  step_relates env c rates hits w
    (<[c := row_deal_base_rate row]> rates) hits (filled w0 c row).
Proof.
  intros Ht Hrow Hwhy. unfold step_relates.
  assert (Hrow0 : latest_row w0 c = Some row)
    by (rewrite (only_ticks_latest w w0 c Ht); exact Hrow).
  split. { destruct Ht as (_ & H1 & H2 & H3). repeat split; assumption. }
  split. { intros k Hk. rewrite cache_filled_other by exact Hk.
           destruct Ht as (Hc & _). rewrite Hc. reflexivity. }
  split.
  { intros c' [Hne | Hok].
    - rewrite resolves_to_filled_other by exact Hne.
      apply only_ticks_resolves. exact Ht.
    - destruct Hwhy as [[Hmiss _] | Hbad].
      + rewrite resolves_to_filled; [apply only_ticks_resolves; exact Ht| |exact Hrow0].
        rewrite (only_ticks_live_hash w w0 _ Ht). exact Hmiss.
      + destruct (Hok (tick w)) as [Hget _]. congruence. }
  split.
  { intros c' v Hk. apply (only_ticks_known w w0 c' v Ht).
    apply (known_rate_filled w0 c row Hrow0). exact Hk. }
  split.
  { intros c' q Hq. apply (cached_rate_filled_persists w0 c row c' q).
    rewrite (only_ticks_cached w w0 c' Ht). exact Hq. }
  split.
  { right. exists (row_deal_base_rate row). split; [|reflexivity].
    right. exists row. split; [exact Hrow|reflexivity]. }
  split.
  { intros Hok v Hv. destruct Hwhy as [[Hmiss _] | Hbad].
    - unfold resolves_to in Hv. rewrite Hmiss, Hrow in Hv. inversion Hv.
      reflexivity.
    - destruct (Hok (tick w)) as [Hget _]. congruence. }
  split.
  { left. split; [reflexivity|]. destruct Hwhy as [[Hmiss _] | Hbad].
    - left. unfold cached_rate. rewrite Hmiss. reflexivity.
    - right. exists (tick w). exact Hbad. }
  split.
  { intros _ _ row' Hrow'. rewrite Hrow in Hrow'. inversion Hrow'. subst row'.
    rewrite cache_filled_same. destruct Ht as (_ & _ & _ & Hclock).
    rewrite Hclock. reflexivity. }
  intros Hnf q Hq. destruct Hwhy as [[Hmiss _] | Hbad].
  - unfold cached_rate in Hq. rewrite Hmiss in Hq. discriminate.
  - rewrite Hnf in Hbad. discriminate.
Qed.

Lemma cached_rate_of_num (w : World) (c : string) (q : Q) :
  h_deal_base_rate (live_hash w (rate_key c)) = Some (HNum q) ->
  cached_rate w c = Some q /\ resolves_to w c = Some q.
Proof.
  intros H. unfold cached_rate, resolves_to. rewrite H. split; reflexivity.
Qed.

Lemma cached_rate_of_miss (w : World) (c : string) :
  h_deal_base_rate (live_hash w (rate_key c)) = None ->
  cached_rate w c = None
  /\ resolves_to w c = option_map row_deal_base_rate (latest_row w c).
Proof.
  intros H. unfold cached_rate, resolves_to. rewrite H.
  destruct (latest_row w c); split; reflexivity.
Qed.

Lemma lookup_step_spec (env : Env) (c : string) (rates : gmap string Q)
    (hits : nat) (w : World) :
  exists rates' hits' w',
    lookup_step env c (rates, hits) w = (Returned (rates', hits'), w')
    /\ step_relates env c rates hits w rates' hits' w'.
Proof.
  unfold lookup_step, try_except, lookup_body.
  unfold bind at 1. rewrite get_cached_rate_spec.
  destruct (fault env (tick w) (OpCacheGet (rate_key c))) eqn:Hget.
  { (* the cache read fails *)
    assert (Hbad : lookups_succeed env c -> False).
    { intros Hok. destruct (Hok (tick w)) as [H _]. congruence. }
    assert (Hnf : (forall t o, fault env t o = false) -> False).
    { intros H. rewrite H in Hget. discriminate. }
    destruct (stdlib_warning_enabled env) eqn:Hwarn.
    - eexists _, _, _. split; [reflexivity|].
      apply step_relates_ticks; [ticks_only|left; reflexivity| | |];
        try (intros; exfalso; auto; fail).
      left. split; [reflexivity|]. right. eauto.
    - unfold bind at 1. rewrite get_rate_from_db_spec.
      destruct (fault env (tick (next_tick w)) (OpQueryLatest c)).
      + eexists _, _, _. split; [reflexivity|].
        apply step_relates_ticks; [ticks_only|left; reflexivity| | |];
          try (intros; exfalso; auto; fail).
        left. split; [reflexivity|]. right. eauto.
      + change (latest_row (next_tick w) c) with (latest_row w c).
        destruct (latest_row w c) as [row|] eqn:Hrow; cbn [option_map].
        * unfold dict_of_row at 1. cbn [rd_deal_base_rate py_float].
          unfold bind at 1. unfold ret at 1.
          unfold try_except at 1. unfold bind at 1.
          rewrite cache_rate_spec, Hwarn.
          destruct (fault env (tick (next_tick (next_tick w))) _).
          -- eexists _, _, _. split; [reflexivity|].
             apply step_relates_ticks; [ticks_only| | | |];
               try (intros; exfalso; auto; fail).
             ++ right. eexists. split; [|reflexivity].
                right. exists row. split; [exact Hrow|reflexivity].
             ++ left. split; [reflexivity|]. right. eauto.
          -- eexists _, _, _. split; [reflexivity|].
             apply (step_relates_filled env c rates hits w
                      (next_tick (next_tick w)) row);
               [ticks_only|exact Hrow|right; exact Hget].
        * eexists _, _, _. split; [reflexivity|].
          apply step_relates_ticks; [ticks_only|left; reflexivity| | |];
            try (intros; exfalso; auto; fail).
          left. split; [reflexivity|]. right. eauto. }
  (* the cache read succeeds *)
  destruct (h_deal_base_rate (live_hash w (rate_key c))) as [[q|s|]|] eqn:Hh.
  - destruct (cached_rate_of_num w c q Hh) as [Hc Hr].
    eexists _, _, _. split; [reflexivity|].
    apply step_relates_ticks; [ticks_only| | | |].
    + right. exists q. split; [left; exact Hc|reflexivity].
    + intros _ v Hv. rewrite Hr in Hv. inversion Hv. reflexivity.
    + right. split; [reflexivity|]. eauto.
    + intros _ Hmiss. unfold cache_misses in Hmiss. congruence.
  - assert (Hc : cached_rate w c = None /\ resolves_to w c = None)
      by (unfold cached_rate, resolves_to; rewrite Hh; split; reflexivity).
    destruct Hc as [Hc Hr].
    eexists _, _, _. split; [reflexivity|].
    apply step_relates_ticks; [ticks_only|left; reflexivity| | |].
    + intros _ v Hv. congruence.
    + left. split; [reflexivity|]. left. exact Hc.
    + intros _ Hmiss. unfold cache_misses in Hmiss. congruence.
  - assert (Hc : cached_rate w c = None /\ resolves_to w c = None)
      by (unfold cached_rate, resolves_to; rewrite Hh; split; reflexivity).
    destruct Hc as [Hc Hr].
    eexists _, _, _. split; [reflexivity|].
    apply step_relates_ticks; [ticks_only|left; reflexivity| | |].
    + intros _ v Hv. congruence.
    + left. split; [reflexivity|]. left. exact Hc.
    + intros _ Hmiss. unfold cache_misses in Hmiss. congruence.
  - (* a miss: the store is asked *)
    destruct (cached_rate_of_miss w c Hh) as [Hc Hr].
    unfold bind at 1. rewrite get_rate_from_db_spec.
    change (latest_row (next_tick w) c) with (latest_row w c).
    destruct (fault env (tick (next_tick w)) (OpQueryLatest c)) eqn:Hq.
    + eexists _, _, _. split; [reflexivity|].
      apply step_relates_ticks; [ticks_only|left; reflexivity| | |].
      * intros Hok. destruct (Hok (tick (next_tick w))) as [_ H]. congruence.
      * left. split; [reflexivity|]. left. exact Hc.
      * intros Hnf. rewrite Hnf in Hq. discriminate.
    + destruct (latest_row w c) as [row|] eqn:Hrow; cbn [option_map] in *.
      * unfold dict_of_row at 1. cbn [rd_deal_base_rate py_float].
        unfold bind at 1. unfold ret at 1.
        unfold try_except at 1. unfold bind at 1.
        rewrite cache_rate_spec.
        destruct (fault env (tick (next_tick (next_tick w))) _) eqn:Hset.
        -- assert (Hgoal : step_relates env c rates hits w
                             (<[c := row_deal_base_rate row]> rates) hits
                             (next_tick (next_tick (next_tick w)))).
           { apply step_relates_ticks; [ticks_only| | | |].
             - right. eexists. split; [|reflexivity].
               right. exists row. split; [exact Hrow|reflexivity].
             - intros _ v Hv. rewrite Hr in Hv. inversion Hv. reflexivity.
             - left. split; [reflexivity|]. left. exact Hc.
             - intros Hnf. rewrite Hnf in Hset. discriminate. }
           destruct (stdlib_warning_enabled env);
             eexists _, _, _; (split; [reflexivity|exact Hgoal]).
        -- eexists _, _, _. split; [reflexivity|].
           apply (step_relates_filled env c rates hits w
                    (next_tick (next_tick w)) row);
             [ticks_only|exact Hrow|left; split; assumption].
      * eexists _, _, _. split; [reflexivity|].
        apply step_relates_ticks; [ticks_only|left; reflexivity| | |].
        -- intros _ v Hv. congruence.
        -- left. split; [reflexivity|]. left. exact Hc.
        -- intros _ _. exact Hrow.
Qed.

Lemma live_hash_ext (w w' : World) (k : string) :
  cache w' !! k = cache w !! k -> clock w' = clock w ->
  live_hash w' k = live_hash w k.
Proof. intros Hc Ht. unfold live_hash. rewrite Hc, Ht. reflexivity. Qed.

Lemma step_keeps_other_hash (env : Env) (c d : string) (rates rates' : gmap string Q)
    (hits hits' : nat) (w w' : World) :
  step_relates env c rates hits w rates' hits' w' ->
  d <> c -> live_hash w' (rate_key d) = live_hash w (rate_key d).
Proof.
  intros (Hst & Hframe & _) Hne. apply live_hash_ext.
  - apply Hframe. intros H. apply rate_key_inj in H. contradiction.
  - destruct Hst as (_ & _ & Ht). exact Ht.
Qed.

Lemma same_store_latest (w w' : World) (c : string) :
  same_store w w' -> latest_row w' c = latest_row w c.
Proof. intros (Hh & _). unfold latest_row. rewrite Hh. reflexivity. Qed.

Lemma lookup_loop_cons (env : Env) (c : string) (rest : list string)
    (locals : gmap string Q * nat) (w : World) :
  lookup_loop env (c :: rest) locals w
  = match lookup_step env c locals w with
    | (Returned locals', w') => lookup_loop env rest locals' w'
    | (Raised e, w') => (Raised e, w')
    end.
Proof. reflexivity. Qed.

Lemma lookup_loop_spec (env : Env) (codes : list string) :
  forall (rates : gmap string Q) (hits : nat) (w : World),
  exists rates' hits' w',
    lookup_loop env codes (rates, hits) w = (Returned (rates', hits'), w')
    /\ loop_relates env codes rates hits w rates' hits' w'.
Proof.
  induction codes as [|c rest IH]; intros rates hits w.
  - exists rates, hits, w. split; [reflexivity|]. unfold loop_relates.
    split; [apply same_store_refl|]. split; [reflexivity|].
    split; [auto|]. split; [eauto|]. split; [auto|].
    split; [intros d v _ _ [[]|H]; exact H|]. split; [lia|].
    split; [intros d []|]. split; [reflexivity|]. split; [reflexivity|].
    intros _ d row [].
  - destruct (lookup_step_spec env c rates hits w)
      as (rates1 & hits1 & w1 & Hstep & Hrel).
    destruct (IH rates1 hits1 w1) as (rates' & hits' & w' & Hloop & Hrest).
    exists rates', hits', w'. rewrite lookup_loop_cons, Hstep.
    split; [exact Hloop|].
    pose proof Hrel as Hrel0.
    destruct Hrel as (S1 & S2 & S3 & S4 & S5 & S6 & S7 & S8 & S9 & S10).
    destruct Hrest as (L1 & L2 & L3 & L4 & L5 & L6 & L7 & L8 & L9 & L10 & L11).
    assert (Hclock : clock w1 = clock w) by (destruct S1 as (_ & _ & H); exact H).
    unfold loop_relates.
    split; [eapply same_store_trans; eassumption|].
    split.
    { intros d Hd. rewrite L2.
      - apply S3. destruct Hd as [Hok | Hnot].
        + destruct (decide (d = c)) as [->|Hne]; [right; exact Hok|left; exact Hne].
        + left. intros ->. apply Hnot. left. reflexivity.
      - destruct Hd as [Hok | Hnot]; [left; exact Hok|].
        right. intros Hin. apply Hnot. right. exact Hin. }
    split; [intros d v Hk; apply S4, L3; exact Hk|].
    split.
    { intros d q Hq. destruct (S5 d q Hq) as [q1 Hq1]. apply (L4 d q1 Hq1). }
    split.
    { intros d v Hd. destruct (L5 d v Hd) as [H1 | [Hin Hk]].
      - destruct S6 as [-> | (v0 & Hk0 & ->)]; [left; exact H1|].
        destruct (decide (c = d)) as [->|Hne].
        + rewrite lookup_insert_eq in H1. inversion H1. subst v0.
          right. split; [left; reflexivity|exact Hk0].
        + rewrite lookup_insert_ne in H1 by exact Hne. left. exact H1.
      - right. split; [right; exact Hin|]. apply S4. exact Hk. }
    split.
    { intros d v Hok Hv Hd.
      assert (Hv1 : resolves_to w1 d = Some v).
      { rewrite S3; [exact Hv|].
        destruct (decide (d = c)) as [->|Hne]; [right; exact Hok|left; exact Hne]. }
      apply (L6 d v Hok Hv1).
      destruct (decide (d = c)) as [->|Hne].
      - right. rewrite (S7 Hok v Hv). apply lookup_insert_eq.
      - destruct Hd as [[Heq | Hin] | Hold].
        + congruence.
        + left. exact Hin.
        + right. destruct S6 as [-> | (v0 & _ & ->)]; [exact Hold|].
          rewrite lookup_insert_ne by congruence. exact Hold. }
    split.
    { destruct S8 as [[-> _] | [-> _]]; lia. }
    split.
    { intros d Hin Hget [q Hq].
      assert (Hle : (hits <= hits1)%nat)
        by (destruct S8 as [[-> _] | [-> _]]; lia).
      destruct (decide (d = c)) as [->|Hne].
      - destruct S8 as [[_ [Hnone | [t Hbad]]] | [-> _]].
        + congruence.
        + rewrite Hget in Hbad. discriminate.
        + lia.
      - destruct Hin as [Heq | Hin]; [congruence|].
        destruct (S5 d q Hq) as [q1 Hq1].
        assert (hits1 < hits')%nat by (apply (L8 d Hin Hget); eauto). lia. }
    split.
    { intros Hnd Hnone. inversion Hnd as [|c0 rest0 Hnotin Hnd']. subst.
      assert (Hh1 : hits1 = hits).
      { destruct S8 as [[-> _] | [_ [q Hq]]]; [reflexivity|].
        rewrite (Hnone c (or_introl eq_refl)) in Hq. discriminate. }
      rewrite <- Hh1. apply L9; [exact Hnd'|].
      intros d Hin. unfold cached_rate.
      rewrite (step_keeps_other_hash env c d rates rates1 hits hits1 w w1 Hrel0).
      + apply (Hnone d). right. exact Hin.
      + intros ->. apply Hnotin, list_elem_of_In. exact Hin. }
    split.
    { intros Hnf d q Hq.
      assert (Hkey : cache w1 !! rate_key d = cache w !! rate_key d).
      { destruct (decide (d = c)) as [->|Hne].
        - rewrite (S10 Hnf q Hq). reflexivity.
        - apply S2. intros H. apply rate_key_inj in H. contradiction. }
      rewrite <- Hkey. apply (L10 Hnf d q).
      unfold cached_rate. rewrite (live_hash_ext w w1 _ Hkey Hclock). exact Hq. }
    intros Hnf d row Hin Hmiss Hrow.
    destruct (decide (d = c)) as [->|Hne].
    + pose proof (S9 Hnf Hmiss row Hrow) as Hslot.
      rewrite <- Hslot. apply (L10 Hnf c (row_deal_base_rate row)).
      unfold cached_rate, live_hash. rewrite Hslot. cbn.
      replace (clock w1 <? clock w + cache_ttl) with true; [reflexivity|].
      symmetry. apply Z.ltb_lt. unfold cache_ttl. lia.
    + destruct Hin as [Heq | Hin]; [congruence|].
      rewrite <- Hclock. apply (L11 Hnf d row Hin).
      * unfold cache_misses.
        rewrite (step_keeps_other_hash env c d rates rates1 hits hits1 w w1 Hrel0 Hne).
        exact Hmiss.
      * rewrite (same_store_latest w w1 d S1). exact Hrow.
Qed.

Lemma most_recent_spec (rows : list HistoryRow) (best : HistoryRow) :
  most_recent rows = Some best ->
  In best rows
  /\ forall r, In r rows -> row_recorded_at r <= row_recorded_at best.
Proof.
  revert best. induction rows as [|r rest IH]; intros best; [discriminate|].
  cbn [most_recent]. destruct (most_recent rest) as [b|] eqn:Hb.
  - destruct (IH b eq_refl) as [Hin Hmax].
    destruct (Z.ltb_spec (row_recorded_at r) (row_recorded_at b)) as [Hlt|Hge];
      intros H; inversion H; subst best.
    + split; [right; exact Hin|].
      intros r' [<- | Hr']; [lia|apply Hmax; exact Hr'].
    + split; [left; reflexivity|].
      intros r' [<- | Hr']; [lia|]. specialize (Hmax r' Hr'). lia.
  - intros H. inversion H. subst best. split; [left; reflexivity|].
    destruct rest as [|r0 rest0].
    + intros r' [<- | []]. lia.
    + cbn in Hb. destruct (most_recent rest0) as [b0|];
        [destruct (row_recorded_at r0 <? row_recorded_at b0)|]; discriminate.
Qed.

Lemma most_recent_some (rows : list HistoryRow) :
  rows <> [] -> exists best, most_recent rows = Some best.
Proof.
  destruct rows as [|r rest]; [congruence|]. intros _. cbn.
  destruct (most_recent rest) as [b|]; [|eauto].
  destruct (row_recorded_at r <? row_recorded_at b); eauto.
Qed.

Lemma latest_row_spec (w : World) (c : string) (row : HistoryRow) :
  latest_row w c = Some row ->
  In row (history w) /\ row_currency_code row = c
  /\ forall r, In r (history w) -> row_currency_code r = c ->
               row_recorded_at r <= row_recorded_at row.
Proof.
  unfold latest_row, rows_of_currency. intros H.
  apply most_recent_spec in H. destruct H as [Hin Hmax].
  apply filter_In in Hin. destruct Hin as [Hin Hc].
  apply String.eqb_eq in Hc.
  split; [exact Hin|]. split; [exact Hc|].
  intros r Hr Hrc. apply Hmax. apply filter_In. split; [exact Hr|].
  apply String.eqb_eq. exact Hrc.
Qed.

Lemma latest_row_exists (w : World) (c : string) (r : HistoryRow) :
  In r (history w) -> row_currency_code r = c ->
  exists row, latest_row w c = Some row.
Proof.
  intros Hin Hc. unfold latest_row. apply most_recent_some.
  intros Hnil.
  assert (H : In r (rows_of_currency (history w) c)).
  { apply filter_In. split; [exact Hin|]. apply String.eqb_eq. exact Hc. }
  rewrite Hnil in H. destruct H.
Qed.

Lemma get_latest_rates_spec (env : Env) (codes : list string) (base : string)
    (w : World) :
  exists rates hits w',
    loop_relates env (requested codes) ∅ 0 w rates hits w'
    /\ get_latest_rates env codes base w
       = (Returned (snapshot_of base codes rates hits w'), w').
Proof.
  destruct (lookup_loop_spec env (requested codes) ∅ 0%nat w)
    as (rates & hits & w' & Hrun & Hrel).
  exists rates, hits, w'. split; [exact Hrel|].
  unfold get_latest_rates, try_except. cbv zeta.
  fold (requested codes). unfold bind at 1. rewrite Hrun.
  reflexivity.
Qed.

Lemma empty_cache_misses (w : World) (c : string) :
  cache w = ∅ -> cache_misses w c /\ cached_rate w c = None.
Proof.
  intros He. unfold cache_misses, cached_rate, live_hash.
  rewrite He, lookup_empty. split; reflexivity.
Qed.

(** C1: [get_latest_rates] returns for every request, whatever external call
    fails, and touches neither the store nor the sink.  Every rate of the
    returned map belongs to a requested currency and is a rate the world
    holds for it (its live cached rate or the rate of its most recent row),
    so a currency without data is omitted.  A requested currency whose own
    cache read and store query do not fail is resolved, to the rate it
    resolves to on its own, whatever fails for the other currencies.  With a
    store that holds only USD rows, an empty cache and no failing call, a
    request for USD and JPY returns the map with USD alone. *)
Theorem reader_resolves_each_currency_independently (env : Env)
    (codes : list string) (base : string) (w : World) :
  exists snap w',
    get_latest_rates env codes base w = (Returned snap, w')
    /\ same_store w w'
    /\ (forall d v,
          snap_rates snap !! d = Some v ->
          In d (requested codes) /\ known_rate w d v)
    /\ (forall d v,
          In d (requested codes) -> lookups_succeed env d ->
          resolves_to w d = Some v -> snap_rates snap !! d = Some v)
    /\ (forall d, (forall v, ~ known_rate w d v) -> snap_rates snap !! d = None)
    /\ (codes = ["USD"; "JPY"]%string ->
        cache w = ∅ ->
        (forall r, In r (history w) -> row_currency_code r = "USD"%string) ->
        (forall t o, fault env t o = false) ->
        forall row, latest_row w "USD" = Some row ->
          snap_rates snap = {[ "USD"%string := row_deal_base_rate row ]}).
Proof.
  destruct (get_latest_rates_spec env codes base w)
    as (rates & hits & w' & Hrel & Hrun).
  destruct Hrel as (L1 & _ & _ & _ & L5 & L6 & _).
  assert (Hsound : forall d v, rates !! d = Some v ->
                               In d (requested codes) /\ known_rate w d v).
  { intros d v Hd. destruct (L5 d v Hd) as [H | H]; [|exact H].
    rewrite lookup_empty in H. discriminate. }
  assert (Hcomplete : forall d v, In d (requested codes) ->
                        lookups_succeed env d -> resolves_to w d = Some v ->
                        rates !! d = Some v).
  { intros d v Hin Hok Hv. apply (L6 d v Hok Hv). left. exact Hin. }
  exists (snapshot_of base codes rates hits w'), w'.
  split; [exact Hrun|]. split; [exact L1|].
  cbn [snap_rates snapshot_of].
  split; [exact Hsound|]. split; [exact Hcomplete|]. split.
  - intros d Hnone. destruct (rates !! d) as [v|] eqn:Hd; [|reflexivity].
    destruct (Hsound d v Hd) as [_ Hk]. destruct (Hnone v Hk).
  - intros -> Hempty Honly Hnf row Hrow. apply map_eq. intros d.
    destruct (decide (d = "USD"%string)) as [->|Hne].
    + rewrite lookup_singleton_eq. apply Hcomplete.
      * left. reflexivity.
      * intros t. split; apply Hnf.
      * destruct (empty_cache_misses w "USD" Hempty) as [Hmiss _].
        unfold resolves_to. unfold cache_misses in Hmiss.
        rewrite Hmiss, Hrow. reflexivity.
    + rewrite lookup_singleton_ne by congruence.
      destruct (rates !! d) as [v|] eqn:Hd; [|reflexivity].
      destruct (Hsound d v Hd) as [Hin Hk]. exfalso.
      destruct Hin as [<- | [<- | []]]; [congruence|].
      destruct Hk as [Hc | (r & Hr & _)].
      * destruct (empty_cache_misses w "JPY" Hempty) as [_ Hnone]. congruence.
      * apply latest_row_spec in Hr. destruct Hr as (Hin & Hcode & _).
        specialize (Honly r Hin). rewrite Honly in Hcode. discriminate.
Qed.

Lemma reader_resolves_each_currency_independently_witness :
  exists snap,
    fst (get_latest_rates sample_env ["USD"; "JPY"]%string "KRW"
           sample_world_with_usd) = Returned snap
    /\ snap_rates snap = {[ "USD"%string := (13502500 # 10000)%Q ]}.
Proof.
  destruct (reader_resolves_each_currency_independently sample_env
              ["USD"; "JPY"]%string "KRW" sample_world_with_usd)
    as (snap & w' & Hrun & _ & _ & _ & _ & Hexample).
  exists snap. split; [rewrite Hrun; reflexivity|].
  refine (Hexample eq_refl eq_refl _ _ (row_of sample_usd_rate 1700000000) _).
  - intros r [<- | []]. reflexivity.
  - intros t o. reflexivity.
  - reflexivity.
Defined.

Lemma some_cached_or_none (w : World) (codes : list string) :
  (forall c, In c codes -> cached_rate w c = None)
  \/ (exists c, In c codes /\ exists q, cached_rate w c = Some q).
Proof.
  induction codes as [|c rest IH].
  - left. intros c [].
  - destruct (cached_rate w c) as [q|] eqn:Hc.
    + right. exists c. split; [left; reflexivity|eauto].
    + destruct IH as [Hnone | (c' & Hin & Hq)].
      * left. intros c' [<- | Hin]; [exact Hc|apply Hnone; exact Hin].
      * right. exists c'. split; [right; exact Hin|exact Hq].
Qed.

Lemma snapshot_source_hits (base : string) (codes : list string)
    (rates : gmap string Q) (hits : nat) (w' : World) :
  (snap_source (snapshot_of base codes rates hits w') = "redis_cache"%string
   <-> (0 < hits)%nat)
  /\ (snap_source (snapshot_of base codes rates hits w') = "database"%string
      <-> hits = 0%nat)
  /\ snap_cache_hit (snapshot_of base codes rates hits w') = (0 <? hits)%nat.
Proof.
  cbn [snap_source snap_cache_hit snapshot_of].
  destruct hits as [|n]; cbn; repeat split; intros; try lia; try discriminate;
    reflexivity.
Qed.

Lemma read_through_of_latest_row (env : Env) (codes : list string)
    (base : string) (w : World) (d : string) (row : HistoryRow) :
  (forall t o, fault env t o = false) ->
  In d (requested codes) ->
  cache_misses w d ->
  latest_row w d = Some row ->
  exists snap w',
    get_latest_rates env codes base w = (Returned snap, w')
    /\ snap_rates snap !! d = Some (row_deal_base_rate row)
    /\ (In row (history w) /\ row_currency_code row = d
        /\ forall r, In r (history w) -> row_currency_code r = d ->
                     row_recorded_at r <= row_recorded_at row)
    /\ cache w' !! rate_key d
       = Some (mk_slot (hash_of_dict (dict_of_row row)) 600 (clock w + 600))
    /\ (snap_source snap = "redis_cache"%string <-> snap_cache_hit snap = true)
    /\ (snap_source snap = "database"%string <-> snap_cache_hit snap = false)
    /\ ((exists c, In c (requested codes) /\ exists q, cached_rate w c = Some q) ->
        snap_source snap = "redis_cache"%string)
    /\ (NoDup (requested codes) ->
        snap_source snap = "redis_cache"%string ->
        exists c, In c (requested codes) /\ exists q, cached_rate w c = Some q)
    /\ (codes = [d] -> snap_source snap = "database"%string)
    /\ (forall delta, 0 <= delta < 600 ->
        exists snap2 w2,
          get_latest_rates env codes base (with_clock (clock w' + delta) w')
          = (Returned snap2, w2)
          /\ snap_rates snap2 !! d = Some (row_deal_base_rate row)
          /\ snap_source snap2 = "redis_cache"%string).
Proof.
  intros Hnf Hin Hmiss Hrow.
  assert (Hok : forall c, lookups_succeed env c)
    by (intros c t; split; apply Hnf).
  destruct (get_latest_rates_spec env codes base w)
    as (rates & hits & w' & Hrel & Hrun).
  destruct Hrel as (L1 & _ & _ & _ & _ & L6 & _ & L8 & L9 & _ & L11).
  destruct (snapshot_source_hits base codes rates hits w') as (Hredis & Hdb & Hflag).
  exists (snapshot_of base codes rates hits w'), w'.
  split; [exact Hrun|]. split.
  { cbn [snap_rates snapshot_of]. apply (L6 d _ (Hok d)); [|left; exact Hin].
    unfold resolves_to. unfold cache_misses in Hmiss. rewrite Hmiss, Hrow.
    reflexivity. }
  split; [apply latest_row_spec; exact Hrow|].
  split; [apply (L11 Hnf d row Hin Hmiss Hrow)|].
  split.
  { rewrite Hredis, Hflag. rewrite Nat.ltb_lt. reflexivity. }
  split.
  { rewrite Hdb, Hflag. rewrite Nat.ltb_ge. lia. }
  split.
  { intros (c & Hc & Hq). apply Hredis.
    assert (0 < hits)%nat; [|lia].
    apply (L8 c Hc); [intros t; apply Hnf|exact Hq]. }
  split.
  { intros Hnd Hsrc. apply Hredis in Hsrc.
    destruct (some_cached_or_none w (requested codes)) as [Hnone | Hsome];
      [|exact Hsome].
    rewrite (L9 Hnd Hnone) in Hsrc. lia. }
  split.
  { intros ->. apply Hdb. apply L9.
    - cbn. apply NoDup_singleton.
    - intros c [<- | []]. unfold cached_rate. unfold cache_misses in Hmiss.
      rewrite Hmiss. reflexivity. }
  intros delta Hdelta.
  set (w2 := with_clock (clock w' + delta) w').
  assert (Hclock : clock w' = clock w) by (destruct L1 as (_ & _ & H); exact H).
  assert (Hcached : cached_rate w2 d = Some (row_deal_base_rate row)).
  { unfold cached_rate, live_hash. subst w2. cbn [cache with_clock clock].
    rewrite (L11 Hnf d row Hin Hmiss Hrow). cbn.
    replace (clock w' + delta <? clock w + cache_ttl) with true; [reflexivity|].
    symmetry. apply Z.ltb_lt. unfold cache_ttl. lia. }
  destruct (get_latest_rates_spec env codes base w2)
    as (rates2 & hits2 & w2' & Hrel2 & Hrun2).
  destruct Hrel2 as (_ & _ & _ & _ & _ & M6 & _ & M8 & _).
  destruct (snapshot_source_hits base codes rates2 hits2 w2') as (Hredis2 & _).
  exists (snapshot_of base codes rates2 hits2 w2'), w2'.
  split; [exact Hrun2|]. split.
  - cbn [snap_rates snapshot_of]. apply (M6 d _ (Hok d)); [|left; exact Hin].
    unfold resolves_to. unfold cached_rate in Hcached.
    destruct (h_deal_base_rate (live_hash w2 (rate_key d))) as [[q|s|]|];
      congruence.
  - apply Hredis2. assert (0 < hits2)%nat; [|lia].
    apply (M8 d Hin); [intros t; apply Hnf|eauto].
Qed.

(** C2: when no external call fails, a requested currency that the cache
    misses and of which the store holds at least one row is returned with
    the rate of its most recent row (no row of the currency has a later
    [recorded_at]), and that row is written into the cache with the TTL
    [cache_ttl] of 600 seconds.  The source tag is [redis_cache] exactly when
    the cache-hit flag is set; it is set as soon as one requested currency
    has a live cached rate, and, the requested currencies being distinct,
    only then.  Asked for that currency alone the first call reports
    [database]; a second call less than 600 seconds later returns the same
    rate and reports [redis_cache]. *)
Theorem read_through_fills_the_cache (env : Env) (codes : list string)
    (base : string) (w : World) (d : string) :
  (forall t o, fault env t o = false) ->
  In d (requested codes) ->
  cache_misses w d ->
  (exists r, In r (history w) /\ row_currency_code r = d) ->
  exists row snap w',
    latest_row w d = Some row
    /\ get_latest_rates env codes base w = (Returned snap, w')
    /\ snap_rates snap !! d = Some (row_deal_base_rate row)
    /\ (In row (history w) /\ row_currency_code row = d
        /\ forall r, In r (history w) -> row_currency_code r = d ->
                     row_recorded_at r <= row_recorded_at row)
    /\ cache w' !! rate_key d
       = Some (mk_slot (hash_of_dict (dict_of_row row)) 600 (clock w + 600))
    /\ (snap_source snap = "redis_cache"%string <-> snap_cache_hit snap = true)
    /\ (snap_source snap = "database"%string <-> snap_cache_hit snap = false)
    /\ ((exists c, In c (requested codes) /\ exists q, cached_rate w c = Some q) ->
        snap_source snap = "redis_cache"%string)
    /\ (NoDup (requested codes) ->
        snap_source snap = "redis_cache"%string ->
        exists c, In c (requested codes) /\ exists q, cached_rate w c = Some q)
    /\ (codes = [d] -> snap_source snap = "database"%string)
    /\ (forall delta, 0 <= delta < 600 ->
        exists snap2 w2,
          get_latest_rates env codes base (with_clock (clock w' + delta) w')
          = (Returned snap2, w2)
          /\ snap_rates snap2 !! d = Some (row_deal_base_rate row)
          /\ snap_source snap2 = "redis_cache"%string).
Proof.
  intros Hnf Hin Hmiss (r & Hr & Hcode).
  destruct (latest_row_exists w d r Hr Hcode) as [row Hrow].
  destruct (read_through_of_latest_row env codes base w d row Hnf Hin Hmiss Hrow)
    as (snap & w' & H).
  exists row, snap, w'. split; [exact Hrow|exact H].
Qed.

Lemma read_through_fills_the_cache_witness :
  exists snap w',
    get_latest_rates sample_env ["USD"]%string "KRW" sample_world_with_usd
    = (Returned snap, w')
    /\ snap_rates snap !! "USD"%string = Some (13502500 # 10000)%Q
    /\ snap_source snap = "database"%string
    /\ exists snap2 w2,
         get_latest_rates sample_env ["USD"]%string "KRW"
           (with_clock (clock w' + 599) w') = (Returned snap2, w2)
         /\ snap_rates snap2 !! "USD"%string = Some (13502500 # 10000)%Q
         /\ snap_source snap2 = "redis_cache"%string.
Proof.
  destruct (read_through_fills_the_cache sample_env ["USD"]%string "KRW"
              sample_world_with_usd "USD")
    as (row & snap & w' & Hrow & Hrun & Hrate & _ & _ & _ & _ & _ & _ & Hdb
        & Hagain).
  - intros t o. reflexivity.
  - left. reflexivity.
  - reflexivity.
  - exists (row_of sample_usd_rate 1700000000).
    split; [left; reflexivity|reflexivity].
  - assert (Hlatest : latest_row sample_world_with_usd "USD"
                      = Some (row_of sample_usd_rate 1700000000))
      by reflexivity.
    rewrite Hlatest in Hrow. injection Hrow as <-.
    exists snap, w'. split; [exact Hrun|]. split; [exact Hrate|].
    split; [apply Hdb; reflexivity|].
    apply (Hagain 599). lia.
Defined.

(** ** Two runs of the pipeline *)








(** * Further properties *)

(** ** The deduplicator when the store fails *)

Lemma filter_loop_run (env : Env) (since : Z) (items : list ExchangeRate) :
  forall (acc : list ExchangeRate) (w : World),
    filter_loop env items since acc w
    = match first_failed_lookup env (tick w) items with
      | Some k => (Raised store_failure, after_queries w (S k))
      | None =>
          (Returned
             (acc ++ List.filter
                       (fun item =>
                          (count_duplicates (history w) (er_currency_code item)
                             (er_source item) since (er_deal_base_rate item)
                           =? 0)%nat) items),
           after_queries w (length items))
      end.
Proof.
  induction items as [|item rest IH]; intros acc w.
  - cbn. unfold ret, after_queries. rewrite app_nil_r, Nat.add_0_r.
    destruct w; reflexivity.
  - cbn [filter_loop first_failed_lookup List.filter length].
    unfold bind at 1. unfold execute_query_count, external.
    destruct (fault env (tick w) _) eqn:Hf.
    + unfold after_queries, next_tick. do 2 f_equal. lia.
    + rewrite IH. cbn [tick next_tick history cache sink clock].
      destruct (first_failed_lookup env (S (tick w)) rest) as [k|];
        cbn [option_map]; unfold after_queries;
        cbn [tick next_tick history cache sink clock].
      * do 2 f_equal. lia.
      * destruct (count_duplicates (history w) _ _ since _ =? 0)%nat.
        -- rewrite <- app_assoc. cbn. do 2 f_equal. lia.
        -- do 2 f_equal. lia.
Qed.

Lemma filter_duplicates_general (env : Env) (items : list ExchangeRate)
    (w : World) :
  _filter_duplicates env items w
  = (Returned (deduplicated env w items),
     after_queries w (lookups_made env w items)).
Proof.
  unfold _filter_duplicates, deduplicated, lookups_made.
  destruct items as [|item rest] eqn:E.
  - cbn. unfold ret, after_queries. rewrite Nat.add_0_r.
    destruct w; reflexivity.
  - rewrite <- E. unfold try_except, bind, utc_now.
    rewrite filter_loop_run.
    destruct (first_failed_lookup env (tick w) items); [reflexivity|].
    cbn [app]. unfold without_duplicates. do 2 f_equal.
    apply filter_ext. intros item'. unfold has_recent_duplicate.
    rewrite negb_involutive. reflexivity.
Qed.

Lemma first_failed_lookup_none (env : Env) (items : list ExchangeRate) :
  forall t : nat,
    first_failed_lookup env t items = None
    <-> forall k, ~ lookup_fails_at env t items k.
Proof.
  induction items as [|item rest IH]; intros t.
  - split; [|reflexivity]. intros _ k (i & Hi & _). discriminate.
  - cbn [first_failed_lookup]. split.
    + destruct (fault env t _) eqn:Hf; [discriminate|].
      destruct (first_failed_lookup env (S t) rest) eqn:Hr; [discriminate|].
      intros _ k (i & Hi & Hbad). destruct k as [|k].
      * cbn in Hi. inversion Hi. subst i. rewrite Nat.add_0_r in Hbad. congruence.
      * cbn in Hi. apply (proj1 (IH (S t)) Hr k). exists i. split; [exact Hi|].
        replace (S t + k)%nat with (t + S k)%nat by lia. exact Hbad.
    + intros Hnone. destruct (fault env t _) eqn:Hf.
      * exfalso. apply (Hnone 0%nat). exists item. split; [reflexivity|].
        rewrite Nat.add_0_r. exact Hf.
      * assert (Hr : first_failed_lookup env (S t) rest = None).
        { apply IH. intros k (i & Hi & Hbad). apply (Hnone (S k)).
          exists i. split; [exact Hi|].
          replace (t + S k)%nat with (S t + k)%nat by lia. exact Hbad. }
        rewrite Hr. reflexivity.
Qed.

Lemma without_duplicates_incl (w : World) (items : list ExchangeRate)
    (item : ExchangeRate) :
  In item (without_duplicates w items) -> In item items.
Proof. unfold without_duplicates. rewrite filter_In. tauto. Qed.

(** X1: [_filter_duplicates] never raises and changes nothing but the
    operation counter.  As soon as one duplicate look-up fails, it returns
    all candidates, the duplicates among them included; when none fails, it
    returns the candidates without a recent near row. *)
Theorem failed_lookup_lets_all_candidates_through (env : Env)
    (items : list ExchangeRate) (w : World) :
  exists kept w',
    _filter_duplicates env items w = (Returned kept, w')
    /\ only_ticks w w'
    /\ (forall item, In item kept -> In item items)
    /\ ((exists k, lookup_fails_at env (tick w) items k) -> kept = items)
    /\ ((forall k, ~ lookup_fails_at env (tick w) items k) ->
        kept = without_duplicates w items).
Proof.
  exists (deduplicated env w items),
         (after_queries w (lookups_made env w items)).
  split; [apply filter_duplicates_general|].
  split; [repeat split|].
  unfold deduplicated.
  destruct (first_failed_lookup env (tick w) items) as [k|] eqn:Hk.
  - split; [auto|]. split; [reflexivity|].
    intros Hnone. apply first_failed_lookup_none in Hnone. congruence.
  - split; [apply without_duplicates_incl|]. split; [|reflexivity].
    intros [k Hbad]. exfalso.
    apply (proj1 (first_failed_lookup_none env items (tick w)) Hk k Hbad).
Qed.

Lemma failed_lookup_lets_all_candidates_through_witness :
  let near := canonical "exchangerate_api" (sample_quote (1350245 # 1000))
                1700000300 in
  lookup_fails_at (failing_at 0) 0 [near] 0
  /\ fst (_filter_duplicates (failing_at 0) [near] sample_world_with_usd)
     = Returned [near]
  /\ fst (_filter_duplicates sample_env [near] sample_world_with_usd)
     = Returned [].
Proof.
  cbv zeta. split; [eexists; split; reflexivity|].
  destruct (failed_lookup_lets_all_candidates_through (failing_at 0)
              [canonical "exchangerate_api" (sample_quote (1350245 # 1000))
                 1700000300]
              sample_world_with_usd)
    as (kept & w' & Hrun & _ & _ & Hall & _).
  split; [|reflexivity].
  rewrite Hrun. cbn [fst]. apply (f_equal Returned). apply Hall.
  exists 0%nat. eexists. split; reflexivity.
Defined.

(** ** The stages after deduplication *)

Lemma send_step (env : Env) (item : ExchangeRate) (n : nat) (w : World) :
  try_except
    (now <- utc_now ;;
     success <- send_exchange_rate_update env (event_of item now) ;;
     ret (if success : bool then S n else n))
    (fun e => ret n) w
  = if fault env (tick w) (OpPublish (er_currency_code item))
    then (Returned n, next_tick w)
    else (Returned (S n),
          with_sink (sink w ++ [event_of item (clock w)]) (next_tick w)).
Proof.
  unfold try_except, bind, utc_now, send_exchange_rate_update, external, ret.
  cbn. destruct (fault env (tick w) _); reflexivity.
Qed.

Lemma send_events_loop_run (env : Env) (items : list ExchangeRate) :
  forall (n : nat) (w : World),
  exists n',
    send_events_loop env items n w
    = (Returned n',
       mk_world (cache w) (history w)
         (sink w ++ published_events env (tick w) (clock w) items)
         (tick w + length items) (clock w)).
Proof.
  induction items as [|item rest IH]; intros n w.
  - exists n. cbn. unfold ret. rewrite app_nil_r, Nat.add_0_r.
    destruct w; reflexivity.
  - cbn [send_events_loop published_events length]. unfold bind at 1.
    rewrite send_step. destruct (fault env (tick w) _).
    + destruct (IH n (next_tick w)) as [n' Hrun]. exists n'. rewrite Hrun.
      cbn. do 2 f_equal. lia.
    + destruct (IH (S n) (with_sink (sink w ++ [event_of item (clock w)])
                            (next_tick w))) as [n' Hrun].
      exists n'. rewrite Hrun. cbn. rewrite <- app_assoc. cbn.
      do 2 f_equal. lia.
Qed.

Lemma send_update_events_run (env : Env) (items : list ExchangeRate) (w : World) :
  _send_update_events env items w
  = (Returned tt,
     mk_world (cache w) (history w)
       (sink w ++ published_events env (tick w) (clock w) items)
       (tick w + length items) (clock w)).
Proof.
  unfold _send_update_events, try_except, bind.
  destruct (send_events_loop_run env items 0%nat w) as [n' Hrun].
  rewrite Hrun. reflexivity.
Qed.

Lemma update_cache_loop_run (env : Env) (items : list ExchangeRate) :
  forall (n : nat) (w : World),
  exists n',
    update_cache_loop env items n w
    = (Returned n',
       mk_world (synchronized_cache env (tick w) (clock w) items (cache w))
         (history w) (sink w) (tick w + length items) (clock w)).
Proof.
  induction items as [|item rest IH]; intros n w.
  - exists n. cbn. unfold ret. rewrite Nat.add_0_r. destruct w; reflexivity.
  - cbn [update_cache_loop synchronized_cache length]. unfold bind at 1.
    change (let cache_key := rate_key (er_currency_code item) in
            set_hash env cache_key (cache_data_of item) 3600 ;; ret (S n))
      with (set_hash env (rate_key (er_currency_code item))
              (cache_data_of item) 3600 ;; ret (S n)).
    rewrite update_cache_step. destruct (fault env (tick w) _).
    + destruct (IH n (next_tick w)) as [n' Hrun]. exists n'. rewrite Hrun.
      cbn. do 2 f_equal. lia.
    + destruct (IH (S n)
                  (with_cache
                     (<[rate_key (er_currency_code item)
                        := synchronized_slot (clock w) item]> (cache w))
                     (next_tick w))) as [n' Hrun].
      exists n'. rewrite Hrun. cbn. do 2 f_equal. lia.
Qed.

Lemma update_cache_run (env : Env) (items : list ExchangeRate) (w : World) :
  _update_cache env items w
  = (Returned tt,
     mk_world (synchronized_cache env (tick w) (clock w) items (cache w))
       (history w) (sink w) (tick w + length items) (clock w)).
Proof.
  unfold _update_cache, try_except, bind.
  destruct (update_cache_loop_run env items 0%nat w) as [n' Hrun].
  rewrite Hrun. reflexivity.
Qed.

Lemma save_to_database_run (env : Env) (records : list ExchangeRate) (w : World) :
  _save_to_database env records w
  = (Returned (length (written_rows env (tick w) (clock w) records)),
     after_inserts w records (written_rows env (tick w) (clock w) records)).
Proof.
  unfold _save_to_database. destruct records as [|r rest] eqn:E.
  - cbn. unfold ret, after_inserts. cbn.
    rewrite app_nil_r, Nat.add_0_r. destruct w; reflexivity.
  - rewrite <- E. unfold try_except. rewrite save_batches_spec. cbv zeta.
    fold (batches_of records). rewrite concat_batches. reflexivity.
Qed.

Lemma process_run (env : Env) (cr : CollectionResult) (w : World) :
  process_exchange_rate_data env cr w
  = (Returned tt,
     if negb (cr_success cr) || is_empty (cr_raw_data cr) then w
     else match omap (canonical_of (cr_source cr)) (cr_raw_data cr) with
          | [] => w
          | cleaned => processed_world env w cleaned
          end).
Proof.
  unfold process_exchange_rate_data.
  destruct (negb (cr_success cr) || is_empty (cr_raw_data cr)); [reflexivity|].
  unfold try_except. unfold bind at 1.
  unfold _clean_and_transform_data. rewrite clean_loop_spec. cbn [app].
  destruct (omap (canonical_of (cr_source cr)) (cr_raw_data cr))
    as [|first others] eqn:Hc; [reflexivity|].
  cbn [is_empty]. unfold duplicate_check_enabled.
  unfold bind at 1. rewrite filter_duplicates_general.
  unfold bind at 1. rewrite save_to_database_run.
  unfold bind at 1. rewrite update_cache_run.
  unfold bind at 1. rewrite send_update_events_run.
  unfold ret, processed_world, after_inserts, after_queries. cbv zeta.
  cbn [cache history sink tick clock]. reflexivity.
Qed.

Lemma written_rows_all (env : Env) (now : Z) (items : list ExchangeRate) :
  inserts_succeed env ->
  forall t, written_rows env t now items = map (fun i => row_of i now) items.
Proof.
  intros Hok. induction items as [|item rest IH]; intros t; [reflexivity|].
  cbn [written_rows map]. rewrite Hok, IH. reflexivity.
Qed.

Lemma written_rows_none (env : Env) (now : Z) (items : list ExchangeRate) :
  (forall t c, fault env t (OpInsert c) = true) ->
  forall t, written_rows env t now items = [].
Proof.
  intros Hbad. induction items as [|item rest IH]; intros t; [reflexivity|].
  cbn [written_rows]. rewrite Hbad, IH. reflexivity.
Qed.

Lemma written_rows_from (env : Env) (now : Z) (items : list ExchangeRate) :
  forall t r,
    In r (written_rows env t now items) ->
    exists item, In item items /\ r = row_of item now.
Proof.
  induction items as [|item rest IH]; intros t r; [intros []|].
  cbn [written_rows]. destruct (fault env t _).
  - intros H. destruct (IH _ _ H) as (i & Hi & ->). exists i. split; [right|]; auto.
  - intros [<- | H].
    + exists item. split; [left|]; reflexivity.
    + destruct (IH _ _ H) as (i & Hi & ->). exists i. split; [right|]; auto.
Qed.

Lemma published_events_all (env : Env) (now : Z) (items : list ExchangeRate) :
  publications_succeed env ->
  forall t, published_events env t now items
            = map (fun i => event_of i now) items.
Proof.
  intros Hok. induction items as [|item rest IH]; intros t; [reflexivity|].
  cbn [published_events map]. rewrite Hok, IH. reflexivity.
Qed.

Lemma published_events_length (env : Env) (now : Z) (items : list ExchangeRate) :
  forall t, (length (published_events env t now items) <= length items)%nat.
Proof.
  induction items as [|item rest IH]; intros t; cbn; [lia|].
  specialize (IH (S t)). destruct (fault env t _); cbn; lia.
Qed.

Lemma published_events_from (env : Env) (now : Z) (items : list ExchangeRate) :
  forall t e,
    In e (published_events env t now items) ->
    exists item, In item items /\ e = event_of item now.
Proof.
  induction items as [|item rest IH]; intros t e; [intros []|].
  cbn [published_events]. destruct (fault env t _).
  - intros H. destruct (IH _ _ H) as (i & Hi & ->). exists i. split; [right|]; auto.
  - intros [<- | H].
    + exists item. split; [left|]; reflexivity.
    + destruct (IH _ _ H) as (i & Hi & ->). exists i. split; [right|]; auto.
Qed.

Lemma find_app_first {A} (f : A -> bool) (l1 l2 : list A) :
  List.find f (l1 ++ l2)
  = match List.find f l1 with
    | Some x => Some x
    | None => List.find f l2
    end.
Proof.
  induction l1 as [|x l1 IH]; [reflexivity|].
  cbn. destruct (f x); [reflexivity|exact IH].
Qed.

Lemma synchronized_cache_lookup (env : Env) (now : Z) (c : string)
    (items : list ExchangeRate) :
  cache_writes_succeed env ->
  forall (t : nat) (c0 : gmap string CacheSlot),
    synchronized_cache env t now items c0 !! rate_key c
    = match last_of_currency c items with
      | Some item => Some (synchronized_slot now item)
      | None => c0 !! rate_key c
      end.
Proof.
  intros Hok. induction items as [|item rest IH]; intros t c0; [reflexivity|].
  cbn [synchronized_cache]. rewrite Hok, IH.
  unfold last_of_currency. cbn [rev]. rewrite find_app_first.
  destruct (List.find _ (rev rest)); [reflexivity|].
  cbn [List.find].
  destruct (String.eqb_spec (er_currency_code item) c) as [<-|Hne].
  - apply lookup_insert_eq.
  - apply lookup_insert_ne. intros H. apply rate_key_inj in H. contradiction.
Qed.

Lemma synchronized_cache_frame (env : Env) (now : Z) (k : string)
    (items : list ExchangeRate) :
  (forall item, In item items -> rate_key (er_currency_code item) <> k) ->
  forall (t : nat) (c0 : gmap string CacheSlot),
    synchronized_cache env t now items c0 !! k = c0 !! k.
Proof.
  induction items as [|item rest IH]; intros Hk t c0; [reflexivity|].
  cbn [synchronized_cache]. rewrite IH.
  - destruct (fault env t _); [reflexivity|].
    apply lookup_insert_ne. apply Hk. left. reflexivity.
  - intros i Hi. apply Hk. right. exact Hi.
Qed.

Lemma deduplicated_no_fault (env : Env) (w : World) (items : list ExchangeRate) :
  duplicate_lookups_succeed env ->
  deduplicated env w items = without_duplicates w items.
Proof.
  intros Hok. unfold deduplicated.
  destruct (first_failed_lookup env (tick w) items) eqn:Hf; [|reflexivity].
  exfalso.
  assert (Hnone : first_failed_lookup env (tick w) items = None); [|congruence].
  apply first_failed_lookup_none. intros k (i & _ & Hbad).
  rewrite Hok in Hbad. discriminate.
Qed.

Lemma deduplicated_incl (env : Env) (w : World) (items : list ExchangeRate)
    (item : ExchangeRate) :
  In item (deduplicated env w items) -> In item items.
Proof.
  unfold deduplicated. destruct (first_failed_lookup env (tick w) items); [auto|].
  apply without_duplicates_incl.
Qed.

Lemma deduplicated_length (env : Env) (w : World) (items : list ExchangeRate) :
  (length (deduplicated env w items) <= length items)%nat.
Proof.
  unfold deduplicated, without_duplicates.
  destruct (first_failed_lookup env (tick w) items); [lia|].
  induction items as [|i rest IH]; cbn; [lia|].
  destruct (negb _); cbn; lia.
Qed.

Lemma omap_length {A B} (f : A -> option B) (l : list A) :
  (length (omap f l) <= length l)%nat.
Proof.
  induction l as [|x l IH]; [cbn; lia|].
  rewrite omap_cons. destruct (f x); cbn; lia.
Qed.

(** ** The pipeline of one collection result *)

Lemma process_world_cases (env : Env) (cr : CollectionResult) (w : World) :
  snd (process_exchange_rate_data env cr w) = w
  \/ exists first others,
       cr_success cr = true
       /\ omap (canonical_of (cr_source cr)) (cr_raw_data cr) = first :: others
       /\ snd (process_exchange_rate_data env cr w)
          = processed_world env w (first :: others).
Proof.
  rewrite process_run. cbn [snd].
  destruct (cr_success cr) eqn:Hs; cbn [negb orb]; [|left; reflexivity].
  destruct (is_empty (cr_raw_data cr)); [left; reflexivity|].
  destruct (omap (canonical_of (cr_source cr)) (cr_raw_data cr))
    as [|first others] eqn:Hc; [left; reflexivity|].
  right. exists first, others. repeat split.
Qed.

(** X2: [process_exchange_rate_data] returns normally on every collection
    result, whichever cache, store or sink call fails: [DataProcessingError]
    is never raised.  It only appends to the store and to the sink, at most
    one row and one event per raw record, every one of them carrying the
    source of the collection result; the rows are stamped with the time of
    the run. *)
Theorem pipeline_contains_every_failure (env : Env) (cr : CollectionResult)
    (w : World) :
  exists w' rows events,
    process_exchange_rate_data env cr w = (Returned tt, w')
    /\ clock w' = clock w
    /\ history w' = history w ++ rows
    /\ sink w' = sink w ++ events
    /\ (length rows <= length (cr_raw_data cr))%nat
    /\ (length events <= length (cr_raw_data cr))%nat
    /\ (forall r, In r rows ->
          row_source r = cr_source cr /\ row_created_at r = clock w)
    /\ (forall e, In e events -> ev_source e = cr_source cr).
Proof.
  destruct (process_world_cases env cr w) as [Hsame | (first & others & _ & Hc & Hw)].
  - exists w, [], []. split.
    + rewrite <- Hsame at 2. rewrite process_run. reflexivity.
    + rewrite !app_nil_r. split; [reflexivity|]. split; [reflexivity|].
      split; [reflexivity|]. split; [cbn; lia|]. split; [cbn; lia|].
      split; intros x [].
  - set (cleaned := first :: others) in *.
    assert (Hsrc : forall item, In item (deduplicated env w cleaned) ->
                                er_source item = cr_source cr).
    { intros item Hin. apply deduplicated_incl in Hin.
      subst cleaned. rewrite <- Hc in Hin.
      apply in_omap_canonical in Hin. destruct Hin as (raw & t & _ & ->).
      reflexivity. }
    assert (Hlen : (length (deduplicated env w cleaned)
                    <= length (cr_raw_data cr))%nat).
    { pose proof (deduplicated_length env w cleaned) as H1.
      pose proof (omap_length (canonical_of (cr_source cr)) (cr_raw_data cr)) as H2.
      rewrite Hc in H2. fold cleaned in H2. lia. }
    eexists (processed_world env w cleaned), _, _. split.
    { rewrite <- Hw. rewrite process_run. reflexivity. }
    unfold processed_world. cbv zeta. cbn [clock history sink].
    split; [reflexivity|]. split; [reflexivity|]. split; [reflexivity|].
    split.
    { etransitivity; [apply written_rows_length|exact Hlen]. }
    split.
    { etransitivity; [apply published_events_length|exact Hlen]. }
    split.
    + intros r Hr. apply written_rows_from in Hr.
      destruct Hr as (item & Hin & ->). split; [|reflexivity].
      cbn. apply Hsrc. exact Hin.
    + intros e He. apply published_events_from in He.
      destruct He as (item & Hin & ->). cbn. apply Hsrc. exact Hin.
Qed.

Lemma no_fault_kinds (env : Env) :
  no_fault env ->
  inserts_succeed env /\ cache_writes_succeed env /\ publications_succeed env
  /\ duplicate_lookups_succeed env.
Proof.
  intros H. unfold inserts_succeed, cache_writes_succeed,
    publications_succeed, duplicate_lookups_succeed.
  repeat split; intros; apply H.
Qed.

Lemma process_world_of_success (env : Env) (cr : CollectionResult) (w : World) :
  cr_success cr = true ->
  duplicate_lookups_succeed env ->
  let kept := accepted_rates w cr in
  exists t1 t2 t3 t4,
    snd (process_exchange_rate_data env cr w)
    = mk_world (synchronized_cache env t2 (clock w) kept (cache w))
               (history w ++ written_rows env t1 (clock w) kept)
               (sink w ++ published_events env t3 (clock w) kept)
               t4 (clock w).
Proof.
  intros Hs Hok. cbv zeta. unfold accepted_rates.
  rewrite process_run. cbn [snd]. rewrite Hs. cbn [negb orb].
  destruct (cr_raw_data cr) as [|r0 raws] eqn:Hraw.
  { cbn. exists 0%nat, 0%nat, 0%nat, (tick w). rewrite !app_nil_r.
    destruct w; reflexivity. }
  cbn [is_empty]. rewrite <- Hraw.
  destruct (omap (canonical_of (cr_source cr)) (cr_raw_data cr))
    as [|first others] eqn:Hc.
  { cbn. exists 0%nat, 0%nat, 0%nat, (tick w). rewrite !app_nil_r.
    destruct w; reflexivity. }
  unfold processed_world. cbv zeta.
  rewrite (deduplicated_no_fault env w _ Hok).
  do 4 eexists. reflexivity.
Qed.

(** X3: when no external call fails, processing a successful collection
    result appends to the store one row per cleaned record that has no
    recent near row in the store as it was before the call, in the order of
    the raw records, publishes one event for each of them in the same order,
    and leaves for every currency among them the cache entry of its last
    such record; cache entries of other keys are untouched. *)
Theorem pipeline_effect_without_failures (env : Env) (cr : CollectionResult)
    (w : World) :
  no_fault env ->
  cr_success cr = true ->
  let kept := accepted_rates w cr in
  let w' := snd (process_exchange_rate_data env cr w) in
  history w' = history w ++ map (fun item => row_of item (clock w)) kept
  /\ sink w' = sink w ++ map (fun item => event_of item (clock w)) kept
  /\ (forall c,
        cache w' !! rate_key c
        = match last_of_currency c kept with
          | Some item => Some (synchronized_slot (clock w) item)
          | None => cache w !! rate_key c
          end)
  /\ (forall k,
        (forall item, In item kept -> rate_key (er_currency_code item) <> k) ->
        cache w' !! k = cache w !! k).
Proof.
  intros Hnf Hs. cbv zeta.
  destruct (no_fault_kinds env Hnf) as (Hi & Hc & Hp & Hd).
  destruct (process_world_of_success env cr w Hs Hd) as (t1 & t2 & t3 & t4 & Hw).
  rewrite Hw. cbn [history sink cache].
  rewrite (written_rows_all env _ _ Hi), (published_events_all env _ _ Hp).
  split; [reflexivity|]. split; [reflexivity|]. split.
  - intros c. apply synchronized_cache_lookup. exact Hc.
  - intros k Hk. apply synchronized_cache_frame. exact Hk.
Qed.

Lemma pipeline_effect_without_failures_witness :
  let cr := mk_collection_result "exchangerate_api" true 1 None 1700000000 120
              [with_timestamp 1700000000 (sample_quote (135025 # 100))] in
  let w' := snd (process_exchange_rate_data sample_env cr sample_world) in
  history w' = [row_of sample_usd_rate 1700000000]
  /\ sink w' = [event_of sample_usd_rate 1700000000].
Proof.
  cbv zeta.
  destruct (pipeline_effect_without_failures sample_env
              (mk_collection_result "exchangerate_api" true 1 None 1700000000
                 120 [with_timestamp 1700000000 (sample_quote (135025 # 100))])
              sample_world (fun _ _ => eq_refl) eq_refl)
    as (Hh & Hs & _).
  split; [rewrite Hh|rewrite Hs]; reflexivity.
Defined.

(** X4: persistence failures do not hold back the later stages.  When every
    insert into the store fails and nothing else does, processing a
    successful collection result stores nothing, and still publishes one
    event for every accepted record and leaves the cache entry of each of
    their currencies. *)
Theorem unsaved_records_are_still_cached_and_published (env : Env)
    (cr : CollectionResult) (w : World) :
  (forall t o,
     fault env t o = match o with OpInsert _ => true | _ => false end) ->
  cr_success cr = true ->
  let kept := accepted_rates w cr in
  let w' := snd (process_exchange_rate_data env cr w) in
  history w' = history w
  /\ sink w' = sink w ++ map (fun item => event_of item (clock w)) kept
  /\ (forall item, In item kept ->
        exists item',
          last_of_currency (er_currency_code item) kept = Some item'
          /\ cache w' !! rate_key (er_currency_code item)
             = Some (synchronized_slot (clock w) item')).
Proof.
  intros Hf Hs. cbv zeta.
  assert (Hd : duplicate_lookups_succeed env) by (intros t c s; rewrite Hf; reflexivity).
  assert (Hc : cache_writes_succeed env) by (intros t k; rewrite Hf; reflexivity).
  assert (Hp : publications_succeed env) by (intros t c; rewrite Hf; reflexivity).
  assert (Hi : forall t c, fault env t (OpInsert c) = true)
    by (intros t c; rewrite Hf; reflexivity).
  destruct (process_world_of_success env cr w Hs Hd) as (t1 & t2 & t3 & t4 & Hw).
  rewrite Hw. cbn [history sink cache].
  rewrite (written_rows_none env _ _ Hi), (published_events_all env _ _ Hp).
  split; [apply app_nil_r|]. split; [reflexivity|].
  intros item Hin.
  rewrite (synchronized_cache_lookup env _ _ _ Hc).
  destruct (last_of_currency (er_currency_code item) (accepted_rates w cr))
    as [item'|] eqn:Hlast; [eauto|].
  exfalso. unfold last_of_currency in Hlast.
  assert (Hrev : In item (rev (accepted_rates w cr)))
    by (apply in_rev; rewrite rev_involutive; exact Hin).
  pose proof (find_none _ _ Hlast item Hrev) as Hno. cbn beta in Hno.
  rewrite String.eqb_refl in Hno. discriminate.
Qed.

Lemma unsaved_records_are_still_cached_and_published_witness :
  let cr := mk_collection_result "exchangerate_api" true 1 None 1700000000 120
              [with_timestamp 1700000000 (sample_quote (135025 # 100))] in
  let w' := snd (process_exchange_rate_data store_rejects_inserts cr
                   sample_world) in
  history w' = []
  /\ sink w' = [event_of sample_usd_rate 1700000000]
  /\ cache w' !! rate_key "USD"
     = Some (synchronized_slot 1700000000 sample_usd_rate).
Proof.
  cbv zeta.
  destruct (unsaved_records_are_still_cached_and_published store_rejects_inserts
              (mk_collection_result "exchangerate_api" true 1 None 1700000000
                 120 [with_timestamp 1700000000 (sample_quote (135025 # 100))])
              sample_world)
    as (Hh & Hs & Hcache).
  - intros t o. reflexivity.
  - reflexivity.
  - split; [rewrite Hh; reflexivity|]. split; [rewrite Hs; reflexivity|].
    destruct (Hcache sample_usd_rate (or_introl eq_refl)) as (item' & Hlast & Hslot).
    injection Hlast as <-. exact Hslot.
Defined.

(** X5: deduplication compares a candidate with the store only, never with
    the other candidates of its batch: when no external call fails and the
    store has no recent near row for a record, a collection result that
    carries this record twice adds two rows for it. *)
Theorem duplicates_within_a_batch_are_both_stored (env : Env)
    (cr : CollectionResult) (w : World) (r : RawExchangeRateData) (t : Z) :
  no_fault env ->
  cr_success cr = true ->
  cr_raw_data cr = [r; r] ->
  raw_timestamp r = Some t ->
  has_recent_duplicate (history w) (clock w) (canonical (cr_source cr) r t)
  = false ->
  history (snd (process_exchange_rate_data env cr w))
  = history w ++ [row_of (canonical (cr_source cr) r t) (clock w);
                  row_of (canonical (cr_source cr) r t) (clock w)].
Proof.
  intros Hnf Hs Hraw Ht Hfresh.
  destruct (no_fault_kinds env Hnf) as (Hi & _ & _ & Hd).
  destruct (process_world_of_success env cr w Hs Hd) as (t1 & t2 & t3 & t4 & Hw).
  rewrite Hw. cbn [history]. rewrite (written_rows_all env _ _ Hi).
  unfold accepted_rates. rewrite Hraw. rewrite !omap_cons.
  unfold canonical_of. rewrite Ht. cbn [omap list_omap].
  unfold without_duplicates. cbn [List.filter]. rewrite Hfresh. reflexivity.
Qed.

Lemma duplicates_within_a_batch_are_both_stored_witness :
  let r := with_timestamp 1700000000 (sample_quote (135025 # 100)) in
  let cr := mk_collection_result "exchangerate_api" true 2 None 1700000000 120
              [r; r] in
  history (snd (process_exchange_rate_data sample_env cr sample_world))
  = [row_of sample_usd_rate 1700000000; row_of sample_usd_rate 1700000000].
Proof.
  cbv zeta.
  apply (duplicates_within_a_batch_are_both_stored sample_env
           (mk_collection_result "exchangerate_api" true 2 None 1700000000 120
              [with_timestamp 1700000000 (sample_quote (135025 # 100));
               with_timestamp 1700000000 (sample_quote (135025 # 100))])
           sample_world
           (with_timestamp 1700000000 (sample_quote (135025 # 100)))
           1700000000).
  - intros t o. reflexivity.
  - reflexivity.
  - reflexivity.
  - reflexivity.
  - reflexivity.
Defined.

(** X6: [_send_update_events] never raises and touches neither the cache
    nor the store.  It appends to the sink the events of the records whose
    publication succeeded, in the order of the records and stamped with the
    time of the call: a failed publication is skipped and the later ones
    are still sent.  When no publication fails there is one event per
    record. *)
Theorem events_are_published_best_effort (env : Env)
    (items : list ExchangeRate) (w : World) :
  exists w' events,
    _send_update_events env items w = (Returned tt, w')
    /\ cache w' = cache w /\ history w' = history w /\ clock w' = clock w
    /\ sink w' = sink w ++ events
    /\ events = published_events env (tick w) (clock w) items
    /\ (length events <= length items)%nat
    /\ (forall e, In e events ->
          exists item, In item items /\ e = event_of item (clock w))
    /\ (publications_succeed env ->
        events = map (fun item => event_of item (clock w)) items).
Proof.
  eexists _, _. split; [apply send_update_events_run|].
  cbn [cache history clock sink].
  repeat split.
  - apply published_events_length.
  - apply published_events_from.
  - intros Hok. apply published_events_all. exact Hok.
Qed.

Lemma events_are_published_best_effort_witness :
  let other := canonical "fixer" (mk_raw "EUR" (14505 # 10) "fixer" None [])
                 1700000000 in
  sink (snd (_send_update_events sample_env [sample_usd_rate; other]
               sample_world))
  = [event_of sample_usd_rate 1700000000; event_of other 1700000000]
  /\ sink (snd (_send_update_events (failing_at 0) [sample_usd_rate; other]
                  sample_world))
     = [event_of other 1700000000].
Proof.
  cbv zeta.
  destruct (events_are_published_best_effort sample_env
              [sample_usd_rate;
               canonical "fixer" (mk_raw "EUR" (14505 # 10) "fixer" None [])
                 1700000000] sample_world)
    as (w' & events & Hrun & _ & _ & _ & Hsink & _ & _ & _ & Hall).
  split; [|reflexivity].
  rewrite Hrun. cbn [snd]. rewrite Hsink, Hall; [reflexivity|].
  intros t c. reflexivity.
Defined.

(** ** The reader under partial failure *)

Lemma lookup_step_hit (env : Env) (c : string) (rates : gmap string Q)
    (hits : nat) (w : World) (q : Q) :
  fault env (tick w) (OpCacheGet (rate_key c)) = false ->
  cached_rate w c = Some q ->
  lookup_step env c (rates, hits) w
  = (Returned (<[c := q]> rates, S hits), next_tick w).
Proof.
  intros Hget Hq. unfold lookup_step, try_except, lookup_body.
  unfold bind at 1. rewrite get_cached_rate_spec, Hget.
  unfold cached_rate in Hq.
  destruct (h_deal_base_rate (live_hash w (rate_key c))) as [[q'|s|]|];
    try discriminate.
  inversion Hq. subst q'. reflexivity.
Qed.

Lemma lookup_step_cache_error_logged (env : Env) (c : string)
    (rates : gmap string Q) (hits : nat) (w : World) :
  fault env (tick w) (OpCacheGet (rate_key c)) = true ->
  stdlib_warning_enabled env = true ->
  lookup_step env c (rates, hits) w = (Returned (rates, hits), next_tick w).
Proof.
  intros Hget Hwarn. unfold lookup_step, try_except, lookup_body.
  unfold bind at 1. rewrite get_cached_rate_spec, Hget, Hwarn. reflexivity.
Qed.

Lemma lookup_step_cache_error_silent (env : Env) (c : string)
    (rates : gmap string Q) (hits : nat) (w : World) (row : HistoryRow) :
  fault env (tick w) (OpCacheGet (rate_key c)) = true ->
  stdlib_warning_enabled env = false ->
  fault env (S (tick w)) (OpQueryLatest c) = false ->
  latest_row w c = Some row ->
  exists w',
    lookup_step env c (rates, hits) w
    = (Returned (<[c := row_deal_base_rate row]> rates, hits), w').
Proof.
  intros Hget Hwarn Hq Hrow. unfold lookup_step, try_except, lookup_body.
  unfold bind at 1. rewrite get_cached_rate_spec, Hget, Hwarn.
  unfold bind at 1. rewrite get_rate_from_db_spec.
  cbn [tick next_tick]. rewrite Hq.
  change (latest_row (next_tick w) c) with (latest_row w c). rewrite Hrow.
  cbn [option_map]. unfold dict_of_row at 1. cbn [rd_deal_base_rate py_float].
  unfold bind at 1. unfold ret at 1.
  unfold try_except at 1. unfold bind at 1.
  rewrite cache_rate_spec, Hwarn.
  destruct (fault env (tick (next_tick (next_tick w))) _); eexists; reflexivity.
Qed.

Lemma step_other_rates (env : Env) (c d : string) (rates rates' : gmap string Q)
    (hits hits' : nat) (w w' : World) :
  step_relates env c rates hits w rates' hits' w' ->
  d <> c -> rates' !! d = rates !! d.
Proof.
  intros (_ & _ & _ & _ & _ & S6 & _) Hne.
  destruct S6 as [-> | (v & _ & ->)]; [reflexivity|].
  apply lookup_insert_ne. congruence.
Qed.

Lemma lookup_loop_omits_logged_error (env : Env) (d : string)
    (codes : list string) :
  cache_reads_fail env d -> stdlib_warning_enabled env = true ->
  forall rates hits w rates' hits' w',
    lookup_loop env codes (rates, hits) w = (Returned (rates', hits'), w') ->
    rates' !! d = rates !! d.
Proof.
  intros Hdown Hwarn. induction codes as [|c rest IH];
    intros rates hits w rates' hits' w' Hrun.
  - cbn in Hrun. unfold ret in Hrun. inversion Hrun. reflexivity.
  - rewrite lookup_loop_cons in Hrun.
    destruct (decide (c = d)) as [->|Hne].
    + rewrite (lookup_step_cache_error_logged env d rates hits w (Hdown _) Hwarn)
        in Hrun.
      apply (IH _ _ _ _ _ _ Hrun).
    + destruct (lookup_step_spec env c rates hits w)
        as (rates1 & hits1 & w1 & Hstep & Hrel).
      rewrite Hstep in Hrun. rewrite (IH _ _ _ _ _ _ Hrun).
      apply (step_other_rates env c d rates rates1 hits hits1 w w1 Hrel).
      congruence.
Qed.

Lemma lookup_loop_serves_silent_error (env : Env) (d : string) (v : Q)
    (codes : list string) :
  cache_reads_fail env d -> stdlib_warning_enabled env = false ->
  store_queries_succeed env d ->
  forall rates hits w rates' hits' w',
    (exists row, latest_row w d = Some row /\ row_deal_base_rate row = v) ->
    In d codes \/ rates !! d = Some v ->
    lookup_loop env codes (rates, hits) w = (Returned (rates', hits'), w') ->
    rates' !! d = Some v.
Proof.
  intros Hdown Hwarn Hstore. induction codes as [|c rest IH];
    intros rates hits w rates' hits' w' (row & Hrow & Hv) Hd Hrun.
  - cbn in Hrun. unfold ret in Hrun. inversion Hrun. subst.
    destruct Hd as [[] | H]; exact H.
  - rewrite lookup_loop_cons in Hrun.
    destruct (lookup_step_spec env c rates hits w)
      as (rates1 & hits1 & w1 & Hstep & Hrel).
    assert (Hrow1 : exists row, latest_row w1 d = Some row
                                /\ row_deal_base_rate row = v).
    { exists row. split; [|exact Hv].
      destruct Hrel as (S1 & _). rewrite (same_store_latest w w1 d S1). exact Hrow. }
    destruct (decide (c = d)) as [->|Hne].
    + destruct (lookup_step_cache_error_silent env d rates hits w row
                  (Hdown _) Hwarn (Hstore _) Hrow) as [w1' Hstep'].
      rewrite Hstep in Hstep'. inversion Hstep'. subst rates1 hits1 w1'.
      rewrite Hstep in Hrun.
      eapply IH; [exact Hrow1| |exact Hrun].
      right. rewrite Hv. apply lookup_insert_eq.
    + rewrite Hstep in Hrun.
      eapply IH; [exact Hrow1| |exact Hrun].
      destruct Hd as [[Heq | Hin] | Hold]; [congruence|left; exact Hin|].
      right.
      rewrite (step_other_rates env c d rates rates1 hits hits1 w w1 Hrel);
        [exact Hold|congruence].
Qed.

(** X7: what a failing cache read does to a requested currency depends on
    the standard library logger.  When it is enabled for warnings, the
    warning of [_get_cached_rate] raises on its keyword [error=]: the
    currency is omitted from the returned rates although the store holds a
    row for it.  When it is not, [_get_cached_rate] returns [None] and the
    currency is served from the most recent row of the store. *)
Theorem cache_read_failure_depends_on_logger (env : Env) (codes : list string)
    (base : string) (w : World) (d : string) (row : HistoryRow) :
  cache_reads_fail env d ->
  store_queries_succeed env d ->
  In d (requested codes) ->
  latest_row w d = Some row ->
  exists snap w',
    get_latest_rates env codes base w = (Returned snap, w')
    /\ snap_rates snap !! d
       = if stdlib_warning_enabled env then None
         else Some (row_deal_base_rate row).
Proof.
  intros Hdown Hstore Hin Hrow.
  destruct (get_latest_rates_spec env codes base w)
    as (rates & hits & w' & _ & Hrun).
  destruct (lookup_loop_spec env (requested codes) ∅ 0%nat w)
    as (rates0 & hits0 & w0 & Hloop & _).
  assert (Hsame : rates0 = rates).
  { unfold get_latest_rates, try_except in Hrun. cbv zeta in Hrun.
    fold (requested codes) in Hrun. unfold bind at 1 in Hrun.
    rewrite Hloop in Hrun. cbn in Hrun. inversion Hrun. reflexivity. }
  subst rates0.
  exists (snapshot_of base codes rates hits w'), w'. split; [exact Hrun|].
  cbn [snap_rates snapshot_of].
  destruct (stdlib_warning_enabled env) eqn:Hwarn.
  - rewrite (lookup_loop_omits_logged_error env d (requested codes) Hdown Hwarn
               _ _ _ _ _ _ Hloop).
    apply lookup_empty.
  - apply (lookup_loop_serves_silent_error env d (row_deal_base_rate row)
             (requested codes) Hdown Hwarn Hstore _ _ _ _ _ _
             (ex_intro _ row (conj Hrow eq_refl)) (or_introl Hin) Hloop).
Qed.

Lemma cache_read_failure_depends_on_logger_witness :
  (exists snap w',
     get_latest_rates (cache_down_env true) ["USD"]%string "KRW"
       sample_world_with_usd = (Returned snap, w')
     /\ snap_rates snap !! "USD"%string = None)
  /\ (exists snap w',
        get_latest_rates (cache_down_env false) ["USD"]%string "KRW"
          sample_world_with_usd = (Returned snap, w')
        /\ snap_rates snap !! "USD"%string = Some (13502500 # 10000)%Q).
Proof.
  split.
  - apply (cache_read_failure_depends_on_logger (cache_down_env true)
             ["USD"]%string "KRW" sample_world_with_usd "USD"
             (row_of sample_usd_rate 1700000000)).
    + intros t. reflexivity.
    + intros t. reflexivity.
    + left. reflexivity.
    + reflexivity.
  - apply (cache_read_failure_depends_on_logger (cache_down_env false)
             ["USD"]%string "KRW" sample_world_with_usd "USD"
             (row_of sample_usd_rate 1700000000)).
    + intros t. reflexivity.
    + intros t. reflexivity.
    + left. reflexivity.
    + reflexivity.
Defined.

Lemma get_latest_rates_run (env : Env) (codes : list string) (base : string)
    (w : World) (rates : gmap string Q) (hits : nat) (w' : World) :
  lookup_loop env (requested codes) (∅, 0%nat) w = (Returned (rates, hits), w') ->
  get_latest_rates env codes base w
  = (Returned (snapshot_of base codes rates hits w'), w').
Proof.
  intros Hloop. unfold get_latest_rates, try_except. cbv zeta.
  fold (requested codes). unfold bind at 1. rewrite Hloop. reflexivity.
Qed.

Lemma lookup_loop_serves_cached (env : Env) (d : string) (q : Q)
    (codes : list string) :
  cache_reads_succeed env d ->
  forall rates hits w rates' hits' w',
    cached_rate w d = Some q ->
    In d codes \/ rates !! d = Some q ->
    lookup_loop env codes (rates, hits) w = (Returned (rates', hits'), w') ->
    rates' !! d = Some q.
Proof.
  intros Hget. induction codes as [|c rest IH];
    intros rates hits w rates' hits' w' Hq Hd Hrun.
  - cbn in Hrun. unfold ret in Hrun. inversion Hrun. subst.
    destruct Hd as [[] | H]; exact H.
  - rewrite lookup_loop_cons in Hrun.
    destruct (decide (c = d)) as [->|Hne].
    + rewrite (lookup_step_hit env d rates hits w q (Hget _) Hq) in Hrun.
      eapply IH; [|right; apply lookup_insert_eq|exact Hrun]. exact Hq.
    + destruct (lookup_step_spec env c rates hits w)
        as (rates1 & hits1 & w1 & Hstep & Hrel).
      rewrite Hstep in Hrun.
      eapply IH; [| |exact Hrun].
      * unfold cached_rate.
        rewrite (step_keeps_other_hash env c d rates rates1 hits hits1 w w1 Hrel);
          [exact Hq|congruence].
      * destruct Hd as [[Heq | Hin] | Hold]; [congruence|left; exact Hin|].
        right.
        rewrite (step_other_rates env c d rates rates1 hits hits1 w w1 Hrel);
          [exact Hold|congruence].
Qed.

(** X8: the cache shields the reader from the store.  A requested currency
    with a live cached rate whose cache reads succeed is returned with that
    rate, and the snapshot is tagged [redis_cache], whatever happens to the
    store: no assumption is made on the store queries or on any other
    call. *)
Theorem cached_currency_survives_store_outage (env : Env) (codes : list string)
    (base : string) (w : World) (d : string) (q : Q) :
  cache_reads_succeed env d ->
  In d (requested codes) ->
  cached_rate w d = Some q ->
  exists snap w',
    get_latest_rates env codes base w = (Returned snap, w')
    /\ snap_rates snap !! d = Some q
    /\ snap_source snap = "redis_cache"%string
    /\ snap_cache_hit snap = true.
Proof.
  intros Hget Hin Hq.
  destruct (lookup_loop_spec env (requested codes) ∅ 0%nat w)
    as (rates & hits & w' & Hloop & Hrel).
  destruct Hrel as (_ & _ & _ & _ & _ & _ & _ & L8 & _).
  assert (Hhits : (0 < hits)%nat) by (apply (L8 d Hin Hget); eauto).
  exists (snapshot_of base codes rates hits w'), w'.
  split; [apply get_latest_rates_run; exact Hloop|].
  destruct (snapshot_source_hits base codes rates hits w') as (Hredis & _ & Hflag).
  split.
  - cbn [snap_rates snapshot_of].
    apply (lookup_loop_serves_cached env d q (requested codes) Hget
             _ _ _ _ _ _ Hq (or_introl Hin) Hloop).
  - split; [apply Hredis; exact Hhits|].
    rewrite Hflag. apply Nat.ltb_lt. exact Hhits.
Qed.

Lemma cached_currency_survives_store_outage_witness :
  exists snap w',
    get_latest_rates store_down_env ["USD"; "JPY"]%string "KRW"
      sample_world_cached = (Returned snap, w')
    /\ snap_rates snap !! "USD"%string = Some (13502500 # 10000)%Q
    /\ snap_source snap = "redis_cache"%string
    /\ snap_cache_hit snap = true.
Proof.
  apply (cached_currency_survives_store_outage store_down_env
           ["USD"; "JPY"]%string "KRW" sample_world_cached "USD").
  - intros t. reflexivity.
  - left. reflexivity.
  - reflexivity.
Defined.





Lemma lookup_loop_hits_bound (env : Env) (codes : list string) :
  forall rates hits w rates' hits' w',
    lookup_loop env codes (rates, hits) w = (Returned (rates', hits'), w') ->
    (hits <= hits' <= hits + length codes)%nat.
Proof.
  induction codes as [|c rest IH]; intros rates hits w rates' hits' w' Hrun.
  - cbn in Hrun. unfold ret in Hrun. inversion Hrun. cbn. lia.
  - rewrite lookup_loop_cons in Hrun.
    destruct (lookup_step_spec env c rates hits w)
      as (rates1 & hits1 & w1 & Hstep & Hrel).
    rewrite Hstep in Hrun. specialize (IH _ _ _ _ _ _ Hrun).
    destruct Hrel as (_ & _ & _ & _ & _ & _ & _ & S8 & _).
    cbn [length]. destruct S8 as [[-> _] | [-> _]]; lia.
Qed.

Lemma requested_nonempty (codes : list string) :
  (0 < length (requested codes))%nat.
Proof. destruct codes; cbn; lia. Qed.

Lemma ratio_bounds (hits len : nat) :
  (0 < len)%nat -> (hits <= len)%nat ->
  let ratio := ((Z.of_nat hits # 1) / (Z.of_nat len # 1))%Q in
  (0 <= ratio)%Q /\ (ratio <= 1)%Q /\ ((ratio == 0)%Q <-> hits = 0%nat).
Proof.
  intros Hlen Hle. cbv zeta.
  assert (Hpos : (0 < Z.of_nat len # 1)%Q) by (unfold Qlt; cbn; lia).
  split; [|split].
  - apply Qle_shift_div_l; [exact Hpos|]. unfold Qle. cbn. lia.
  - apply Qle_shift_div_r; [exact Hpos|]. unfold Qle. cbn. lia.
  - split.
    + intros H.
      assert (H' : ((Z.of_nat hits # 1) == 0 * (Z.of_nat len # 1))%Q).
      { rewrite <- H. field. intros Hz. rewrite Hz in Hpos.
        apply (Qlt_irrefl 0). exact Hpos. }
      unfold Qeq in H'. cbn in H'. lia.
    + intros ->. unfold Qdiv. cbn. reflexivity.
Qed.

(** X10: the hit ratio of a snapshot is the number of cache hits divided by
    the number of requested currencies; it lies between 0 and 1, and it is 0
    exactly when the snapshot is tagged [database]. *)
Theorem cache_hit_ratio_is_a_proportion (env : Env) (codes : list string)
    (base : string) (w : World) :
  exists snap w',
    get_latest_rates env codes base w = (Returned snap, w')
    /\ (0 <= snap_cache_hit_ratio snap)%Q
    /\ (snap_cache_hit_ratio snap <= 1)%Q
    /\ ((snap_cache_hit_ratio snap == 0)%Q
        <-> snap_source snap = "database"%string).
Proof.
  destruct (lookup_loop_spec env (requested codes) ∅ 0%nat w)
    as (rates & hits & w' & Hloop & _).
  pose proof (lookup_loop_hits_bound env _ _ _ _ _ _ _ Hloop) as Hb.
  pose proof (requested_nonempty codes) as Hlen.
  exists (snapshot_of base codes rates hits w'), w'.
  split; [apply get_latest_rates_run; exact Hloop|].
  destruct (snapshot_source_hits base codes rates hits w') as (_ & Hdb & _).
  rewrite Hdb. cbn [snap_cache_hit_ratio snapshot_of].
  destruct (requested codes) as [|c rest] eqn:Hreq; [cbn in Hlen; lia|].
  rewrite <- Hreq in *.
  apply ratio_bounds; lia.
Qed.

(** ** More on the collector *)

Lemma passes_validation_backfill (env : Env) (now : Z)
    (item : RawExchangeRateData) :
  passes_validation env (backfill now item) = passes_validation env item.
Proof.
  unfold backfill. destruct (raw_timestamp item); reflexivity.
Qed.

Lemma backfill_backfill (now now' : Z) (item : RawExchangeRateData) :
  backfill now' (backfill now item) = backfill now item.
Proof.
  unfold backfill at 1. rewrite backfill_has_timestamp. reflexivity.
Qed.

Lemma filter_map_backfill (env : Env) (now : Z)
    (items : list RawExchangeRateData) :
  List.filter (passes_validation env) (map (backfill now) items)
  = map (backfill now) (List.filter (passes_validation env) items).
Proof.
  induction items as [|item rest IH]; [reflexivity|].
  cbn [map List.filter]. rewrite passes_validation_backfill.
  destruct (passes_validation env item); cbn [map]; rewrite IH; reflexivity.
Qed.

Lemma filter_filter_same {A} (f : A -> bool) (l : list A) :
  List.filter f (List.filter f l) = List.filter f l.
Proof.
  induction l as [|x l IH]; [reflexivity|].
  cbn. destruct (f x) eqn:E; [|exact IH]. cbn. rewrite E, IH. reflexivity.
Qed.

(** X11: validation is idempotent.  Validating again, at any later time,
    the records a validation returned gives back exactly these records:
    none is dropped and no timestamp is changed. *)
Theorem validation_is_idempotent (env : Env)
    (raw_data : list RawExchangeRateData) (source source' : string)
    (w w2 : World) :
  exists validated,
    _validate_collected_data env raw_data source w = (Returned validated, w)
    /\ _validate_collected_data env validated source' w2
       = (Returned validated, w2).
Proof.
  eexists. split.
  - unfold _validate_collected_data. rewrite validate_loop_spec. reflexivity.
  - unfold _validate_collected_data. rewrite validate_loop_spec. cbn [app].
    rewrite filter_map_backfill, filter_filter_same, map_map.
    do 2 f_equal. apply map_ext. intros item. apply backfill_backfill.
Qed.

(** X12: polling the configured sources.  Over the sources built by
    [_initialize_api_sources], a run has the outcomes of ExchangeRate-API
    and of Fixer, preceded by that of the Bank of Korea exactly when an API
    key is configured for it; the Bank of Korea is never polled without a
    key, so no outcome ever reports "BOK API key not configured". *)
Theorem bank_of_korea_is_polled_only_with_a_key (env : Env)
    (bok_api_key backup_api_key : string) (w : World) :
  exists outcomes,
    collect_all_data env (_initialize_api_sources bok_api_key backup_api_key) w
    = (Returned outcomes, w)
    /\ map cr_source outcomes
       = (if String.eqb bok_api_key EmptyString then [] else ["bok"%string])
         ++ ["exchangerate_api"; "fixer"]%string
    /\ (forall r, In r outcomes ->
          cr_error_message r <> Some "BOK API key not configured"%string).
Proof.
  eexists. split; [apply collect_all_data_spec|].
  unfold _initialize_api_sources, active_sources.
  cbn [List.filter src_active snd negb].
  destruct (String.eqb bok_api_key EmptyString) eqn:Hkey;
    cbn [negb map fst snd app];
    (split; [rewrite !source_outcome_source; reflexivity|]).
  - intros r [<- | [<- | []]]; unfold source_outcome;
      cbn [call_adapter String.eqb Ascii.eqb Bool.eqb];
      unfold _collect_from_exchangerate_api, _collect_from_fixer,
        fetch_from_provider; cbn [fst];
      match goal with
      | |- context [provider env ?a ?b] => destruct (provider env a b)
      end; cbn; discriminate.
  - intros r [<- | [<- | [<- | []]]]; unfold source_outcome;
      cbn [call_adapter String.eqb Ascii.eqb Bool.eqb];
      unfold _collect_from_bok, _collect_from_exchangerate_api,
        _collect_from_fixer; cbn [src_api_key];
      try rewrite Hkey; unfold fetch_from_provider; cbn [fst];
      match goal with
      | |- context [provider env ?a ?b] => destruct (provider env a b)
      end; cbn; discriminate.
Qed.

(** ** The answers of the rate providers *)

Lemma adapter_exchangerate_api (env : Env) (config : SourceConfig) (w : World) :
  fst (call_adapter env "exchangerate_api" config w)
  = match provider env (clock w) "exchangerate_api" with
    | Delivered records => Returned records
    | Failed message =>
        Raised (mk_exn ExternalAPIError
                  (String.append "ExchangeRate-API request failed: " message))
    end.
Proof.
  cbn [call_adapter String.eqb Ascii.eqb Bool.eqb].
  unfold _collect_from_exchangerate_api, fetch_from_provider.
  destruct (provider env (clock w) "exchangerate_api"); reflexivity.
Qed.





Lemma outcome_of_failure (env : Env) (w : World) (source_id : string)
    (config : SourceConfig) (e : exn) :
  fst (call_adapter env source_id config w) = Raised e ->
  cr_success (source_outcome env w source_id config) = false
  /\ cr_currency_count (source_outcome env w source_id config) = 0%nat
  /\ cr_raw_data (source_outcome env w source_id config) = []
  /\ cr_error_message (source_outcome env w source_id config)
     = Some (exn_msg e).
Proof.
  intros Hrun. unfold source_outcome. rewrite Hrun. repeat split.
Qed.






Lemma exchangerate_api_loop_fails (config : SourceConfig) (now : Z)
    (data : RatesAnswer) (items : list (string * json_value))
    (acc : list RawExchangeRateData) (code : string) (quote : json_value) :
  In (code, quote) items ->
  in_currencies config code = true ->
  number_of quote = None ->
  exists quote',
    exchangerate_api_loop config now data items acc = Raised (unorderable quote')
    /\ number_of quote' = None.
Proof.
  revert acc. induction items as [|[c v] rest IH]; intros acc Hin Hcfg Hq;
    [destruct Hin|].
  cbn [exchangerate_api_loop].
  destruct (in_currencies config c) eqn:Hc.
  - destruct (number_of v) as [q|] eqn:Hv.
    + destruct Hin as [Heq | Hin]; [injection Heq as -> ->; congruence|].
      apply IH; assumption.
    + exists v. split; [reflexivity|exact Hv].
  - destruct Hin as [Heq | Hin]; [injection Heq as -> ->; congruence|].
    apply IH; assumption.
Qed.




(** X14: a malformed quote fails the whole source.  If the answer of
    ExchangeRate-API quotes one polled currency by a value that is not a
    number, the outcome of the source is a failure without any record, also
    for the currencies quoted properly, and its message names the type of
    the value; such a value for a currency that is not polled is ignored. *)
Theorem malformed_quote_fails_exchangerate_api (env : Env)
    (config : SourceConfig) (w : World) (data : RatesAnswer)
    (items : list (string * json_value)) (code : string) (quote : json_value) :
  provider env (clock w) "exchangerate_api"
  = reply_of (exchangerate_api_records config (clock w)) (Answered data) ->
  ans_rates data = Some items ->
  In (code, quote) items ->
  in_currencies config code = true ->
  number_of quote = None ->
  let result := source_outcome env w "exchangerate_api" config in
  cr_success result = false
  /\ cr_currency_count result = 0%nat
  /\ cr_raw_data result = []
  /\ exists quote',
       number_of quote' = None
       /\ cr_error_message result
          = Some (String.append "ExchangeRate-API request failed: "
                    (exn_msg (unorderable quote'))).
Proof.
  intros Hp Hrates Hin Hcfg Hq result. subst result.
  pose proof (adapter_exchangerate_api env config w) as Hrun.
  rewrite Hp in Hrun. cbn [reply_of] in Hrun.
  unfold exchangerate_api_records in Hrun. rewrite Hrates in Hrun.
  destruct (exchangerate_api_loop_fails config (clock w) data items [] code
              quote Hin Hcfg Hq) as (quote' & Hloop & Hq').
  rewrite Hloop in Hrun.
  destruct (outcome_of_failure _ _ _ _ _ Hrun) as (H1 & H2 & H3 & H4).
  repeat split; try assumption.
  exists quote'. split; [exact Hq'|exact H4].
Qed.

Lemma malformed_quote_fails_exchangerate_api_witness :
  cr_success
    (source_outcome
       (answering_env (Refused "timeout") (Answered malformed_answer)
                      (Refused "timeout"))
       sample_world "exchangerate_api" sample_rates_config) = false
  /\ cr_raw_data
       (source_outcome
          (answering_env (Refused "timeout") (Answered malformed_answer)
                         (Refused "timeout"))
          sample_world "exchangerate_api" sample_rates_config) = [].
Proof.
  destruct (malformed_quote_fails_exchangerate_api
              (answering_env (Refused "timeout") (Answered malformed_answer)
                             (Refused "timeout"))
              sample_rates_config sample_world malformed_answer
              malformed_rates "EUR"%string (JOther "str") eq_refl eq_refl)
    as (H1 & _ & H3 & _).
  - right. left. reflexivity.
  - reflexivity.
  - reflexivity.
  - split; assumption.
Defined.






Lemma prefix_spec (needle haystack : string) :
  String.prefix needle haystack = true
  <-> exists after, haystack = String.append needle after.
Proof.
  revert haystack. induction needle as [|a needle IH]; intros haystack.
  - destruct haystack; cbn; split; eauto.
  - destruct haystack as [|b haystack]; cbn.
    + split; [discriminate|]. intros [after H]. discriminate.
    + destruct (Ascii.ascii_dec a b) as [->|Hne].
      * rewrite IH. split; intros [after H]; exists after.
        -- rewrite H. reflexivity.
        -- injection H as ->. reflexivity.
      * split; [discriminate|]. intros [after H]. injection H as -> _.
        contradiction.
Qed.

Lemma contains_spec (needle haystack : string) :
  contains needle haystack = true <-> occurs_in needle haystack.
Proof.
  unfold occurs_in. induction haystack as [|c rest IH].
  - cbn [contains]. rewrite orb_false_r, prefix_spec. split.
    + intros [after H]. exists EmptyString, after. exact H.
    + intros (before & after & H). destruct before; [|discriminate].
      exists after. exact H.
  - cbn [contains]. rewrite orb_true_iff, prefix_spec, IH. split.
    + intros [[after H] | (before & after & H)].
      * exists EmptyString, after. exact H.
      * exists (String c before), after. cbn. rewrite H. reflexivity.
    + intros (before & after & H). destruct before as [|c' before].
      * left. exists after. exact H.
      * right. cbn in H. injection H as _ ->. exists before, after. reflexivity.
Qed.

Lemma find_first {A} (f : A -> bool) (l : list A) :
  match List.find f l with
  | Some x =>
      exists l1 l2, l = l1 ++ x :: l2 /\ f x = true
                    /\ forall y, In y l1 -> f y = false
  | None => forall y, In y l -> f y = false
  end.
Proof.
  induction l as [|a l IH]; cbn [List.find]; [intros y []|].
  destruct (f a) eqn:Ha.
  - exists [], l. split; [reflexivity|]. split; [exact Ha|intros y []].
  - destruct (List.find f l) as [x|].
    + destruct IH as (l1 & l2 & -> & Hx & Hl1).
      exists (a :: l1), l2. split; [reflexivity|]. split; [exact Hx|].
      intros y [<- | Hy]; [exact Ha|apply Hl1; exact Hy].
    + intros y [<- | Hy]; [exact Ha|apply IH; exact Hy].
Qed.

Lemma parsed_code_is_polled (stat_name code : string)
    (bok_api_key backup_api_key : string) (config : SourceConfig) :
  _parse_bok_currency_code stat_name = Some code ->
  configured bok_api_key backup_api_key "bok" = Some config ->
  in_currencies config code = true.
Proof.
  unfold _parse_bok_currency_code, configured. cbn [_initialize_api_sources
    List.find fst snd String.eqb Ascii.eqb Bool.eqb option_map].
  intros Hcode Hcfg. injection Hcfg as <-.
  unfold currency_mapping in Hcode. cbn [List.find fst snd] in Hcode.
  repeat match type of Hcode with
         | context [contains ?n ?s] => destruct (contains n s)
         end; cbn in Hcode; try discriminate;
    injection Hcode as <-; reflexivity.
Qed.

(** X17: the currency of a Bank of Korea statistic.  The code returned for
    the name of a statistic is that of the first country of the table,
    in its order, whose name occurs in the name of the statistic, and it
    is one of the currencies polled from the Bank of Korea; no code is
    returned exactly when no country of the table occurs in the name. *)
Theorem bok_currency_is_first_country_named (stat_name : string) :
  match _parse_bok_currency_code stat_name with
  | Some code =>
      (exists earlier country later,
         currency_mapping = earlier ++ (country, code) :: later
         /\ occurs_in country stat_name
         /\ forall entry, In entry earlier -> ~ occurs_in (fst entry) stat_name)
      /\ forall bok_api_key backup_api_key config,
           configured bok_api_key backup_api_key "bok" = Some config ->
           in_currencies config code = true
  | None =>
      forall entry, In entry currency_mapping ->
                    ~ occurs_in (fst entry) stat_name
  end.
Proof.
  destruct (_parse_bok_currency_code stat_name) as [code|] eqn:Hcode.
  - split; [|intros; eapply parsed_code_is_polled; eassumption].
    unfold _parse_bok_currency_code in Hcode.
    pose proof (find_first (fun entry => contains (fst entry) stat_name)
                           currency_mapping) as Hfind.
    destruct (List.find _ currency_mapping) as [[country code']|];
      [|discriminate].
    injection Hcode as ->.
    destruct Hfind as (l1 & l2 & Heq & Hx & Hl1).
    exists l1, country, l2. split; [exact Heq|]. split.
    + apply contains_spec. exact Hx.
    + intros entry Hin Hocc. apply contains_spec in Hocc.
      rewrite (Hl1 entry Hin) in Hocc. discriminate.
  - unfold _parse_bok_currency_code in Hcode.
    pose proof (find_first (fun entry => contains (fst entry) stat_name)
                           currency_mapping) as Hfind.
    destruct (List.find _ currency_mapping); [discriminate|].
    intros entry Hin Hocc. apply contains_spec in Hocc.
    rewrite (Hfind entry Hin) in Hocc. discriminate.
Qed.







(** ** The batch driver *)









(** ** Retention *)

Lemma most_recent_none (rows : list HistoryRow) :
  most_recent rows = None -> rows = [].
Proof.
  destruct rows as [|r rest]; [reflexivity|].
  cbn [most_recent]. destruct (most_recent rest) as [b|];
    [destruct (_ <? _)|]; discriminate.
Qed.

Lemma most_recent_of_retained (cutoff : Z) (rows : list HistoryRow)
    (best : HistoryRow) :
  most_recent rows = Some best ->
  retained cutoff best = true ->
  most_recent (List.filter (retained cutoff) rows) = Some best.
Proof.
  revert best. induction rows as [|r rest IH]; intros best; [discriminate|].
  cbn [most_recent List.filter].
  destruct (most_recent rest) as [b|] eqn:Hb.
  - destruct (Z.ltb_spec (row_recorded_at r) (row_recorded_at b)) as [Hlt|Hge];
      intros H Hkeep; injection H as <-.
    + specialize (IH b eq_refl Hkeep).
      destruct (retained cutoff r); [|exact IH].
      cbn [most_recent]. rewrite IH.
      destruct (Z.ltb_spec (row_recorded_at r) (row_recorded_at b)); [reflexivity|lia].
    + rewrite Hkeep. cbn [most_recent].
      destruct (most_recent (List.filter (retained cutoff) rest)) as [b'|] eqn:Hb';
        [|reflexivity].
      apply most_recent_spec in Hb' as [Hin' _].
      apply filter_In in Hin' as [Hin' _].
      destruct (most_recent_spec rest b Hb) as [_ Hmax].
      specialize (Hmax b' Hin').
      destruct (Z.ltb_spec (row_recorded_at r) (row_recorded_at b'));
        [lia|reflexivity].
  - intros H Hkeep. injection H as <-. rewrite Hkeep.
    apply most_recent_none in Hb. subst rest. reflexivity.
Qed.

Lemma rows_of_currency_filter (f : HistoryRow -> bool) (rows : list HistoryRow)
    (c : string) :
  rows_of_currency (List.filter f rows) c
  = List.filter f (rows_of_currency rows c).
Proof.
  unfold rows_of_currency. induction rows as [|r rest IH]; [reflexivity|].
  cbn [List.filter].
  destruct (f r) eqn:Hf, (String.eqb (row_currency_code r) c) eqn:Hc;
    cbn [List.filter]; rewrite ?Hf, ?Hc, IH; reflexivity.
Qed.

(** X20: retention.  When the [DELETE] goes through, [cleanup_old_data]
    leaves in the store exactly the rows recorded at or after the cut-off,
    in their order, and touches neither the cache nor the sink; a currency
    whose most recent row is retained keeps it as its most recent row, a
    currency whose rows are all older has none left, and a second clean-up
    at the same time changes nothing.  When the [DELETE] raises, the store
    is as before and [DatabaseError] is raised. *)
Theorem cleanup_keeps_the_recent_rows (delete_fails : nat -> bool)
    (retention_days : Z) (w : World) :
  let cutoff := clock w - days retention_days in
  if delete_fails (tick w)
  then cleanup_old_data delete_fails retention_days w
       = (Raised (mk_exn DatabaseError
                    "Failed to cleanup old exchange rate data"),
          next_tick w)
  else
    exists w',
      cleanup_old_data delete_fails retention_days w = (Returned tt, w')
      /\ history w' = List.filter (retained cutoff) (history w)
      /\ cache w' = cache w /\ sink w' = sink w /\ clock w' = clock w
      /\ (forall c row, latest_row w c = Some row ->
            cutoff <= row_recorded_at row -> latest_row w' c = Some row)
      /\ (forall c,
            (forall r, In r (history w) -> row_currency_code r = c ->
                       row_recorded_at r < cutoff) ->
            latest_row w' c = None)
      /\ history (snd (cleanup_old_data (fun _ => false) retention_days w'))
         = history w'.
Proof.
  cbv zeta. destruct (delete_fails (tick w)) eqn:Hf.
  { unfold cleanup_old_data, try_except, bind, utc_now, execute_delete.
    rewrite Hf. reflexivity. }
  eexists. split.
  { unfold cleanup_old_data, try_except, bind, utc_now, execute_delete.
    rewrite Hf. reflexivity. }
  cbn [history cache sink clock with_history next_tick].
  split; [reflexivity|]. split; [reflexivity|]. split; [reflexivity|].
  split; [reflexivity|]. split; [|split].
  - intros c row Hrow Hle. unfold latest_row in *. cbn [history with_history next_tick].
    rewrite rows_of_currency_filter.
    apply most_recent_of_retained; [exact Hrow|].
    unfold retained. apply negb_true_iff. apply Z.ltb_ge. exact Hle.
  - intros c Hold. unfold latest_row. cbn [history with_history next_tick].
    rewrite rows_of_currency_filter.
    destruct (most_recent _) as [b|] eqn:Hb; [|reflexivity].
    apply most_recent_spec in Hb as [Hin _].
    apply filter_In in Hin as [Hin Hkeep].
    apply filter_In in Hin as [Hin Hc]. apply String.eqb_eq in Hc.
    specialize (Hold b Hin Hc). unfold retained in Hkeep.
    apply negb_true_iff, Z.ltb_ge in Hkeep. lia.
  - unfold cleanup_old_data, try_except, bind, utc_now, execute_delete, ret.
    cbn [snd history clock with_history next_tick].
    apply filter_filter_same.
Qed.

(** ** The message producer *)





Lemma send_message_local (setup : MessagingSetup) (topic : string)
    (message : list (string * string)) (key : option string) (s : Messaging) :
  environment_is_local setup = true ->
  sqs_client s = false ->
  let r := send_message setup topic message key s in
  sqs_client (snd r) = false
  /\ sqs_queue (snd r) = sqs_queue s
  /\ length (kafka_log (snd r))
     = (length (kafka_log s) + if is_returned (fst r) then 1 else 0)%nat
  /\ (kafka_usable setup = false -> kafka_producer s = false ->
      kafka_producer (snd r) = false /\ is_returned (fst r) = false).
Proof.
  intros Hlocal Hsqs. cbv zeta. unfold send_message.
  assert (Hinit : exists o s1,
            (if _initialized s then (Returned tt, s) else initialize setup s)
            = (o, s1)
            /\ sqs_client s1 = false
            /\ kafka_log s1 = kafka_log s /\ sqs_queue s1 = sqs_queue s
            /\ (kafka_usable setup = false -> kafka_producer s = false ->
                kafka_producer s1 = false)).
  { destruct (_initialized s) eqn:Hi.
    - exists (Returned tt), s. repeat split; auto.
    - unfold initialize. rewrite Hi.
      destruct (config_loads setup); cbn [negb].
      + eexists _, _. split; [reflexivity|].
        cbn [sqs_client kafka_log sqs_queue kafka_producer].
        rewrite Hlocal, andb_false_r. repeat split; [exact Hsqs|].
        unfold kafka_usable. intros Hu Hkp.
        destruct (KAFKA_AVAILABLE setup && nonempty (kafka_bootstrap_servers setup));
          [exact Hu|exact Hkp].
      + eexists _, _. split; [reflexivity|]. repeat split; auto. }
  destruct Hinit as (o & s1 & -> & Hs1 & Hk & Hq & Hu).
  destruct o as [[]|e]; cbn [fst snd is_returned].
  2:{ rewrite Hk, Nat.add_0_r.
      split; [exact Hs1|]. split; [exact Hq|]. split; [reflexivity|].
      intros Hno Hkp. split; [apply Hu; assumption|reflexivity]. }
  cbv zeta. cbn [kafka_producer sqs_client kafka_log sqs_queue sends _initialized].
  rewrite Hs1. cbn [andb].
  destruct (kafka_producer s1 && negb (kafka_send_fails setup (sends s1))) eqn:Hsend;
    cbn [fst snd is_returned kafka_producer sqs_client kafka_log sqs_queue].
  - rewrite length_app, Hk. cbn [length].
    split; [reflexivity|]. split; [exact Hq|]. split; [reflexivity|].
    intros Hno Hkp. rewrite (Hu Hno Hkp) in Hsend. discriminate.
  - rewrite Hk, Nat.add_0_r.
    split; [reflexivity|]. split; [exact Hq|]. split; [reflexivity|].
    intros Hno Hkp. split; [apply Hu; assumption|reflexivity].
Qed.

Lemma send_all_local (setup : MessagingSetup)
    (messages : list (string * list (string * string))) :
  environment_is_local setup = true ->
  forall s, sqs_client s = false ->
  let r := send_all setup messages s in
  sqs_queue (snd r) = sqs_queue s
  /\ length (kafka_log (snd r))
     = (length (kafka_log s) + delivered (fst r))%nat
  /\ length (fst r) = length messages
  /\ (kafka_usable setup = false -> kafka_producer s = false ->
      delivered (fst r) = 0%nat).
Proof.
  intros Hlocal. induction messages as [|[topic message] rest IH];
    intros s Hsqs; cbv zeta.
  - cbn. rewrite Nat.add_0_r. repeat split.
  - cbn [send_all].
    destruct (send_message_local setup topic message None s Hlocal Hsqs)
      as (H1 & H2 & H3 & H4).
    destruct (send_message setup topic message None s) as [o s1].
    cbn [fst snd] in H1, H2, H3, H4.
    destruct (IH s1 H1) as (I1 & I2 & I3 & I4).
    destruct (send_all setup rest s1) as [os s2].
    cbn [fst snd] in *. unfold delivered in *. cbn [List.filter length].
    split; [congruence|]. split.
    + rewrite I2, H3. destruct (is_returned o); cbn [length]; lia.
    + split; [lia|]. intros Hno Hkp.
      destruct (H4 Hno Hkp) as [Hkp1 Hret]. rewrite Hret.
      apply I4; assumption.
Qed.

(** X22: no fallback in the local environment.  In the local environment
    the queue client is never built, so a new producer never writes to the
    queue: every send that returns left its message in Kafka, every other
    one raised.  When Kafka cannot be used there (library missing, no
    servers configured, or the producer does not start) no send returns. *)
Theorem local_environment_has_no_fallback (setup : MessagingSetup)
    (messages : list (string * list (string * string))) :
  environment_is_local setup = true ->
  let r := send_all setup messages new_producer in
  sqs_queue (snd r) = []
  /\ length (kafka_log (snd r)) = delivered (fst r)
  /\ length (fst r) = length messages
  /\ (kafka_usable setup = false -> delivered (fst r) = 0%nat).
Proof.
  intros Hlocal.
  destruct (send_all_local setup messages Hlocal new_producer eq_refl)
    as (H1 & H2 & H3 & H4).
  cbv zeta. split; [exact H1|]. split; [exact H2|]. split; [exact H3|].
  intros Hno. apply H4; [exact Hno|reflexivity].
Qed.

Lemma local_environment_has_no_fallback_witness :
  sqs_queue
    (snd (send_all local_setup
            [("exchange-rates", [("type", "exchange_rate_update")]);
             ("exchange-rates", [("type", "exchange_rate_update")]);
             ("exchange-rates", [("type", "exchange_rate_update")])]%string
            new_producer)) = []
  /\ length
       (kafka_log
          (snd (send_all local_setup
                  [("exchange-rates", [("type", "exchange_rate_update")]);
                   ("exchange-rates", [("type", "exchange_rate_update")]);
                   ("exchange-rates", [("type", "exchange_rate_update")])]%string
                  new_producer))) = 2%nat.
Proof.
  destruct (local_environment_has_no_fallback local_setup
              [("exchange-rates", [("type", "exchange_rate_update")]);
               ("exchange-rates", [("type", "exchange_rate_update")]);
               ("exchange-rates", [("type", "exchange_rate_update")])]%string
              eq_refl) as (H1 & H2 & _).
  split; [exact H1|]. rewrite H2. reflexivity.
Defined.

(** ** From ingestion to the reader *)

Lemma last_of_currency_in (c : string) (items : list ExchangeRate)
    (item : ExchangeRate) :
  last_of_currency c items = Some item ->
  In item items /\ er_currency_code item = c.
Proof.
  unfold last_of_currency. intros H. apply find_some in H as [Hin Hc].
  split; [apply in_rev; exact Hin|apply String.eqb_eq; exact Hc].
Qed.

Lemma no_fault_lookups (env : Env) (c : string) :
  no_fault env -> lookups_succeed env c.
Proof.
  intros H. unfold lookups_succeed. repeat split; intros; apply H.
Qed.

(** X23: from ingestion to the reader.  When no external call fails, a
    currency of a processed collection result is served by the reader: for
    one hour with the rate of the last record of that currency in the batch,
    from the cache; from then on with the rate of the row of the currency
    that has the latest observation time, which is at least that of this
    record, from the store. *)
Theorem ingested_rate_is_served (env : Env) (cr : CollectionResult)
    (w : World) (c : string) (item : ExchangeRate) (codes : list string)
    (base : string) (delay : Z) :
  no_fault env ->
  cr_success cr = true ->
  last_of_currency c (accepted_rates w cr) = Some item ->
  In c (requested codes) ->
  0 <= delay ->
  let w1 := with_clock (clock w + delay)
                       (snd (process_exchange_rate_data env cr w)) in
  exists snap w2,
    get_latest_rates env codes base w1 = (Returned snap, w2)
    /\ (delay < 3600 ->
        snap_rates snap !! c = Some (er_deal_base_rate item)
        /\ snap_source snap = "redis_cache"%string)
    /\ (3600 <= delay ->
        exists row,
          latest_row w1 c = Some row
          /\ er_recorded_at item <= row_recorded_at row
          /\ snap_rates snap !! c = Some (row_deal_base_rate row)).
Proof.
  intros Hnf Hs Hlast Hin Hdelay w1.
  destruct (no_fault_kinds env Hnf) as (Hi & Hc & Hp & Hd).
  destruct (process_world_of_success env cr w Hs Hd) as (t1 & t2 & t3 & t4 & Hw).
  assert (Hcache : cache w1 !! rate_key c
                   = Some (synchronized_slot (clock w) item)).
  { subst w1. rewrite Hw. cbn [cache with_clock].
    rewrite (synchronized_cache_lookup env _ c _ Hc), Hlast. reflexivity. }
  assert (Hclock : clock w1 = clock w + delay).
  { subst w1. reflexivity. }
  assert (Hhist : history w1
                  = history w ++ map (fun i => row_of i (clock w))
                                     (accepted_rates w cr)).
  { subst w1. rewrite Hw. cbn [history with_clock].
    rewrite (written_rows_all env _ _ Hi). reflexivity. }
  destruct (last_of_currency_in _ _ _ Hlast) as [Hitem Hcode].
  destruct (lookup_loop_spec env (requested codes) ∅ 0%nat w1)
    as (rates & hits & w2 & Hloop & Hrel).
  destruct Hrel as (_ & _ & _ & _ & _ & L6 & _ & L8 & _).
  exists (snapshot_of base codes rates hits w2), w2.
  split; [apply get_latest_rates_run; exact Hloop|].
  cbn [snap_rates snapshot_of].
  split.
  - intros Hlt.
    assert (Hq : cached_rate w1 c = Some (er_deal_base_rate item)).
    { unfold cached_rate, live_hash. rewrite Hcache, Hclock.
      cbn [synchronized_slot slot_expires_at slot_hash].
      destruct (Z.ltb_spec (clock w + delay) (clock w + 3600)); [|lia].
      reflexivity. }
    split.
    + apply (L6 c _ (no_fault_lookups env c Hnf)); [|left; exact Hin].
      unfold resolves_to. unfold cached_rate in Hq.
      destruct (h_deal_base_rate (live_hash w1 (rate_key c))) as [[q|s|]|];
        try discriminate.
      exact Hq.
    + destruct (snapshot_source_hits base codes rates hits w2) as (Hredis & _).
      apply Hredis. apply (L8 c Hin); [intros t; apply Hnf|eauto].
  - intros Hge.
    assert (Hmiss : h_deal_base_rate (live_hash w1 (rate_key c)) = None).
    { unfold live_hash. rewrite Hcache, Hclock.
      cbn [synchronized_slot slot_expires_at slot_hash].
      destruct (Z.ltb_spec (clock w + delay) (clock w + 3600)); [lia|].
      reflexivity. }
    assert (Hrow : In (row_of item (clock w)) (history w1)).
    { rewrite Hhist. apply in_or_app. right.
      apply (in_map (fun i => row_of i (clock w))). exact Hitem. }
    destruct (latest_row_exists w1 c (row_of item (clock w)) Hrow Hcode)
      as (row & Hlatest).
    exists row. split; [exact Hlatest|].
    destruct (latest_row_spec w1 c row Hlatest) as (_ & _ & Hmax).
    split; [apply (Hmax (row_of item (clock w)) Hrow Hcode)|].
    apply (L6 c _ (no_fault_lookups env c Hnf)); [|left; exact Hin].
    unfold resolves_to. rewrite Hmiss, Hlatest. reflexivity.
Qed.

Lemma ingested_rate_is_served_witness :
  exists snap w2,
    get_latest_rates sample_env ["USD"]%string "KRW"
      (with_clock (clock sample_world + 1800)
         (snd (process_exchange_rate_data sample_env
                 (source_outcome sample_env sample_world "exchangerate_api"
                    sample_rates_config) sample_world)))
    = (Returned snap, w2)
    /\ snap_rates snap !! "USD"%string
       = Some (er_deal_base_rate sample_usd_rate)
    /\ snap_source snap = "redis_cache"%string.
Proof.
  destruct (ingested_rate_is_served sample_env
              (source_outcome sample_env sample_world "exchangerate_api"
                 sample_rates_config)
              sample_world "USD"%string sample_usd_rate ["USD"]%string
              "KRW"%string 1800) as (snap & w2 & Hrun & Hcached & _).
  - intros t o. reflexivity.
  - reflexivity.
  - reflexivity.
  - left. reflexivity.
  - lia.
  - exists snap, w2. split; [exact Hrun|].
    destruct Hcached as [Hrate Hsource]; [lia|].
    split; [exact Hrate|exact Hsource].
Defined.
